(** * Dungeons of Glee: the turn/activity engine of [src/logic.ts]

    A shallow embedding of the game logic and the proofs of its
    specification.  JavaScript numbers that hold grid coordinates,
    statistics, identifiers and clock values are integers and are modelled
    in [Z]; the results of [Math.random()] are rationals read from a
    replicated stream.  Objects that the code shares by reference (the
    actors) live in a store and are named by their index in it. *)

From Stdlib Require Import ZArith QArith Qround Lia Lqa.
From stdpp Require Import base option list strings.

Local Open Scope Z_scope.

(** ** Numbers *)

(** [a < b] on the rationals as a boolean: the guards
    [(Math.random() * 6) < k] of the dice loops. *)
Definition Qltb (a b : Q) : bool := negb (Qle_bool b a).

(** An integer as a rational; [Math.floor] and [Math.ceil] are [Qfloor] and
    [Qceiling]. *)
Definition ofZ (z : Z) : Q := inject_Z z.

(** ** Arrays *)

(** [l.indexOf(a)]: the first index holding [a], or -1. *)
Definition indexOf `{EqDecision A} (a : A) (l : list A) : Z :=
  match list_find (fun b => b = a) l with
  | Some (i, _) => Z.of_nat i
  | None => -1
  end.

(** [l.includes(a)] *)
Definition includes `{EqDecision A} (a : A) (l : list A) : bool :=
  bool_decide (a ∈ l).

(** [l.splice(start, deleteCount, ...items)], with the clamping of the
    language: a negative [start] counts from the end of the array. *)
Definition splice {A} (l : list A) (start deleteCount : Z) (items : list A)
    : list A :=
  let len := Z.of_nat (length l) in
  let actualStart :=
    if start <? 0 then Z.max (len + start) 0 else Z.min start len in
  let actualDeleteCount := Z.min (Z.max deleteCount 0) (len - actualStart) in
  take (Z.to_nat actualStart) l ++ items
  ++ drop (Z.to_nat (actualStart + actualDeleteCount)) l.

(** A stable sort by an integer key: [l.sort((a, b) => key(a) - key(b))]. *)
Fixpoint insertByKey {A} (key : A -> Z) (a : A) (l : list A) : list A :=
  match l with
  | [] => [a]
  | b :: l' => if key a <=? key b then a :: l else b :: insertByKey key a l'
  end.

Definition sortByKey {A} (key : A -> Z) (l : list A) : list A :=
  foldr (insertByKey key) [] l.

(** ** Objects used as maps

    [Record<string, V>] keeps its keys in insertion order, which
    [Object.keys] and [Object.values] expose. *)
Fixpoint objGet {V} (o : list (string * V)) (k : string) : option V :=
  match o with
  | [] => None
  | kv :: o' => if bool_decide (fst kv = k) then Some (snd kv) else objGet o' k
  end.

(** [o[k] = v] *)
Fixpoint objSet {V} (o : list (string * V)) (k : string) (v : V)
    : list (string * V) :=
  match o with
  | [] => [(k, v)]
  | kv :: o' => if bool_decide (fst kv = k) then (k, v) :: o'
                else kv :: objSet o' k v
  end.

(** [delete o[k]] *)
Definition objDelete {V} (o : list (string * V)) (k : string)
    : list (string * V) :=
  filter (fun kv => fst kv ≠ k) o.

(** ** Data model *)

(** [target.goldOnKill]: the configured gold range of a monster. *)
Record GoldRange := { gmin : Z; gmax : Z }.

(** The fields of [Actor] (declared in [./actor]) that [logic.ts] reads or
    writes, and the assignments to them. *)
Module Actor.
Record t := mk {
  id : Z;
  playerId : option string;
  dungeonId : Z;
  x : Z;
  y : Z;
  lx : Z;
  ly : Z;
  lt : Z;
  good : bool;
  attack : Z;
  modAttack : Z;
  defense : Z;
  modDefense : Z;
  health : Z;
  maxHealth : Z;
  magic : Z;
  maxMagic : Z;
  moves : Z;
  maxMoves : Z;
  actions : Z;
  facingRight : bool;
  sprite : Z;
  goldOnKill : option GoldRange
}.
Definition set_dungeonId (v : Z) (r : t) : t :=
  mk (id r) (playerId r) v (x r) (y r) (lx r) (ly r) (lt r) (good r)
    (attack r) (modAttack r) (defense r) (modDefense r) (health r)
    (maxHealth r) (magic r) (maxMagic r) (moves r) (maxMoves r) (actions r)
    (facingRight r) (sprite r) (goldOnKill r).
Definition set_x (v : Z) (r : t) : t :=
  mk (id r) (playerId r) (dungeonId r) v (y r) (lx r) (ly r) (lt r) (good r)
    (attack r) (modAttack r) (defense r) (modDefense r) (health r)
    (maxHealth r) (magic r) (maxMagic r) (moves r) (maxMoves r) (actions r)
    (facingRight r) (sprite r) (goldOnKill r).
Definition set_y (v : Z) (r : t) : t :=
  mk (id r) (playerId r) (dungeonId r) (x r) v (lx r) (ly r) (lt r) (good r)
    (attack r) (modAttack r) (defense r) (modDefense r) (health r)
    (maxHealth r) (magic r) (maxMagic r) (moves r) (maxMoves r) (actions r)
    (facingRight r) (sprite r) (goldOnKill r).
Definition set_lx (v : Z) (r : t) : t :=
  mk (id r) (playerId r) (dungeonId r) (x r) (y r) v (ly r) (lt r) (good r)
    (attack r) (modAttack r) (defense r) (modDefense r) (health r)
    (maxHealth r) (magic r) (maxMagic r) (moves r) (maxMoves r) (actions r)
    (facingRight r) (sprite r) (goldOnKill r).
Definition set_ly (v : Z) (r : t) : t :=
  mk (id r) (playerId r) (dungeonId r) (x r) (y r) (lx r) v (lt r) (good r)
    (attack r) (modAttack r) (defense r) (modDefense r) (health r)
    (maxHealth r) (magic r) (maxMagic r) (moves r) (maxMoves r) (actions r)
    (facingRight r) (sprite r) (goldOnKill r).
Definition set_lt (v : Z) (r : t) : t :=
  mk (id r) (playerId r) (dungeonId r) (x r) (y r) (lx r) (ly r) v (good r)
    (attack r) (modAttack r) (defense r) (modDefense r) (health r)
    (maxHealth r) (magic r) (maxMagic r) (moves r) (maxMoves r) (actions r)
    (facingRight r) (sprite r) (goldOnKill r).
Definition set_health (v : Z) (r : t) : t :=
  mk (id r) (playerId r) (dungeonId r) (x r) (y r) (lx r) (ly r) (lt r)
    (good r) (attack r) (modAttack r) (defense r) (modDefense r) v
    (maxHealth r) (magic r) (maxMagic r) (moves r) (maxMoves r) (actions r)
    (facingRight r) (sprite r) (goldOnKill r).
Definition set_magic (v : Z) (r : t) : t :=
  mk (id r) (playerId r) (dungeonId r) (x r) (y r) (lx r) (ly r) (lt r)
    (good r) (attack r) (modAttack r) (defense r) (modDefense r) (health r)
    (maxHealth r) v (maxMagic r) (moves r) (maxMoves r) (actions r)
    (facingRight r) (sprite r) (goldOnKill r).
Definition set_moves (v : Z) (r : t) : t :=
  mk (id r) (playerId r) (dungeonId r) (x r) (y r) (lx r) (ly r) (lt r)
    (good r) (attack r) (modAttack r) (defense r) (modDefense r) (health r)
    (maxHealth r) (magic r) (maxMagic r) v (maxMoves r) (actions r)
    (facingRight r) (sprite r) (goldOnKill r).
Definition set_actions (v : Z) (r : t) : t :=
  mk (id r) (playerId r) (dungeonId r) (x r) (y r) (lx r) (ly r) (lt r)
    (good r) (attack r) (modAttack r) (defense r) (modDefense r) (health r)
    (maxHealth r) (magic r) (maxMagic r) (moves r) (maxMoves r) v
    (facingRight r) (sprite r) (goldOnKill r).
Definition set_facingRight (v : bool) (r : t) : t :=
  mk (id r) (playerId r) (dungeonId r) (x r) (y r) (lx r) (ly r) (lt r)
    (good r) (attack r) (modAttack r) (defense r) (modDefense r) (health r)
    (maxHealth r) (magic r) (maxMagic r) (moves r) (maxMoves r) (actions r)
    v (sprite r) (goldOnKill r).
End Actor.
Abbreviation Actor := Actor.t.

#[export] Instance Actor_inhabited : Inhabited Actor :=
  populate (Actor.mk 0 None 0 0 0 0 0 0 false 0 0 0 0 0 0 0 0 0 0 0 false 0 None).

(** [GameEventType] and [GameMoveType]: the string literals of the source,
    prefixed with the type they belong to. *)
Inductive GameEventType :=
| ev_damage | ev_open | ev_step | ev_died | ev_melee | ev_shoot | ev_magic
| ev_heal | ev_turnChange | ev_stairs | ev_goldLoot | ev_itemLoot
| ev_chestOpen | ev_useItem.

Inductive GameMoveType :=
| mv_move | mv_attack | mv_open | mv_heal | mv_shoot | mv_magic | mv_chest.

#[export] Instance GameEventType_eq_dec : EqDecision GameEventType.
Proof. solve_decision. Defined.
#[export] Instance GameMoveType_eq_dec : EqDecision GameMoveType.
Proof. solve_decision. Defined.

(** [isTargetedMove], lines 14-16. *)
Definition isTargetedMove (type : GameMoveType) : bool :=
  bool_decide (type = mv_attack) || bool_decide (type = mv_heal)
  || bool_decide (type = mv_shoot) || bool_decide (type = mv_magic).

(** [ItemType] (of [./items]) and [PlayerClass] (of [./player]) are string
    literal types. *)
Definition ItemType := string.
Definition PlayerClass := string.

(** The fields of [Item] (declared in [./items]) that [logic.ts] reads. *)
Module Item.
Record t := mk {
  id : Z;
  type : ItemType
}.
End Item.
Abbreviation Item := Item.t.

Module GameEvent.
Record t := mk {
  type : GameEventType;
  x : Z;
  y : Z;
  value : Z;
  actorId : Z;
  delay : Z;
  item : option ItemType
}.
End GameEvent.
Abbreviation GameEvent := GameEvent.t.

Module Activity.
Record t := mk {
  dungeonId : Z;
  actorId : Z;
  startTime : Z;
  tx : Z;
  ty : Z
}.
End Activity.
Abbreviation Activity := Activity.t.

Module GameMove.
Record t := mk {
  x : Z;
  y : Z;
  sx : Z;
  sy : Z;
  type : GameMoveType;
  depth : Z
}.
End GameMove.
Abbreviation GameMove := GameMove.t.

Module SaveGame.
Record t := mk {
  savedAt : Z;
  items : list Item;
  level : Z;
  desc : string;
  gold : Z
}.
Definition set_items (v : list Item) (r : t) : t :=
  mk (savedAt r) v (level r) (desc r) (gold r).
Definition set_level (v : Z) (r : t) : t :=
  mk (savedAt r) (items r) v (desc r) (gold r).
Definition set_desc (v : string) (r : t) : t :=
  mk (savedAt r) (items r) (level r) v (gold r).
Definition set_gold (v : Z) (r : t) : t :=
  mk (savedAt r) (items r) (level r) (desc r) v.
End SaveGame.
Abbreviation SaveGame := SaveGame.t.

(** The record of a participant that has not saved yet has no [saves]. *)
Module Persisted.
Record t := mk {
  saves : option (list SaveGame)
}.
End Persisted.
Abbreviation Persisted := Persisted.t.

(** [PlayerInfo] is declared in [./player]. *)
Module PlayerInfo.
Record t := mk {
  dungeonId : Z;
  type : PlayerClass;
  actorId : Z;
  name : string
}.
Definition set_dungeonId (v : Z) (r : t) : t :=
  mk v (type r) (actorId r) (name r).
End PlayerInfo.
Abbreviation PlayerInfo := PlayerInfo.t.

(** *** Dungeons (declared in [./dungeon]) *)

Module Room.
Record t := mk {
  x : Z;
  y : Z;
  width : Z;
  height : Z;
  start : bool;
  stairsDown : bool;
  discovered : bool
}.
Definition set_discovered (v : bool) (r : t) : t :=
  mk (x r) (y r) (width r) (height r) (start r) (stairsDown r) v.
End Room.
Abbreviation Room := Room.t.

Module Door.
Record t := mk {
  x : Z;
  y : Z;
  open : bool
}.
Definition set_open (v : bool) (r : t) : t :=
  mk (x r) (y r) v.
End Door.
Abbreviation Door := Door.t.

Module Chest.
Record t := mk {
  x : Z;
  y : Z;
  open : bool;
  item : ItemType
}.
Definition set_open (v : bool) (r : t) : t :=
  mk (x r) (y r) v (item r).
End Chest.
Abbreviation Chest := Chest.t.

(** A reference to an actor object: its index in the store. *)
Abbreviation aref := nat (only parsing).

Module Dungeon.
Record t := mk {
  id : Z;
  level : Z;
  rooms : list Room;
  doors : list Door;
  chests : list Chest;
  actors : list aref
}.
Definition set_rooms (v : list Room) (r : t) : t :=
  mk (id r) (level r) v (doors r) (chests r) (actors r).
Definition set_doors (v : list Door) (r : t) : t :=
  mk (id r) (level r) (rooms r) v (chests r) (actors r).
Definition set_chests (v : list Chest) (r : t) : t :=
  mk (id r) (level r) (rooms r) (doors r) v (actors r).
Definition set_actors (v : list aref) (r : t) : t :=
  mk (id r) (level r) (rooms r) (doors r) (chests r) v.
End Dungeon.
Abbreviation Dungeon := Dungeon.t.

(** [GameState], lines 30-51, and the three components the model adds: the
    store of the actor objects, the number of [Math.random()] draws consumed
    so far, and whether [Rune.gameOver()] has been called. *)
Module GameState.
Record t := mk {
  persisted : option (list (string * Persisted));
  gold : Z;
  items : list Item;
  nextId : Z;
  playerOrder : list string;
  deadHeroes : list aref;
  playerInfo : list (string * PlayerInfo);
  whoseTurn : option string;
  dungeons : list Dungeon;
  possibleMoves : list GameMove;
  currentActivity : option Activity;
  lastUpdate : Z;
  events : list GameEvent;
  evilTurnMax : Z;
  whoseSave : option string;
  saveDesc : option string;
  time : Z;
  saveLevel : Z;
  store : list Actor;
  drawn : nat;
  over : bool
}.
Definition set_persisted (v : option (list (string * Persisted))) (r : t) : t :=
  mk v (gold r) (items r) (nextId r) (playerOrder r) (deadHeroes r)
    (playerInfo r) (whoseTurn r) (dungeons r) (possibleMoves r)
    (currentActivity r) (lastUpdate r) (events r) (evilTurnMax r)
    (whoseSave r) (saveDesc r) (time r) (saveLevel r) (store r) (drawn r)
    (over r).
Definition set_gold (v : Z) (r : t) : t :=
  mk (persisted r) v (items r) (nextId r) (playerOrder r) (deadHeroes r)
    (playerInfo r) (whoseTurn r) (dungeons r) (possibleMoves r)
    (currentActivity r) (lastUpdate r) (events r) (evilTurnMax r)
    (whoseSave r) (saveDesc r) (time r) (saveLevel r) (store r) (drawn r)
    (over r).
Definition set_items (v : list Item) (r : t) : t :=
  mk (persisted r) (gold r) v (nextId r) (playerOrder r) (deadHeroes r)
    (playerInfo r) (whoseTurn r) (dungeons r) (possibleMoves r)
    (currentActivity r) (lastUpdate r) (events r) (evilTurnMax r)
    (whoseSave r) (saveDesc r) (time r) (saveLevel r) (store r) (drawn r)
    (over r).
Definition set_nextId (v : Z) (r : t) : t :=
  mk (persisted r) (gold r) (items r) v (playerOrder r) (deadHeroes r)
    (playerInfo r) (whoseTurn r) (dungeons r) (possibleMoves r)
    (currentActivity r) (lastUpdate r) (events r) (evilTurnMax r)
    (whoseSave r) (saveDesc r) (time r) (saveLevel r) (store r) (drawn r)
    (over r).
Definition set_playerOrder (v : list string) (r : t) : t :=
  mk (persisted r) (gold r) (items r) (nextId r) v (deadHeroes r)
    (playerInfo r) (whoseTurn r) (dungeons r) (possibleMoves r)
    (currentActivity r) (lastUpdate r) (events r) (evilTurnMax r)
    (whoseSave r) (saveDesc r) (time r) (saveLevel r) (store r) (drawn r)
    (over r).
Definition set_deadHeroes (v : list aref) (r : t) : t :=
  mk (persisted r) (gold r) (items r) (nextId r) (playerOrder r) v
    (playerInfo r) (whoseTurn r) (dungeons r) (possibleMoves r)
    (currentActivity r) (lastUpdate r) (events r) (evilTurnMax r)
    (whoseSave r) (saveDesc r) (time r) (saveLevel r) (store r) (drawn r)
    (over r).
Definition set_playerInfo (v : list (string * PlayerInfo)) (r : t) : t :=
  mk (persisted r) (gold r) (items r) (nextId r) (playerOrder r)
    (deadHeroes r) v (whoseTurn r) (dungeons r) (possibleMoves r)
    (currentActivity r) (lastUpdate r) (events r) (evilTurnMax r)
    (whoseSave r) (saveDesc r) (time r) (saveLevel r) (store r) (drawn r)
    (over r).
Definition set_whoseTurn (v : option string) (r : t) : t :=
  mk (persisted r) (gold r) (items r) (nextId r) (playerOrder r)
    (deadHeroes r) (playerInfo r) v (dungeons r) (possibleMoves r)
    (currentActivity r) (lastUpdate r) (events r) (evilTurnMax r)
    (whoseSave r) (saveDesc r) (time r) (saveLevel r) (store r) (drawn r)
    (over r).
Definition set_dungeons (v : list Dungeon) (r : t) : t :=
  mk (persisted r) (gold r) (items r) (nextId r) (playerOrder r)
    (deadHeroes r) (playerInfo r) (whoseTurn r) v (possibleMoves r)
    (currentActivity r) (lastUpdate r) (events r) (evilTurnMax r)
    (whoseSave r) (saveDesc r) (time r) (saveLevel r) (store r) (drawn r)
    (over r).
Definition set_possibleMoves (v : list GameMove) (r : t) : t :=
  mk (persisted r) (gold r) (items r) (nextId r) (playerOrder r)
    (deadHeroes r) (playerInfo r) (whoseTurn r) (dungeons r) v
    (currentActivity r) (lastUpdate r) (events r) (evilTurnMax r)
    (whoseSave r) (saveDesc r) (time r) (saveLevel r) (store r) (drawn r)
    (over r).
Definition set_currentActivity (v : option Activity) (r : t) : t :=
  mk (persisted r) (gold r) (items r) (nextId r) (playerOrder r)
    (deadHeroes r) (playerInfo r) (whoseTurn r) (dungeons r)
    (possibleMoves r) v (lastUpdate r) (events r) (evilTurnMax r)
    (whoseSave r) (saveDesc r) (time r) (saveLevel r) (store r) (drawn r)
    (over r).
Definition set_lastUpdate (v : Z) (r : t) : t :=
  mk (persisted r) (gold r) (items r) (nextId r) (playerOrder r)
    (deadHeroes r) (playerInfo r) (whoseTurn r) (dungeons r)
    (possibleMoves r) (currentActivity r) v (events r) (evilTurnMax r)
    (whoseSave r) (saveDesc r) (time r) (saveLevel r) (store r) (drawn r)
    (over r).
Definition set_events (v : list GameEvent) (r : t) : t :=
  mk (persisted r) (gold r) (items r) (nextId r) (playerOrder r)
    (deadHeroes r) (playerInfo r) (whoseTurn r) (dungeons r)
    (possibleMoves r) (currentActivity r) (lastUpdate r) v (evilTurnMax r)
    (whoseSave r) (saveDesc r) (time r) (saveLevel r) (store r) (drawn r)
    (over r).
Definition set_evilTurnMax (v : Z) (r : t) : t :=
  mk (persisted r) (gold r) (items r) (nextId r) (playerOrder r)
    (deadHeroes r) (playerInfo r) (whoseTurn r) (dungeons r)
    (possibleMoves r) (currentActivity r) (lastUpdate r) (events r) v
    (whoseSave r) (saveDesc r) (time r) (saveLevel r) (store r) (drawn r)
    (over r).
Definition set_store (v : list Actor) (r : t) : t :=
  mk (persisted r) (gold r) (items r) (nextId r) (playerOrder r)
    (deadHeroes r) (playerInfo r) (whoseTurn r) (dungeons r)
    (possibleMoves r) (currentActivity r) (lastUpdate r) (events r)
    (evilTurnMax r) (whoseSave r) (saveDesc r) (time r) (saveLevel r) v
    (drawn r) (over r).
Definition set_drawn (v : nat) (r : t) : t :=
  mk (persisted r) (gold r) (items r) (nextId r) (playerOrder r)
    (deadHeroes r) (playerInfo r) (whoseTurn r) (dungeons r)
    (possibleMoves r) (currentActivity r) (lastUpdate r) (events r)
    (evilTurnMax r) (whoseSave r) (saveDesc r) (time r) (saveLevel r)
    (store r) v (over r).
Definition set_over (v : bool) (r : t) : t :=
  mk (persisted r) (gold r) (items r) (nextId r) (playerOrder r)
    (deadHeroes r) (playerInfo r) (whoseTurn r) (dungeons r)
    (possibleMoves r) (currentActivity r) (lastUpdate r) (events r)
    (evilTurnMax r) (whoseSave r) (saveDesc r) (time r) (saveLevel r)
    (store r) (drawn r) v.
Definition set_whoseSave (v : option string) (r : t) : t :=
  mk (persisted r) (gold r) (items r) (nextId r) (playerOrder r)
    (deadHeroes r) (playerInfo r) (whoseTurn r) (dungeons r)
    (possibleMoves r) (currentActivity r) (lastUpdate r) (events r)
    (evilTurnMax r) v (saveDesc r) (time r) (saveLevel r) (store r)
    (drawn r) (over r).
Definition set_saveDesc (v : option string) (r : t) : t :=
  mk (persisted r) (gold r) (items r) (nextId r) (playerOrder r)
    (deadHeroes r) (playerInfo r) (whoseTurn r) (dungeons r)
    (possibleMoves r) (currentActivity r) (lastUpdate r) (events r)
    (evilTurnMax r) (whoseSave r) v (time r) (saveLevel r) (store r)
    (drawn r) (over r).
Definition set_time (v : Z) (r : t) : t :=
  mk (persisted r) (gold r) (items r) (nextId r) (playerOrder r)
    (deadHeroes r) (playerInfo r) (whoseTurn r) (dungeons r)
    (possibleMoves r) (currentActivity r) (lastUpdate r) (events r)
    (evilTurnMax r) (whoseSave r) (saveDesc r) v (saveLevel r) (store r)
    (drawn r) (over r).
Definition set_saveLevel (v : Z) (r : t) : t :=
  mk (persisted r) (gold r) (items r) (nextId r) (playerOrder r)
    (deadHeroes r) (playerInfo r) (whoseTurn r) (dungeons r)
    (possibleMoves r) (currentActivity r) (lastUpdate r) (events r)
    (evilTurnMax r) (whoseSave r) (saveDesc r) (time r) v (store r)
    (drawn r) (over r).
End GameState.
Abbreviation GameState := GameState.t.

(** ** Combat ([rollCombat], lines 284-315) *)

Section Combat.
(** The replicated random stream: [random i] is the result of the [i]-th
    call of [Math.random()]. *)
Variable random : nat -> Q.

(** [Math.abs(attacker.x - target.x) + Math.abs(attacker.y - target.y)] *)
Definition manhattan (attacker target : Actor) : Z :=
  Z.abs (Actor.x attacker - Actor.x target)
  + Z.abs (Actor.y attacker - Actor.y target).

(** Lines 289-298: the value of the local [attack] when the skull loop
    starts.  The test [if (multiplier)] fails for an absent multiplier and
    for the number 0. *)
Definition attackScore (attacker target : Actor) (multiplier : option Z) : Z :=
  let attack := Actor.attack attacker + Actor.modAttack attacker in
  if manhattan attacker target =? 1 then
    Qceiling (ofZ attack / 2)
  else
    match multiplier with
    | Some m => if m =? 0 then attack else attack * m
    | None => attack
    end.

(** One dice loop, [for (let i = 0; i < n; i++) if ((Math.random() * 6) <
    faces) hits++], started with [pos] draws already consumed: the number
    of hits and the new position in the stream. *)
Fixpoint rollDice (n : nat) (faces : Q) (pos : nat) (hits : Z) : Z * nat :=
  match n with
  | O => (hits, pos)
  | S n' =>
      let hits' := if Qltb (random pos * 6) faces then hits + 1 else hits in
      rollDice n' faces (S pos) hits'
  end.

(** [rollCombat(attacker, target, multiplier)]: the damage and the new
    position in the random stream. *)
Definition rollCombat (attacker : Actor) (target : option Actor)
    (multiplier : option Z) (pos : nat) : Z * nat :=
  match target with
  | None => (0, pos)
  | Some target =>
      let attack := attackScore attacker target multiplier in
      let '(skulls, pos1) := rollDice (Z.to_nat attack) 3%Q pos 0 in
      let '(shields, pos2) :=
        rollDice (Z.to_nat (Actor.defense target + Actor.modDefense target))
                 (if Actor.good target then 2%Q else 1%Q) pos1 0 in
      (Z.max 0 (skulls - shields), pos2)
  end.

(** *** The resolver in the words of the specification *)

(** A Bernoulli trial with success probability [p] decided by a draw [r]
    of [[0,1)]: it succeeds when [r < p]. *)
Definition bernoulli (p r : Q) : bool := Qltb r p.

(** Number of successes among [n] trials fed with the draws [random pos],
    ..., [random (pos + n - 1)]. *)
Definition successes (p : Q) (pos n : nat) : Z :=
  Z.of_nat (length (filter (fun i => bernoulli p (random i) = true) (seq pos n))).

Definition shieldChance (defender : Actor) : Q :=
  if Actor.good defender then (1 # 3)%Q else (1 # 6)%Q.

Definition resolveSpec (attacker defender : Actor) (multiplier : option Z)
    (pos : nat) : Z :=
  let nA := Z.to_nat (attackScore attacker defender multiplier) in
  let nD := Z.to_nat (Actor.defense defender + Actor.modDefense defender) in
  let skulls := successes (1 # 2)%Q pos nA in
  let shields := successes (shieldChance defender) (pos + nA)%nat nD in
  Z.max 0 (skulls - shields).
End Combat.

(** ** Exceptions

    A call either returns or throws: a [TypeError] when a property of
    [undefined] is read, a [RangeError] when the recursion of [nextTurn]
    never ends and exhausts the call stack. *)
Inductive JsError := TypeError | RangeError.

Inductive outcome (A : Type) : Type :=
| Ok (a : A)
| Throws (e : JsError).
Arguments Ok {A} a.
Arguments Throws {A} e.

#[export] Instance outcome_ret : MRet outcome := fun _ a => Ok a.
#[export] Instance outcome_bind : MBind outcome := fun _ _ f m =>
  match m with
  | Ok a => f a
  | Throws e => Throws e
  end.

(** ** The collaborators

    The modules [./dungeon], [./monsters], [./player], [./actor] and
    [./items] are outside [logic.ts]; their functions are the fields of
    this class, and a statement below holds whatever they compute unless
    it says what it asks of them.  A
    dungeon, a room and a chest are passed by their index in the array
    that holds them, an actor by its reference.  A collaborator that
    changes the state returns the components it may change. *)

(** What [generateDungeon] returns: the dungeon, the actors it created
    (they are added to the store; the dungeon names them by the references
    that follow the ones in use), the next free identifier and the number
    of random draws consumed. *)
Record Generated := {
  gen_dungeon : Dungeon;
  gen_actors : list Actor;
  gen_nextId : Z;
  gen_drawn : nat
}.

(** What [createMonsterItemLoot] returns: the dropped item if any, the next
    free identifier and the number of random draws consumed. *)
Record Loot := {
  loot_item : option Item;
  loot_nextId : Z;
  loot_drawn : nat
}.

Class Collaborators := {
  random : nat -> Q;
  (* ./dungeon *)
  blocked : GameState -> nat -> option aref -> Z -> Z -> bool;
  calcMoves : GameState -> aref -> list GameMove;
  findNextStep : GameState -> aref -> Z -> Z -> option GameMove;
  generateDungeon : GameState -> Z -> Generated;
  getActorAt : GameState -> nat -> Z -> Z -> option aref;
  getActorById : GameState -> Z -> Z -> option aref;
  getAllRoomsAt : GameState -> nat -> Z -> Z -> list nat;
  getChestAt : GameState -> nat -> Z -> Z -> option nat;
  getRoomAt : GameState -> nat -> Z -> Z -> option nat;
  (* ./monsters *)
  createMonsterItemLoot : GameState -> aref -> Loot;
  distanceToHero : GameState -> Z -> Z -> Z -> Z;
  findActiveMonsters : GameState -> list aref;
  getAdjacentHero : GameState -> Z -> aref -> option aref;
  standingNextToHero : GameState -> aref -> bool;
  (* ./player *)
  findActiveHero : GameState -> bool;
  (* ./actor; [createActor] is given the class, not its entry of
     [PLAYER_CLASS_DEFS], and returns the actor and the next free id *)
  copyActor : Actor -> Actor;
  createActor : GameState -> string -> PlayerClass -> Z -> Z -> Z -> Actor * Z;
  (* ./items *)
  addItemToInventory : GameState -> Item -> list Item;
  createItem : GameState -> ItemType -> Item * Z
}.

#[export] Instance Dungeon_inhabited : Inhabited Dungeon :=
  populate (Dungeon.mk 0 0 [] [] [] []).

(** ** The engine *)

Section Engine.
Context `{Collaborators}.

(** *** Reading and writing objects *)

(** The actor a reference denotes.  A reference always denotes an object;
    the default value only makes the lookup total. *)
Definition actorOf (g : GameState) (r : aref) : Actor :=
  GameState.store g !!! r.

(** An assignment to fields of the actor [r]. *)
Definition updActor (r : aref) (f : Actor -> Actor) (g : GameState) : GameState :=
  GameState.set_store (alter f r (GameState.store g)) g.

(** A new actor object: its reference and the state that holds it. *)
Definition allocActor (a : Actor) (g : GameState) : aref * GameState :=
  (length (GameState.store g),
   GameState.set_store (GameState.store g ++ [a]) g).

(** The dungeon at an index of [game.dungeons]. *)
Definition dungeonOf (g : GameState) (di : nat) : Dungeon :=
  GameState.dungeons g !!! di.

Definition updDungeon (di : nat) (f : Dungeon -> Dungeon) (g : GameState)
    : GameState :=
  GameState.set_dungeons (alter f di (GameState.dungeons g)) g.

(** Modelled from the spec: [getDungeonById] is declared in [./dungeon],
    which is not among the sources.  A dungeon is "referenced by id": the
    lookup returns the first dungeon of [game.dungeons] that has the id. *)
Definition getDungeonById (g : GameState) (id : Z) : option nat :=
  fst <$> list_find (fun d => Dungeon.id d = id) (GameState.dungeons g).

(** [game.dungeons.find(d => d.level === level)] *)
Definition findDungeonByLevel (g : GameState) (level : Z) : option nat :=
  fst <$> list_find (fun d => Dungeon.level d = level) (GameState.dungeons g).

(** [addGameEvent], lines 274-282; the defaults [x = 0, y = 0, value = 0]
    are written out by the callers. *)
Definition addGameEvent (g : GameState) (actorId : Z) (event : GameEventType)
    (delay x y value : Z) (item : option ItemType) : GameState :=
  GameState.set_events
    (GameState.events g ++ [GameEvent.mk event x y value actorId delay item]) g.

(** *** [kill], lines 370-394 *)

(** Lines 388-391: the gold of a kill. *)
Definition lootGold (g : GameState) (range : GoldRange) : Z :=
  Qfloor (random (GameState.drawn g) * ofZ (gmax range - gmin range))
  + gmin range.

(** Lines 371-373: the target's health is zeroed, the target leaves the
    actor list of the dungeon, the [died] event is emitted. *)
Definition strikeOff (g : GameState) (dungeon : nat) (target : aref)
    (extraDelay : Z) : GameState :=
  let g := updActor target (Actor.set_health 0) g in
  let g := updDungeon dungeon (fun d =>
             Dungeon.set_actors
               (splice (Dungeon.actors d) (indexOf target (Dungeon.actors d)) 1 [])
               d) g in
  let t := actorOf g target in
  addGameEvent g (-1) ev_died (400 + extraDelay)
    (Actor.x t) (Actor.y t) (Actor.sprite t) None.

Definition kill (g : GameState) (dungeon : nat) (target : aref)
    (extraDelay : Z) : GameState :=
  let g := strikeOff g dungeon target extraDelay in
  let t := actorOf g target in
  if Actor.good t then
    let g := GameState.set_deadHeroes (GameState.deadHeroes g ++ [target]) g in
    if findActiveHero g then g else GameState.set_over true g
  else
    (* do the loot! *)
    let loot := createMonsterItemLoot g target in
    let g := GameState.set_drawn (loot_drawn loot)
               (GameState.set_nextId (loot_nextId loot) g) in
    match loot_item loot with
    | Some item =>
        let g := GameState.set_items (addItemToInventory g item) g in
        addGameEvent g (-1) ev_itemLoot (400 + extraDelay)
          (Actor.x t) (Actor.y t) 0 (Some (Item.type item))
    | None =>
        match Actor.goldOnKill t with
        | Some range =>
            let gold := lootGold g range in
            let g := GameState.set_drawn (S (GameState.drawn g)) g in
            let g := GameState.set_gold (GameState.gold g + gold) g in
            addGameEvent g (-1) ev_goldLoot (400 + extraDelay)
              (Actor.x t) (Actor.y t) gold None
        | None => g
        end
    end.

(** *** [saveGame], lines 203-230 *)

(** [Object.keys(game.playerInfo).map(id => game.playerInfo[id]?.name ??
    "").join(",")] *)
Definition playerNames (g : GameState) : string :=
  String.concat "," (map (fun kv => PlayerInfo.name (snd kv)) (GameState.playerInfo g)).

Definition saveGame (now : Z) (playerId : string) (dungeonIndex : Z)
    (g : GameState) : GameState :=
  let foreign :=
    match GameState.whoseSave g with
    | Some w => negb (bool_decide (w = "")) && negb (bool_decide (w = playerId))
    | None => false
    end in
  if foreign then g else
  match GameState.persisted g with
  | None => g
  | Some persisted =>
      let saveGames :=
        default [] (objGet persisted playerId ≫= Persisted.saves) in
      let first :=
        match saveGames with
        | s :: _ => s
        | [] => SaveGame.mk (GameState.time g + now) [] 0 (playerNames g) 0
        end in
      let first :=
        SaveGame.set_desc (playerNames g)
          (SaveGame.set_items (GameState.items g)
             (SaveGame.set_gold (GameState.gold g)
                (SaveGame.set_level dungeonIndex first))) in
      GameState.set_persisted
        (Some (objSet persisted playerId
                 (Persisted.mk (Some (first :: tail saveGames)))))
        g
  end.

(** *** [startDungeon], lines 317-366 *)

(** The free cells of a start room, in the order of the two loops of
    lines 323-332. *)
Definition possibleStartsIn (g : GameState) (dungeon : nat) (room : Room)
    : list (Z * Z) :=
  x ← seqZ 1 (Room.width room - 2);
  y ← seqZ 1 (Room.height room - 2);
  if (x =? Room.width room - 2) && (y =? 1) then []
  else if negb (bool_decide (is_Some (getActorAt g dungeon (Room.x room + x) (Room.y room + y))))
          && negb (blocked g dungeon None (Room.x room + x) (Room.y room + y))
       then [(x + Room.x room, y + Room.y room)]
       else [].

(** [possibleStarts[Math.floor(Math.random() * possibleStarts.length)]] *)
Definition pickStart (g : GameState) (possibleStarts : list (Z * Z))
    : option (Z * Z) :=
  let i := Qfloor (random (GameState.drawn g)
                   * ofZ (Z.of_nat (length possibleStarts))) in
  if i <? 0 then None else possibleStarts !! Z.to_nat i.

Definition startDungeon (g : GameState) (actor : aref)
    (nextDungeon oldDungeon : nat) : outcome (GameState * aref) :=
  match List.find Room.start (Dungeon.rooms (dungeonOf g nextDungeon)) with
  | Some startRoom =>
      let possibleStarts := possibleStartsIn g nextDungeon startRoom in
      if (0 <? Z.of_nat (length possibleStarts)) then
        match pickStart g possibleStarts with
        | None => Throws TypeError
        | Some start =>
            let g := GameState.set_drawn (S (GameState.drawn g)) g in
            let g := updDungeon oldDungeon (fun d =>
                       Dungeon.set_actors
                         (splice (Dungeon.actors d)
                                 (indexOf actor (Dungeon.actors d)) 1 []) d) g in
            let next := dungeonOf g nextDungeon in
            let copy :=
              Actor.set_lt 0
                (Actor.set_ly (snd start)
                   (Actor.set_lx (fst start)
                      (Actor.set_y (snd start)
                         (Actor.set_x (fst start)
                            (Actor.set_dungeonId (Dungeon.id next)
                               (copyActor (actorOf g actor))))))) in
            let '(newActor, g) := allocActor copy g in
            let g := updDungeon nextDungeon (fun d =>
                       Dungeon.set_actors (Dungeon.actors d ++ [newActor]) d) g in
            let g := GameState.set_playerInfo
                       (map (fun kv =>
                               if PlayerInfo.actorId (snd kv) =? Actor.id (actorOf g actor)
                               then (fst kv, PlayerInfo.set_dungeonId (Dungeon.id next) (snd kv))
                               else kv)
                            (GameState.playerInfo g)) g in
            let g := addGameEvent g (Actor.id (actorOf g newActor)) ev_stairs 0
                       (Actor.x (actorOf g actor)) (Actor.y (actorOf g actor))
                       (Dungeon.id (dungeonOf g oldDungeon)) None in
            Ok (g, newActor)
        end
      else Ok (g, actor)
  | None => Ok (g, actor)
  end.

(** *** [nextTurn], lines 234-271 *)

(** Lines 253-257: the new holder's actor gets its moves and its action
    back and regenerates one point of magic. *)
Definition refreshHero (a : Actor) : Actor :=
  let a := Actor.set_moves (Actor.maxMoves a) a in
  let a := Actor.set_actions 1 a in
  if Actor.magic a <? Actor.maxMagic a
  then Actor.set_magic (Actor.magic a + 1) a
  else a.

(** Lines 265-266. *)
Definition refreshMonster (a : Actor) : Actor :=
  Actor.set_actions 1 (Actor.set_moves (Actor.maxMoves a) a).

(** Lines 263-268: every actor of every dungeon that is not good. *)
Definition refreshMonsters (g : GameState) : GameState :=
  foldl (fun g d =>
           foldl (fun g r =>
                    if Actor.good (actorOf g r) then g
                    else updActor r refreshMonster g)
                 g (Dungeon.actors d))
        g (GameState.dungeons g).

(** Lines 235-241: the index of the next holder. *)
Definition nextIndex (g : GameState) : Z :=
  let index :=
    match GameState.whoseTurn g with
    | Some w => indexOf w (GameState.playerOrder g)
    | None => -1
    end in
  if index >=? Z.of_nat (length (GameState.playerOrder g)) - 1 then 0
  else index + 1.

(** [game.playerInfo[game.whoseTurn]]: an undefined holder reads the
    property named "undefined". *)
Definition holderKey (g : GameState) : string :=
  default "undefined" (GameState.whoseTurn g).

(** The calls of [nextTurn] nest at most [depth] deep; the stack is
    exhausted beyond. *)
Fixpoint nextTurnWithin (depth : nat) (g : GameState) : outcome GameState :=
  match depth with
  | O => Throws RangeError
  | S depth' =>
      let index := nextIndex g in
      let g := GameState.set_whoseTurn
                 (GameState.playerOrder g !! Z.to_nat index) g in
      if bool_decide (GameState.whoseTurn g ≠ Some "evil") then
        match objGet (GameState.playerInfo g) (holderKey g) with
        | None => Throws TypeError
        | Some info =>
            match getActorById g (PlayerInfo.dungeonId info)
                                 (PlayerInfo.actorId info) with
            | Some newActor =>
                (* dead players don't get to play *)
                if Actor.health (actorOf g newActor) <=? 0 then
                  nextTurnWithin depth' g
                else
                  let g := updActor newActor refreshHero g in
                  let g := GameState.set_possibleMoves (calcMoves g newActor) g in
                  Ok (addGameEvent g 0 ev_turnChange 0 0 0 0 None)
            | None => Ok (addGameEvent g 0 ev_turnChange 0 0 0 0 None)
            end
        end
      else
        let g := GameState.set_evilTurnMax 100 g in
        let g := refreshMonsters g in
        Ok (addGameEvent g 0 ev_turnChange 0 0 0 0 None)
  end.

(** A call that returns has visited every holder at most once, so it nests
    no deeper than the length of the turn order plus one (see
    [nextTurnWithin_deeper]). *)
Definition nextTurn (g : GameState) : outcome GameState :=
  nextTurnWithin (S (length (GameState.playerOrder g))) g.

(** *** [applyCurrentActivity], lines 398-580 *)

(** Lines 413-427: a step of the path. *)
Definition walk (now : Z) (nextStep : GameMove) (a : Actor) : Actor :=
  let a := Actor.set_lx (Actor.x a) a in
  let a := Actor.set_ly (Actor.y a) a in
  let a := Actor.set_lt now a in
  let a := Actor.set_x (GameMove.x nextStep) a in
  let a := Actor.set_y (GameMove.y nextStep) a in
  let a := Actor.set_moves (Actor.moves a - 1) a in
  let a := if Actor.x a >? Actor.lx a then Actor.set_facingRight true a else a in
  if Actor.x a <? Actor.lx a then Actor.set_facingRight false a else a.

Definition applyMove (now : Z) (g : GameState) (actor : aref)
    (nextStep : GameMove) : GameState :=
  let id := Actor.id (actorOf g actor) in
  let g := updActor actor (walk now nextStep) g in
  addGameEvent g id ev_step 0 0 0 0 None.

(** Lines 431-435: a door opens and the rooms it joins are discovered. *)
Definition applyOpen (g : GameState) (dungeon : nat) (actor : aref)
    (nextStep : GameMove) : GameState :=
  let g := updDungeon dungeon (fun d =>
             Dungeon.set_doors
               (map (fun door =>
                       if (Door.x door =? GameMove.x nextStep)
                          && (Door.y door =? GameMove.y nextStep)
                       then Door.set_open true door else door)
                    (Dungeon.doors d)) d) g in
  let rooms := getAllRoomsAt g dungeon (GameMove.x nextStep) (GameMove.y nextStep) in
  let g := foldl (fun g r =>
                    updDungeon dungeon (fun d =>
                      Dungeon.set_rooms
                        (alter (Room.set_discovered true) r (Dungeon.rooms d)) d) g)
                 g rooms in
  addGameEvent g (Actor.id (actorOf g actor)) ev_open 0 0 0 0 None.

(** Lines 438-447: a chest is opened. *)
Definition applyChest (g : GameState) (dungeon : nat) (actor : aref)
    (nextStep : GameMove) : GameState :=
  match getChestAt g dungeon (GameMove.x nextStep) (GameMove.y nextStep) with
  | Some c =>
      match Dungeon.chests (dungeonOf g dungeon) !! c with
      | Some chest =>
          let g := updDungeon dungeon (fun d =>
                     Dungeon.set_chests
                       (alter (Chest.set_open true) c (Dungeon.chests d)) d) g in
          let '(item, nextId) := createItem g (Chest.item chest) in
          let g := GameState.set_nextId nextId g in
          let g := GameState.set_items (addItemToInventory g item) g in
          let id := Actor.id (actorOf g actor) in
          let g := addGameEvent g id ev_chestOpen 0 0 0 0 None in
          addGameEvent g id ev_itemLoot 0
            (GameMove.x nextStep) (GameMove.y nextStep) 0 (Some (Item.type item))
      | None => g
      end
  | None => g
  end.

(** The damage of lines 453-462, 477-487 and 522-531: the roll, the two
    events, the loss of health and the death.  [ex] and [ey] are the
    coordinates of the first event. *)
Definition strike (g : GameState) (dungeon : nat) (actor target : aref)
    (nextStep : GameMove) (multiplier : option Z) (event : GameEventType)
    (ex ey damageDelay killDelay : Z) : GameState :=
  let '(damage, drawn) :=
    rollCombat random (actorOf g actor) (Some (actorOf g target)) multiplier
               (GameState.drawn g) in
  let g := GameState.set_drawn drawn g in
  let id := Actor.id (actorOf g actor) in
  let g := addGameEvent g id event 0 ex ey 0 None in
  let g := addGameEvent g id ev_damage damageDelay
             (GameMove.x nextStep) (GameMove.y nextStep) damage None in
  let g := updActor target (fun t => Actor.set_health (Actor.health t - damage) t) g in
  if Actor.health (actorOf g target) <=? 0
  then kill g dungeon target killDelay
  else g.

(** Lines 464-469, 489-494, 510-515 and 532-537: engaging uses up the
    moves that are left, and the legal moves are recalculated. *)
Definition engaged (g : GameState) (actor : aref) : GameState :=
  let g := updActor actor (fun a =>
             if Actor.moves a <? Actor.maxMoves a then Actor.set_moves 0 a else a) g in
  GameState.set_possibleMoves (calcMoves g actor) g.

(** Lines 449-470. *)
Definition applyShoot (g : GameState) (dungeon : nat) (actor : aref)
    (nextStep : GameMove) : GameState :=
  let g := updActor actor (fun a => Actor.set_actions (Actor.actions a - 1) a) g in
  let g :=
    match getActorAt g dungeon (GameMove.x nextStep) (GameMove.y nextStep) with
    | Some target =>
        strike g dungeon actor target nextStep None ev_shoot
               (GameMove.x nextStep) (GameMove.y nextStep) 300 300
    | None => g
    end in
  engaged g actor.

(** Lines 472-495. *)
Definition applyMagic (g : GameState) (dungeon : nat) (actor : aref)
    (nextStep : GameMove) : GameState :=
  let g := updActor actor (fun a => Actor.set_actions (Actor.actions a - 1) a) g in
  let g := updActor actor (fun a => Actor.set_magic (Actor.magic a - 3) a) g in
  let g :=
    match getActorAt g dungeon (GameMove.x nextStep) (GameMove.y nextStep) with
    | Some target =>
        (* magic is powerful, add a multiplier *)
        strike g dungeon actor target nextStep (Some 2) ev_magic
               (GameMove.x nextStep) (GameMove.y nextStep) 300 300
    | None => g
    end in
  engaged g actor.

(** Lines 503-506: two points of health, up to the maximum. *)
Definition healed (t : Actor) : Actor :=
  let t := Actor.set_health (Actor.health t + 2) t in
  if Actor.health t >? Actor.maxHealth t
  then Actor.set_health (Actor.maxHealth t) t else t.

(** Lines 497-516. *)
Definition applyHeal (g : GameState) (dungeon : nat) (actor : aref)
    (nextStep : GameMove) : GameState :=
  let g := updActor actor (fun a => Actor.set_actions (Actor.actions a - 1) a) g in
  let g := updActor actor (fun a => Actor.set_magic (Actor.magic a - 2) a) g in
  let g :=
    match getActorAt g dungeon (GameMove.x nextStep) (GameMove.y nextStep) with
    | Some target =>
        let g := updActor target healed g in
        addGameEvent g (Actor.id (actorOf g actor)) ev_heal 0
          (GameMove.x nextStep) (GameMove.y nextStep) 2 None
    | None => g
    end in
  engaged g actor.

(** Lines 518-538. *)
Definition applyAttack (g : GameState) (dungeon : nat) (actor : aref)
    (nextStep : GameMove) : GameState :=
  let g := updActor actor (fun a => Actor.set_actions (Actor.actions a - 1) a) g in
  let g :=
    match getActorAt g dungeon (GameMove.x nextStep) (GameMove.y nextStep) with
    | Some target =>
        strike g dungeon actor target nextStep None ev_melee 0 0 100 0
    | None => g
    end in
  engaged g actor.

(** [game.dungeons.push(generateDungeon(game, level))] *)
Definition pushDungeon (gen : Generated) (g : GameState) : GameState :=
  let g := GameState.set_store (GameState.store g ++ gen_actors gen) g in
  let g := GameState.set_nextId (gen_nextId gen) g in
  let g := GameState.set_drawn (gen_drawn gen) g in
  GameState.set_dungeons (GameState.dungeons g ++ [gen_dungeon gen]) g.

(** Lines 547-549: the actor stands on the centre of the room. *)
Definition onCentre (room : Room) (a : Actor) : bool :=
  (Room.x room + Room.width room / 2 =? Actor.x a)
  && (Room.y room + Room.height room / 2 =? Actor.y a).

(** Lines 550-561: the next level is generated unless a dungeon has it
    already, and the game of the actor's participant is saved. *)
Definition openNext (now : Z) (g : GameState) (dungeon : nat) (actor : aref)
    : GameState :=
  let dungeonIndex := Dungeon.level (dungeonOf g dungeon) + 1 in
  (* if we're the first one to reach this level, then generate a new dungeon *)
  let g :=
    match findDungeonByLevel g (dungeonIndex + 1) with
    | Some _ => g
    | None => pushDungeon (generateDungeon g (dungeonIndex + 1)) g
    end in
  match Actor.playerId (actorOf g actor) with
  | Some playerId =>
      if bool_decide (playerId = "") then g
      else saveGame now playerId dungeonIndex g
  | None => g
  end.

(** Lines 550-567: the way down. *)
Definition descend (now : Z) (g : GameState) (dungeon : nat) (actor : aref)
    : outcome (GameState * aref) :=
  let dungeonIndex := Dungeon.level (dungeonOf g dungeon) + 1 in
  let g := openNext now g dungeon actor in
  (* move the actor to the next dungeons and update its record *)
  match findDungeonByLevel g (dungeonIndex + 1) with
  | Some nextDungeon => startDungeon g actor nextDungeon dungeon
  | None => Ok (g, actor)
  end.

(** Lines 542-573: the last step of the activity. *)
Definition complete (now : Z) (g : GameState) (dungeon : nat) (actor : aref)
    : outcome GameState :=
  let a := actorOf g actor in
  let room :=
    getRoomAt g dungeon (Actor.x a) (Actor.y a)
      ≫= (fun r => Dungeon.rooms (dungeonOf g dungeon) !! r) in
  '(g, actor) ←
    match room with
    | Some room =>
        if Actor.good a && Room.stairsDown room && onCentre room a
        then descend now g dungeon actor
        else Ok (g, actor)
    | None => Ok (g, actor)
    end;
  let g := GameState.set_currentActivity None g in
  Ok (GameState.set_possibleMoves (calcMoves g actor) g).

(** Lines 413-538: the effect of the step, by its type. *)
Definition applyStep (now : Z) (g : GameState) (dungeon : nat) (actor : aref)
    (nextStep : GameMove) : GameState :=
  match GameMove.type nextStep with
  | mv_move => applyMove now g actor nextStep
  | mv_open => applyOpen g dungeon actor nextStep
  | mv_chest => applyChest g dungeon actor nextStep
  | mv_shoot => applyShoot g dungeon actor nextStep
  | mv_magic => applyMagic g dungeon actor nextStep
  | mv_heal => applyHeal g dungeon actor nextStep
  | mv_attack => applyAttack g dungeon actor nextStep
  end.

(** [dungeon.actors.find(a => a.id === game.currentActivity?.actorId)] *)
Definition findActor (g : GameState) (dungeon : nat) (actorId : Z) : option aref :=
  List.find (fun r => Actor.id (actorOf g r) =? actorId)
            (Dungeon.actors (dungeonOf g dungeon)).

Definition applyCurrentActivity (now : Z) (g : GameState)
    : outcome (bool * GameState) :=
  match GameState.currentActivity g with
  | Some activity =>
      let g := GameState.set_lastUpdate now g in
      match getDungeonById g (Activity.dungeonId activity) with
      | Some dungeon =>
          match findActor g dungeon (Activity.actorId activity) with
          | Some actor =>
              match findNextStep g actor (Activity.tx activity)
                                 (Activity.ty activity) with
              | Some nextStep =>
                  let g := applyStep now g dungeon actor nextStep in
                  if (GameMove.x nextStep =? Activity.tx activity)
                     && (GameMove.y nextStep =? Activity.ty activity)
                  then g ← complete now g dungeon actor; Ok (true, g)
                  else Ok (true, g)
              | None => Ok (true, g)
              end
          | None => Ok (true, g)
          end
      | None => Ok (false, g)
      end
  | None => Ok (false, g)
  end.

(** *** [takeEvilTurn], lines 583-650 *)

(** Lines 585-586: the heroes of all the dungeons. *)
Definition heroes (g : GameState) : list aref :=
  d ← GameState.dungeons g;
  filter (fun r => Actor.good (actorOf g r) = true) (Dungeon.actors d).

(** Lines 598-603: the monsters that can still do something. *)
Definition eligible (g : GameState) (a : aref) : bool :=
  let nextToHero := standingNextToHero g a in
  ((Actor.moves (actorOf g a) >? 0) && negb nextToHero)
  || ((Actor.actions (actorOf g a) >? 0) && nextToHero).

Definition startActivity (now : Z) (monster : aref) (m : GameMove)
    (g : GameState) : GameState :=
  GameState.set_currentActivity
    (Some (Activity.mk (Actor.dungeonId (actorOf g monster))
                       (Actor.id (actorOf g monster)) now
                       (GameMove.x m) (GameMove.y m))) g.

Definition exhaust (a : Actor) : Actor :=
  Actor.set_actions 0 (Actor.set_moves 0 a).

(** Lines 607-646: the move of the chosen monster. *)
Definition planMonster (now : Z) (g : GameState) (monster : aref) : GameState :=
  let g := GameState.set_possibleMoves (calcMoves g monster) g in
  let dungeonId := Actor.dungeonId (actorOf g monster) in
  if 0 <? Z.of_nat (length (GameState.possibleMoves g)) then
    match getAdjacentHero g dungeonId monster with
    | Some hero =>
        (* close enough for attack *)
        let attackMove :=
          List.find (fun m => (GameMove.x m =? Actor.x (actorOf g hero))
                              && (GameMove.y m =? Actor.y (actorOf g hero)))
                    (GameState.possibleMoves g) in
        let g :=
          match attackMove with
          | Some m => startActivity now monster m g
          | None => g
          end in
        updActor monster (fun a => Actor.set_actions (Actor.actions a - 1) a) g
    | None =>
        let sorted :=
          sortByKey (fun m => distanceToHero g dungeonId (GameMove.x m) (GameMove.y m))
                    (GameState.possibleMoves g) in
        let g := GameState.set_possibleMoves sorted g in
        match sorted with
        | bestMove :: _ =>
            (* no point moving if we don't get closer to the heroes *)
            if distanceToHero g dungeonId (GameMove.x bestMove) (GameMove.y bestMove)
               <? distanceToHero g dungeonId (Actor.x (actorOf g monster))
                                 (Actor.y (actorOf g monster))
            then startActivity now monster bestMove g
            else updActor monster exhaust g
        | [] => g
        end
    end
  else
    (* no moves possible, clear state *)
    updActor monster exhaust g.

(** Lines 598-605: the eligible monsters, the nearest to a hero first. *)
Definition allPossible (g : GameState) : list aref :=
  sortByKey (fun a => distanceToHero g (Actor.dungeonId (actorOf g a))
                        (Actor.x (actorOf g a)) (Actor.y (actorOf g a)))
            (filter (fun a => eligible g a = true) (findActiveMonsters g)).

Definition takeEvilTurn (now : Z) (g : GameState) : outcome GameState :=
  (* if theres no heroes left then don't do anything *)
  if bool_decide (heroes g = []) then Ok g else
  (* guard condition to prevent locking in any case *)
  let g := GameState.set_evilTurnMax (GameState.evilTurnMax g - 1) g in
  if GameState.evilTurnMax g <=? 0 then nextTurn g else
  match allPossible g with
  | monster :: _ => Ok (planMonster now g monster)
  | [] => nextTurn g
  end.

(** *** [joinGame], lines 124-201 *)

(** Lines 139-153: the rooms to look for a free cell in, each named by the
    index of its dungeon and its index in that dungeon. *)
Definition startRoomsOf (g : GameState) (main : nat * nat) : list (nat * nat) :=
  match heroes g with
  | [] => [main]
  | hs =>
      foldl (fun startRooms hero =>
               match getDungeonById g (Actor.dungeonId (actorOf g hero)) with
               | Some d =>
                   match getRoomAt g d (Actor.x (actorOf g hero))
                                   (Actor.y (actorOf g hero)) with
                   | Some r => if includes (d, r) startRooms then startRooms
                               else startRooms ++ [(d, r)]
                   | None => startRooms
                   end
               | None => startRooms
               end)
            [] hs
  end.

Definition joinGame (g : GameState) (playerId : string) (type : PlayerClass)
    (name : string) : outcome GameState :=
  match last (GameState.dungeons g) with
  | None => Throws TypeError
  | Some lastDungeon =>
      let dungeon := (length (GameState.dungeons g) - 1)%nat in
      let g :=
        match list_find (fun r => Room.start r = true) (Dungeon.rooms lastDungeon) with
        | Some (mainStartRoom, _) =>
            let startRooms := startRoomsOf g (dungeon, mainStartRoom) in
            let possibleStarts :=
              dr ← startRooms;
              match Dungeon.rooms (dungeonOf g (fst dr)) !! snd dr with
              | Some room => possibleStartsIn g dungeon room
              | None => []
              end in
            if 0 <? Z.of_nat (length possibleStarts) then
              match pickStart g possibleStarts with
              | Some start =>
                  let g := GameState.set_drawn (S (GameState.drawn g)) g in
                  let '(a, nextId) :=
                    createActor g playerId type (Dungeon.id lastDungeon)
                                (fst start) (snd start) in
                  let g := GameState.set_nextId nextId g in
                  let '(actor, g) := allocActor a g in
                  let g := GameState.set_playerInfo
                             (objSet (GameState.playerInfo g) playerId
                                (PlayerInfo.mk (Dungeon.id lastDungeon) type
                                               (Actor.id a) name)) g in
                  Ok (updDungeon dungeon (fun d =>
                        Dungeon.set_actors (Dungeon.actors d ++ [actor]) d) g)
              | None => Throws TypeError
              end
            else Ok g
        | None => Ok g
        end in
      g ← g;
      (* add the player to the player order so they can take a turn *)
      let g :=
        if includes playerId (GameState.playerOrder g) then g
        else GameState.set_playerOrder
               (splice (GameState.playerOrder g)
                       (Z.of_nat (length (GameState.playerOrder g)) - 1) 0
                       [playerId]) g in
      match objGet (GameState.playerInfo g) (holderKey g) with
      | Some whoseMove =>
          if PlayerInfo.actorId whoseMove =? 0 then Ok g else
          match getActorById g (Dungeon.id lastDungeon)
                               (PlayerInfo.actorId whoseMove) with
          | Some actor => Ok (GameState.set_possibleMoves (calcMoves g actor) g)
          | None => Ok g
          end
      | None => Ok g
      end
  end.

(** *** [enterDungeonAt], lines 113-122 *)

(** Lines 116-121: the participants of the turn order that have their
    information join again.  A participant the loop comes to is in the turn
    order, which [joinGame] then leaves as it is, so the loop goes through
    the turn order it started with. *)
Fixpoint rejoin (pids : list string) (g : GameState) : outcome GameState :=
  match pids with
  | [] => Ok g
  | pid :: pids =>
      g ← match objGet (GameState.playerInfo g) pid with
          | Some info =>
              joinGame g pid (PlayerInfo.type info) (PlayerInfo.name info)
          | None => Ok g
          end;
      rejoin pids g
  end.

Definition enterDungeonAt (g : GameState) (level : Z) : outcome GameState :=
  let g := pushDungeon (generateDungeon g level) g in
  rejoin (GameState.playerOrder g) g.

(** *** The actions and the update of [Rune.initLogic], lines 654-848 *)

(** [setup], lines 657-679.  The state it returns has no [persisted]
    component yet: the platform attaches it ([persistPlayerData]). *)
Definition setup (allPlayerIds : list string) : GameState :=
  let initialState :=
    GameState.mk None 0 [] 1 ["evil"] [] [] (allPlayerIds !! 0%nat) [] []
                 None 0 [] 0 None None 0 0 [] 0%nat false in
  pushDungeon (generateDungeon initialState 1) initialState.

(** [selectSave], lines 682-702.  The saves are distinct objects, so
    [saves.indexOf(save)] is [saveIndex]. *)
Definition selectSave (saveIndex : Z) (playerId : string) (g : GameState)
    : outcome GameState :=
  match GameState.persisted g with
  | None => Throws TypeError
  | Some persisted =>
      match objGet persisted playerId ≫= Persisted.saves with
      | Some saves =>
          match (if saveIndex <? 0 then None
                 else saves !! Z.to_nat saveIndex) with
          | Some save =>
              let g := GameState.set_whoseSave (Some playerId) g in
              let g := GameState.set_saveDesc (Some (SaveGame.desc save)) g in
              let g := GameState.set_saveLevel (SaveGame.level save + 1) g in
              (* move the save to the start since we're going to use
                 it throughout *)
              let saves := splice saves saveIndex 1 [] in
              let saves := splice saves 0 0 [save] in
              let g := GameState.set_persisted
                         (Some (objSet persisted playerId
                                  (Persisted.mk (Some saves)))) g in
              let g := GameState.set_gold (SaveGame.gold save) g in
              let g := GameState.set_deadHeroes [] g in
              let g := GameState.set_possibleMoves [] g in
              let g := GameState.set_events [] g in
              let g := GameState.set_items (SaveGame.items save) g in
              let g := GameState.set_dungeons [] g in
              enterDungeonAt g (SaveGame.level save + 1)
          | None => Ok g
          end
      | None => Ok g
      end
  end.

(** [setTime], lines 704-706. *)
Definition setTime (time : Z) (g : GameState) : GameState :=
  GameState.set_time time g.

(** [setPlayerType], lines 712-742. *)
Definition setPlayerType (now : Z) (name : string) (type : PlayerClass)
    (playerId : string) (g : GameState) : outcome GameState :=
  if includes playerId (GameState.playerOrder g) then Ok g else
  let fresh :=
    match GameState.whoseSave g with
    | Some w => bool_decide (w = "")
    | None => true
    end in
  g ← (if fresh then
         match GameState.persisted g with
         | None => Throws TypeError
         | Some persisted =>
             match objGet persisted playerId with
             | None => Throws TypeError
             | Some p =>
                 let save := SaveGame.mk (GameState.time g + now) [] 0
                                         (playerNames g) 0 in
                 let saves := splice (default [] (Persisted.saves p)) 0 0 [save] in
                 let saves :=
                   if 3 <? Z.of_nat (length saves)
                   then splice saves 3 (Z.of_nat (length saves) - 3) []
                   else saves in
                 Ok (GameState.set_persisted
                       (Some (objSet persisted playerId (Persisted.mk (Some saves)))) g)
             end
         end
       else Ok g);
  joinGame g playerId type name.

(** [makeMove], lines 745-759. *)
Definition makeMove (now : Z) (x y : Z) (playerId : string) (g : GameState)
    : outcome GameState :=
  if bool_decide (GameState.whoseTurn g = Some playerId) then
    match List.find (fun m => (GameMove.x m =? x) && (GameMove.y m =? y))
                    (GameState.possibleMoves g) with
    | Some move =>
        match objGet (GameState.playerInfo g) playerId with
        | Some info =>
            Ok (GameState.set_currentActivity
                  (Some (Activity.mk (PlayerInfo.dungeonId info)
                                     (PlayerInfo.actorId info) now x y)) g)
        | None => Throws TypeError
        end
    | None => Ok g
    end
  else Ok g.

(** [endTurn], lines 762-764. *)
Definition endTurn (g : GameState) : outcome GameState := nextTurn g.

(** [clearType], lines 765-768. *)
Definition clearType (playerId : string) (g : GameState) : GameState :=
  let g := GameState.set_playerOrder
             (splice (GameState.playerOrder g)
                     (indexOf playerId (GameState.playerOrder g)) 1 []) g in
  GameState.set_playerInfo (objDelete (GameState.playerInfo g) playerId) g.

(** The action [useItem], lines 769-775.  [useItem] of [./items] is given
    the game, the sender and the item, named by its index in
    [game.items]. *)
Section UseItem.
Variable Items_useItem : GameState -> string -> nat -> GameState.

Definition useItem (id : Z) (playerId : string) (g : GameState) : GameState :=
  match list_find (fun item => Item.id item = id) (GameState.items g) with
  | Some (item, _) => Items_useItem g playerId item
  | None => g
  end.
End UseItem.

(** [playerJoined], lines 823-825: a line of the debug log. *)
Definition playerJoined (playerId : string) (g : GameState) : GameState := g.

(** [playerLeft], lines 828-845. *)
Definition playerLeft (playerId : string) (g : GameState) : outcome GameState :=
  match objGet (GameState.playerInfo g) playerId with
  | Some playerInfo =>
      g ← (if bool_decide (GameState.whoseTurn g = Some playerId)
           then nextTurn g else Ok g);
      let g :=
        match getDungeonById g (PlayerInfo.dungeonId playerInfo) with
        | Some dungeon =>
            (* also need to clear up their state and actor from the game *)
            let g := GameState.set_playerOrder
                       (splice (GameState.playerOrder g)
                               (indexOf playerId (GameState.playerOrder g)) 1 []) g in
            updDungeon dungeon (fun d =>
              Dungeon.set_actors
                (filter (fun a => Actor.id (actorOf g a) ≠ PlayerInfo.actorId playerInfo)
                        (Dungeon.actors d)) d) g
        | None => g
        end in
      Ok (GameState.set_playerInfo (objDelete (GameState.playerInfo g) playerId) g)
  | None => Ok g
  end.

(** [STEP_TIME], line 9. *)
Definition STEP_TIME : Q := (1000 # 3)%Q.

(** Lines 785-791: dungeons without a hero are dropped once more than two
    are live. *)
Definition pruneDungeons (g : GameState) : GameState :=
  if 2 <? Z.of_nat (length (GameState.dungeons g)) then
    GameState.set_dungeons
      (filter (fun d => existsb (fun a => Actor.good (actorOf g a)) (Dungeon.actors d) = true)
              (GameState.dungeons g)) g
  else g.

(** [update], lines 777-811. *)
Definition update (now : Z) (g : GameState) : outcome GameState :=
  let g := GameState.set_events [] g in
  let g := pruneDungeons g in
  if Qltb STEP_TIME (ofZ (now - GameState.lastUpdate g)) then
    match applyCurrentActivity now g with
    | Ok (true, g) => Ok g
    | Ok (false, g) =>
        if bool_decide (GameState.whoseTurn g = Some "evil") then
          (* run evil game updates *)
          takeEvilTurn now g
        else if bool_decide (length (GameState.possibleMoves g) = 0%nat) then
          if 0 <? Z.of_nat (length (GameState.playerOrder g)) then nextTurn g
          else Ok g
        else Ok g
    | Throws e => Throws e
    end
  else Ok g.

End Engine.

(** ** Vocabulary of the specification *)

(** The draws of [Math.random()] lie in [[0,1)]. *)
Definition fairStream (random : nat -> Q) : Prop :=
  forall i, (0 <= random i)%Q /\ (random i < 1)%Q.

(** The events of a kill. *)
Definition diedEvent (t : Actor) (extraDelay : Z) : GameEvent :=
  GameEvent.mk ev_died (Actor.x t) (Actor.y t) (Actor.sprite t) (-1)
               (400 + extraDelay) None.

Definition itemLootEvent (t : Actor) (extraDelay : Z) (item : Item) : GameEvent :=
  GameEvent.mk ev_itemLoot (Actor.x t) (Actor.y t) 0 (-1) (400 + extraDelay)
               (Some (Item.type item)).

Definition goldLootEvent (t : Actor) (extraDelay amount : Z) : GameEvent :=
  GameEvent.mk ev_goldLoot (Actor.x t) (Actor.y t) amount (-1)
               (400 + extraDelay) None.

(** The resource pools of an actor are within their bounds. *)
Definition inBounds (a : Actor) : Prop :=
  0 <= Actor.health a <= Actor.maxHealth a
  /\ 0 <= Actor.magic a <= Actor.maxMagic a
  /\ 0 <= Actor.moves a <= Actor.maxMoves a.

(** Every actor object, in a dungeon or not, is within its bounds. *)
Definition allInBounds (g : GameState) : Prop :=
  Forall inBounds (GameState.store g).

(** The actor can pay for the step: a move for a step of the path, three
    points of magic for a magic attack, two for a heal. *)
Definition affordable (a : Actor) (step : GameMove) : Prop :=
  match GameMove.type step with
  | mv_move => 1 <= Actor.moves a
  | mv_magic => 3 <= Actor.magic a
  | mv_heal => 2 <= Actor.magic a
  | _ => True
  end.

Section Vocabulary.
Context `{Collaborators}.

(** What the kill of the monster [t] awards: [g1] is the state after the
    [died] event, on which the loot is rolled, [g'] the state after the
    kill.  An item, with its [itemLoot] event; or else, for a monster with
    a gold range, the amount [floor(r * (max - min)) + min] for the next
    draw [r], with its [goldLoot] event; or else nothing. *)
Definition awards (g1 g' : GameState) (t : Actor) (target : aref)
    (extraDelay : Z) : Prop :=
  let loot := createMonsterItemLoot g1 target in
  match loot_item loot with
  | Some item =>
      GameState.events g' = GameState.events g1 ++ [itemLootEvent t extraDelay item]
      /\ GameState.gold g' = GameState.gold g1
      /\ GameState.items g'
         = addItemToInventory
             (GameState.set_drawn (loot_drawn loot)
                (GameState.set_nextId (loot_nextId loot) g1)) item
  | None =>
      match Actor.goldOnKill t with
      | Some range =>
          let amount :=
            Qfloor (random (loot_drawn loot) * ofZ (gmax range - gmin range))
            + gmin range in
          GameState.events g' = GameState.events g1 ++ [goldLootEvent t extraDelay amount]
          /\ GameState.gold g' = GameState.gold g1 + amount
          /\ GameState.items g' = GameState.items g1
          /\ (fairStream random -> gmin range < gmax range ->
              gmin range <= amount < gmax range)
      | None =>
          GameState.events g' = GameState.events g1
          /\ GameState.gold g' = GameState.gold g1
          /\ GameState.items g' = GameState.items g1
      end
  end.

(** The [turnChange] event of line 270. *)
Definition turnChanged (g : GameState) : GameState :=
  addGameEvent g 0 ev_turnChange 0 0 0 0 None.

(** The three ways [nextTurn] hands over to the holder it has chosen: a
    hero whose actor [r] is alive, a holder whose actor is not found, the
    evil faction. *)
Inductive handsOver (g : GameState) : GameState -> Prop :=
| hands_hero (r : aref) :
    GameState.whoseTurn g <> Some "evil" ->
    handsOver g
      (turnChanged
         (GameState.set_possibleMoves
            (calcMoves (updActor r refreshHero g) r)
            (updActor r refreshHero g)))
| hands_absent :
    GameState.whoseTurn g <> Some "evil" ->
    handsOver g (turnChanged g)
| hands_evil :
    GameState.whoseTurn g = Some "evil" ->
    handsOver g (turnChanged (refreshMonsters (GameState.set_evilTurnMax 100 g))).

(** The first statements of [nextTurn], lines 235-242: the next holder. *)
Definition advance (g : GameState) : GameState :=
  GameState.set_whoseTurn
    (GameState.playerOrder g !! Z.to_nat (nextIndex g)) g.

(** The holder is a participant whose actor is dead: [nextTurn] calls
    itself (lines 244-251). *)
Definition skips (g : GameState) : bool :=
  bool_decide (GameState.whoseTurn g <> Some "evil")
  && match objGet (GameState.playerInfo g) (holderKey g) with
     | Some info =>
         match getActorById g (PlayerInfo.dungeonId info)
                              (PlayerInfo.actorId info) with
         | Some newActor => Actor.health (actorOf g newActor) <=? 0
         | None => false
         end
     | None => false
     end.

(** The holders that [nextTurn] goes through. *)
Fixpoint advances (k : nat) (g : GameState) : GameState :=
  match k with
  | O => g
  | S k => advances k (advance g)
  end.

(** The step that the executor takes in the state [g], if it takes one, is
    affordable for the acting actor. *)
Definition stepAffordable (now : Z) (g : GameState) : Prop :=
  forall activity dungeon actor step,
    GameState.currentActivity g = Some activity ->
    getDungeonById g (Activity.dungeonId activity) = Some dungeon ->
    findActor g dungeon (Activity.actorId activity) = Some actor ->
    findNextStep (GameState.set_lastUpdate now g) actor
                 (Activity.tx activity) (Activity.ty activity) = Some step ->
    affordable (actorOf g actor) step.

(** The actors that the collaborators create are within their bounds. *)
Definition createsInBounds : Prop :=
  (forall g level, Forall inBounds (gen_actors (generateDungeon g level)))
  /\ (forall a, inBounds a -> inBounds (copyActor a)).
End Vocabulary.

(** The components of the state that the placing of actors leaves as they
    are. *)
Definition ledger (g : GameState) :=
  (GameState.persisted g, GameState.gold g, GameState.items g,
   GameState.deadHeroes g, GameState.whoseTurn g,
   GameState.currentActivity g, GameState.lastUpdate g, GameState.events g,
   GameState.evilTurnMax g, GameState.whoseSave g, GameState.saveDesc g,
   GameState.time g, GameState.saveLevel g, GameState.over g).

(** A dungeon without its actors: what the generator has laid out. *)
Definition layout (d : Dungeon) : Dungeon := Dungeon.set_actors [] d.

(** The [turnChange] event. *)
Definition turnChangeEvent : GameEvent :=
  GameEvent.mk ev_turnChange 0 0 0 0 0 None.

(** The monsters that [nextTurn] refreshes: the actors of the dungeons that
    are not good. *)
Definition isMonster (g : GameState) (r : aref) : Prop :=
  Actor.good (actorOf g r) = false
  /\ r ∈ (GameState.dungeons g ≫= Dungeon.actors).

(** The turn order that [nextTurn] relies on: distinct entries, "evil"
    among them, and every other entry a participant with its
    information. *)
Definition orderly (g : GameState) : Prop :=
  NoDup (GameState.playerOrder g)
  /\ "evil" ∈ GameState.playerOrder g
  /\ forall w, w ∈ GameState.playerOrder g -> w <> "evil" ->
               is_Some (objGet (GameState.playerInfo g) w).

(** The components of the state that a step of an activity never writes. *)
Definition backdrop (g : GameState) :=
  (GameState.persisted g, GameState.playerOrder g, GameState.playerInfo g,
   GameState.whoseTurn g, GameState.currentActivity g,
   GameState.lastUpdate g, GameState.evilTurnMax g, GameState.whoseSave g,
   GameState.saveDesc g, GameState.time g, GameState.saveLevel g).

(** The state in which a targeted move looks for its target: the actor
    has paid its action and, for a magic attack or a heal, its magic. *)
Definition paid (type : GameMoveType) (actor : aref)
    (g : GameState) : GameState :=
  let g := updActor actor (fun a => Actor.set_actions (Actor.actions a - 1) a) g in
  match type with
  | mv_magic => updActor actor (fun a => Actor.set_magic (Actor.magic a - 3) a) g
  | mv_heal => updActor actor (fun a => Actor.set_magic (Actor.magic a - 2) a) g
  | _ => g
  end.

(** The turn order and the participants that have their information. *)
Definition roster (g : GameState) : list string * list string :=
  (GameState.playerOrder g, map fst (GameState.playerInfo g)).

(** Every participant that has its information is in the turn order. *)
Definition registered (g : GameState) : Prop :=
  forall w, is_Some (objGet (GameState.playerInfo g) w) ->
            w ∈ GameState.playerOrder g.
(** ** Concrete collaborators

    A simple implementation of the collaborators, on which the engine runs:
    the legal moves are a fixed list, the next step of a path is the legal
    move at the destination, a monster drops a fixed loot, a generated
    dungeon has the level asked for and one empty start room. *)
Module Demo.
Definition inRoom (x y : Z) (r : Room) : bool :=
  (Room.x r <=? x) && (x <? Room.x r + Room.width r)
  && (Room.y r <=? y) && (y <? Room.y r + Room.height r).

Definition at_ (g : GameState) (x y : Z) (r : aref) : bool :=
  (Actor.x (actorOf g r) =? x) && (Actor.y (actorOf g r) =? y).

Definition actorAt (g : GameState) (dungeon : nat) (x y : Z) : option aref :=
  List.find (at_ g x y) (Dungeon.actors (dungeonOf g dungeon)).

Definition actorById (g : GameState) (dungeonId actorId : Z) : option aref :=
  getDungeonById g dungeonId ≫= (fun d => findActor g d actorId).

Definition heroesOf (g : GameState) (dungeonId : Z) : list aref :=
  filter (fun r => Actor.dungeonId (actorOf g r) = dungeonId) (heroes g).

Definition nearestHero (g : GameState) (dungeonId x y : Z) : Z :=
  foldr Z.min 1000
    (map (fun r => Z.abs (Actor.x (actorOf g r) - x)
                   + Z.abs (Actor.y (actorOf g r) - y))
         (heroesOf g dungeonId)).

Definition adjacentHero (g : GameState) (dungeonId : Z) (m : aref)
    : option aref :=
  List.find (fun r => manhattan (actorOf g r) (actorOf g m) =? 1)
            (heroesOf g dungeonId).

Definition activeMonsters (g : GameState) : list aref :=
  d ← GameState.dungeons g;
  filter (fun r => Actor.good (actorOf g r) = false) (Dungeon.actors d).

Definition generate (g : GameState) (level : Z) : Generated :=
  {| gen_dungeon :=
       Dungeon.mk (GameState.nextId g) level
                  [Room.mk 10 10 5 5 true false false] [] [] [];
     gen_actors := [];
     gen_nextId := GameState.nextId g + 1;
     gen_drawn := GameState.drawn g |}.

Definition create (g : GameState) (playerId : string) (type : PlayerClass)
    (dungeonId x y : Z) : Actor * Z :=
  (Actor.mk (GameState.nextId g) (Some playerId) dungeonId x y x y 0 true
            2 0 2 0 5 5 3 3 4 4 1 true 0 None,
   GameState.nextId g + 1).

Definition collaborators (stream : nat -> Q) (moves : list GameMove)
    (loot : option Item) : Collaborators :=
  {| random := stream;
     blocked := fun _ _ _ _ _ => false;
     calcMoves := fun _ _ => moves;
     findNextStep := fun g _ tx ty =>
       List.find (fun m => (GameMove.x m =? tx) && (GameMove.y m =? ty))
                 (GameState.possibleMoves g);
     generateDungeon := generate;
     getActorAt := actorAt;
     getActorById := actorById;
     getAllRoomsAt := fun g d x y =>
       fst <$> filter (fun ir => inRoom x y (snd ir) = true)
                      (imap pair (Dungeon.rooms (dungeonOf g d)));
     getChestAt := fun g d x y =>
       fst <$> list_find (fun c => Chest.x c = x ∧ Chest.y c = y)
                         (Dungeon.chests (dungeonOf g d));
     getRoomAt := fun g d x y =>
       fst <$> list_find (fun r => inRoom x y r = true)
                         (Dungeon.rooms (dungeonOf g d));
     createMonsterItemLoot := fun g _ =>
       {| loot_item := loot;
          loot_nextId := GameState.nextId g;
          loot_drawn := GameState.drawn g |};
     distanceToHero := nearestHero;
     findActiveMonsters := activeMonsters;
     getAdjacentHero := adjacentHero;
     standingNextToHero := fun g m =>
       bool_decide (is_Some (adjacentHero g (Actor.dungeonId (actorOf g m)) m));
     findActiveHero := fun g => negb (bool_decide (heroes g = []));
     copyActor := fun a => a;
     createActor := create;
     addItemToInventory := fun g item => GameState.items g ++ [item];
     createItem := fun g kind =>
       (Item.mk (GameState.nextId g) kind, GameState.nextId g + 1) |}.

(** Draws of 1/4: every skull roll succeeds, a hero's shield roll succeeds
    and a monster's fails. *)
Definition quarter : nat -> Q := fun _ => (1 # 4)%Q.

(** A hero of the participant [p1] and an orc. *)
Definition hero (x y health magic moves : Z) : Actor :=
  Actor.mk 1 (Some "p1") 1 x y x y 0 true 4 0 2 0 health 6 magic 4 moves 4 1
           true 7 None.

Definition orc (x y health : Z) (gold : option GoldRange) : Actor :=
  Actor.mk 2 None 1 x y x y 0 false 3 0 2 0 health 3 0 0 0 3 1 false 9 gold.

(** A state with one dungeon of level 1 and id 1, whose only room has the
    stairs down in its centre, the cell (1,1). *)
Definition game (actors : list Actor) (present : list aref)
    (order : list string) (turn : string) (moves : list GameMove)
    (activity : option Activity) : GameState :=
  GameState.mk (Some [("p1", Persisted.mk None)]) 0 [] 10 order []
    [("p1", PlayerInfo.mk 1 "knight" 1 "Ann")] (Some turn)
    [Dungeon.mk 1 1 [Room.mk 0 0 3 3 true true true] [] [] present]
    moves activity 0 [] 100 None None 0 0 actors 0%nat false.

(** The collaborators with no legal move and no item loot, on draws of
    1/4. *)
Definition plain : Collaborators := collaborators quarter [] None.

(** A hero and, next to it, an orc that carries 5 to 10 gold. *)
Definition richOrc : Actor := orc 1 0 0 (Some {| gmin := 5; gmax := 10 |}).

Definition scenarioB : GameState :=
  game [hero 0 0 5 3 4; richOrc] [0%nat; 1%nat] ["p1"; "evil"] "p1" [] None.

(** The orc has been killed during its own activity. *)
Definition orphan : GameState :=
  game [hero 0 0 5 3 4; richOrc] [0%nat] ["p1"; "evil"] "evil" []
       (Some (Activity.mk 1 2 0 1 0)).

(** It is the turn of the evil faction, the only entry of the turn order,
    and nothing can move; the hero is still in the dungeon. *)
Definition evilAlone : GameState :=
  game [hero 0 0 5 3 4] [0%nat] ["evil"] "evil" [] None.

(** The orc stands next to the hero on the evil faction's turn; its only
    legal move goes elsewhere. *)
Definition elsewhere : Collaborators :=
  collaborators quarter [GameMove.mk 5 5 1 0 mv_move 1] None.

Definition ambush : GameState :=
  game [hero 0 0 5 3 4; orc 1 0 3 None] [0%nat; 1%nat] ["p1"; "evil"] "evil"
       [] None.

(** The hero, with so many points of magic, is about to cast a magic
    attack on an orc two cells away. *)
Definition zap : GameMove := GameMove.mk 2 0 0 0 mv_magic 1.

Definition duel (magic : Z) : GameState :=
  game [hero 0 0 5 magic 4; orc 2 0 3 None] [0%nat; 1%nat] ["p1"; "evil"] "p1"
       [zap] (Some (Activity.mk 1 1 0 2 0)).

(** The hero stands on the stairs down, or one step to the west of them
    with the step to the stairs as its current activity. *)
Definition onStairs : GameState :=
  game [hero 1 1 5 3 4] [0%nat] ["p1"; "evil"] "p1" [] None.

Definition toStairs : GameState :=
  game [hero 0 1 5 3 4] [0%nat] ["p1"; "evil"] "p1"
       [GameMove.mk 1 1 0 1 mv_move 1] (Some (Activity.mk 1 1 0 1 1)).

(** The collaborators [plain] with a generator that returns a dungeon one
    level above the level it is asked for. *)
Definition shallow : Collaborators :=
  {| random := quarter;
     blocked := blocked (Collaborators := plain);
     calcMoves := calcMoves (Collaborators := plain);
     findNextStep := findNextStep (Collaborators := plain);
     generateDungeon := fun g level => generate g (level - 1);
     getActorAt := actorAt;
     getActorById := actorById;
     getAllRoomsAt := getAllRoomsAt (Collaborators := plain);
     getChestAt := getChestAt (Collaborators := plain);
     getRoomAt := getRoomAt (Collaborators := plain);
     createMonsterItemLoot := createMonsterItemLoot (Collaborators := plain);
     distanceToHero := nearestHero;
     findActiveMonsters := activeMonsters;
     getAdjacentHero := adjacentHero;
     standingNextToHero := standingNextToHero (Collaborators := plain);
     findActiveHero := findActiveHero (Collaborators := plain);
     copyActor := fun a => a;
     createActor := create;
     addItemToInventory := addItemToInventory (Collaborators := plain);
     createItem := createItem (Collaborators := plain) |}.

(** The state that [setup] returns for the participant "p1", with the
    record of the saves of "p1", still empty, that the platform attaches. *)
Definition fresh : GameState :=
  GameState.set_persisted (Some [("p1", Persisted.mk None)])
    (setup (H := plain) ["p1"]).

(** The same with two saves of "p1": one of level 1 with 3 pieces of gold,
    one of level 2 with a potion and 40 pieces of gold. *)
Definition veteran : GameState :=
  GameState.set_persisted
    (Some [("p1", Persisted.mk
                    (Some [SaveGame.mk 5 [] 1 "Ann" 3;
                           SaveGame.mk 9 [Item.mk 4 "potion"] 2 "Ann,Bob" 40]))])
    (setup (H := plain) ["p1"]).

(** The participant "p2" has joined the turn order of [scenarioB] without
    getting an actor: the start room has no free cell. *)
Definition crowded : GameState :=
  game [hero 0 0 5 3 4; richOrc] [0%nat; 1%nat] ["p1"; "p2"; "evil"] "p1" []
       None.

(** The collaborators with one legal move, the step to the cell (1,0). *)
Definition closer : Collaborators :=
  collaborators quarter [GameMove.mk 1 0 2 0 mv_move 1] None.

(** The hero stands on the stairs down of the dungeon of level 1, and a
    dungeon of level 3 is there already. *)
Definition deep : GameState :=
  GameState.set_dungeons
    [Dungeon.mk 1 1 [Room.mk 0 0 3 3 true true true] [] [] [0%nat];
     Dungeon.mk 2 3 [Room.mk 10 10 5 5 true false false] [] [] []]
    onStairs.
End Demo.

(** * Proofs *)

(** ** The Combat Resolver *)

Lemma Qltb_lt (a b : Q) : Qltb a b = true <-> (a < b)%Q.
Proof.
  unfold Qltb. rewrite negb_true_iff, <- not_true_iff_false, Qle_bool_iff.
  split; [apply Qnot_le_lt | apply Qlt_not_le].
Qed.

(** A roll against [faces] of the six sides is a trial of probability
    [faces / 6]. *)
Lemma Qltb_faces (r faces p : Q) :
  (p * 6 == faces)%Q -> Qltb (r * 6) faces = bernoulli p r.
Proof.
  intros Hp. unfold bernoulli.
  apply eq_true_iff_eq. rewrite !Qltb_lt. split; intros; lra.
Qed.

(** [Math.ceil(a / 2)] on the integers. *)
Lemma ceil_half (a : Z) : Qceiling (ofZ a / 2) = (a + 1) / 2.
Proof.
  unfold Qceiling, ofZ.
  assert (E : (- (inject_Z a / 2) == (- a) # 2)%Q).
  { unfold Qeq, Qdiv, Qinv, Qmult, Qopp, inject_Z. cbn. lia. }
  rewrite (Qfloor_comp _ _ E). unfold Qfloor.
  change (Z.pos 2) with 2.
  pose proof (Z.div_mod (- a) 2 ltac:(lia)).
  pose proof (Z.mod_pos_bound (- a) 2 ltac:(lia)).
  pose proof (Z.div_mod (a + 1) 2 ltac:(lia)).
  pose proof (Z.mod_pos_bound (a + 1) 2 ltac:(lia)).
  lia.
Qed.

Section CombatFacts.
Variable random : nat -> Q.

Lemma successes_S (p : Q) (pos n : nat) :
  successes random p pos (S n)
  = (if bernoulli p (random pos) then 1 else 0) + successes random p (S pos) n.
Proof.
  unfold successes. cbn [seq]. rewrite filter_cons.
  destruct (bernoulli p (random pos)) eqn:E.
  - rewrite decide_True by done. cbn [length]. lia.
  - rewrite decide_False by done. lia.
Qed.

Lemma rollDice_successes (faces p : Q) :
  (p * 6 == faces)%Q ->
  forall (n pos : nat) (hits : Z),
    rollDice random n faces pos hits
    = (hits + successes random p pos n, (pos + n)%nat).
Proof.
  intros Hp. induction n as [|n IH]; intros pos hits.
  - cbn. f_equal; [unfold successes; cbn; lia | lia].
  - cbn [rollDice]. rewrite IH, successes_S, (Qltb_faces _ _ _ Hp).
    destruct (bernoulli p (random pos)); f_equal; lia.
Qed.

Lemma attackScore_adjacent (attacker defender : Actor) (multiplier : option Z) :
  manhattan attacker defender = 1 ->
  attackScore attacker defender multiplier
  = (Actor.attack attacker + Actor.modAttack attacker + 1) / 2.
Proof.
  intros E. unfold attackScore. rewrite E. cbn. apply ceil_half.
Qed.

(** The damage is never negative. *)
Lemma rollCombat_nonneg (attacker : Actor) (target : option Actor)
    (multiplier : option Z) (pos : nat) :
  0 <= fst (rollCombat random attacker target multiplier pos).
Proof.
  unfold rollCombat. destruct target as [target|]; [|done].
  destruct (rollDice _ _ _ _ _) as [skulls pos1].
  destruct (rollDice _ _ _ _ _) as [shields pos2].
  cbn. lia.
Qed.


(** C2.  With the target present, the resolver rolls one trial of
    probability 1/2 per point of the attack score, then one trial per point
    of the defender's defense plus modifier, of probability 1/3 for a hero
    and 1/6 otherwise, each trial consuming the next draw of the stream; it
    returns the skulls minus the shields, or 0 when that is negative. *)
Theorem rollCombat_resolve (attacker defender : Actor)
    (multiplier : option Z) (pos : nat) :
  let nA := Z.to_nat (attackScore attacker defender multiplier) in
  let nD := Z.to_nat (Actor.defense defender + Actor.modDefense defender) in
  let skulls := successes random (1 # 2) pos nA in
  let shields :=
    successes random (if Actor.good defender then 1 # 3 else 1 # 6)
              (pos + nA) nD in
  rollCombat random attacker (Some defender) multiplier pos
  = (Z.max 0 (skulls - shields), (pos + nA + nD)%nat)
  /\ resolveSpec random attacker defender multiplier pos
     = Z.max 0 (skulls - shields)
  /\ 0 <= fst (rollCombat random attacker (Some defender) multiplier pos).
Proof.
  intros nA nD skulls shields.
  assert (E : rollCombat random attacker (Some defender) multiplier pos
              = (Z.max 0 (skulls - shields), (pos + nA + nD)%nat)).
  { unfold rollCombat. fold nA nD.
    rewrite (rollDice_successes 3 (1 # 2)) by reflexivity.
    rewrite (rollDice_successes _ (if Actor.good defender then 1 # 3 else 1 # 6))
      by (destruct (Actor.good defender); reflexivity).
    subst skulls shields. f_equal. }
  split; [exact E|]. split; [reflexivity|].
  rewrite E. cbn. lia.
Qed.
End CombatFacts.



(** ** Arrays *)

Lemma indexOf_present `{EqDecision A} (a : A) (before after : list A) :
  a ∉ before -> indexOf a (before ++ a :: after) = Z.of_nat (length before).
Proof.
  intros Hn. unfold indexOf.
  destruct (list_find _ _) as [[i b]|] eqn:E.
  - apply list_find_Some in E as (Hi & -> & Hmin).
    f_equal.
    destruct (Nat.lt_trichotomy i (length before)) as [Hlt|[->|Hgt]]; [|done|].
    + rewrite lookup_app_l in Hi by done.
      exfalso. apply Hn. by eapply list_elem_of_lookup_2.
    + exfalso. eapply (Hmin (length before) a); [|done|done].
      by rewrite list_lookup_middle.
  - apply list_find_None in E. rewrite Forall_app, Forall_cons in E.
    by destruct E as (_ & ? & _).
Qed.

Lemma indexOf_absent `{EqDecision A} (a : A) (l : list A) :
  a ∉ l -> indexOf a l = -1.
Proof.
  intros Hn. unfold indexOf.
  destruct (list_find _ _) as [[i b]|] eqn:E; [|done].
  apply list_find_Some in E as (Hi & -> & _).
  exfalso. apply Hn. by eapply list_elem_of_lookup_2.
Qed.

Lemma splice_remove_at {A} (before after : list A) (a : A) :
  splice (before ++ a :: after) (Z.of_nat (length before)) 1 [] = before ++ after.
Proof.
  unfold splice. rewrite length_app. cbn [length].
  set (n := length before).
  replace (Z.of_nat n <? 0) with false by lia.
  replace (Z.min (Z.of_nat n) (Z.of_nat (n + S (length after)))) with (Z.of_nat n) by lia.
  replace (Z.min (Z.max 1 0) (Z.of_nat (n + S (length after)) - Z.of_nat n)) with 1 by lia.
  rewrite Nat2Z.id. replace (Z.to_nat (Z.of_nat n + 1)) with (S n) by lia.
  subst n. rewrite take_app_length. cbn [app].
  rewrite drop_app_ge by lia.
  by replace (S (length before) - length before)%nat with 1%nat by lia.
Qed.

Lemma elem_of_removelast {A} (a : A) (l : list A) : a ∈ removelast l -> a ∈ l.
Proof.
  destruct l as [|b l] using rev_ind; [done|].
  rewrite removelast_last. intros Hin. apply elem_of_app. by left.
Qed.

(** [l.splice(-1, 1)] removes the last element. *)
Lemma splice_minus_one {A} (l : list A) : splice l (-1) 1 [] = removelast l.
Proof.
  unfold splice. cbn [Z.ltb Z.compare].
  destruct l as [|a l] using rev_ind; [done|].
  rewrite length_app. cbn [length].
  replace (Z.max (Z.of_nat (length l + 1) + -1) 0) with (Z.of_nat (length l)) by lia.
  replace (Z.min (Z.max 1 0) _) with 1 by lia.
  rewrite Nat2Z.id. replace (Z.to_nat (Z.of_nat (length l) + 1)) with (S (length l)) by lia.
  rewrite take_app_length. rewrite drop_ge by (rewrite length_app; cbn; lia).
  rewrite removelast_last. by rewrite !app_nil_r.
Qed.

(** ** The store *)

Lemma actorOf_updActor_eq (r : aref) (f : Actor -> Actor) (g : GameState) :
  (r < length (GameState.store g))%nat ->
  actorOf (updActor r f g) r = f (actorOf g r).
Proof.
  intros Hr. unfold actorOf, updActor. cbn.
  by apply list_lookup_total_alter_eq.
Qed.

Lemma actorOf_updActor_ne (r r' : aref) (f : Actor -> Actor) (g : GameState) :
  r <> r' -> actorOf (updActor r f g) r' = actorOf g r'.
Proof.
  intros Hr. unfold actorOf, updActor. cbn.
  by apply list_lookup_total_alter_ne.
Qed.

(** The value of an actor only depends on the store. *)
Lemma actorOf_store (g g' : GameState) (r : aref) :
  GameState.store g = GameState.store g' -> actorOf g r = actorOf g' r.
Proof. unfold actorOf. by intros ->. Qed.

(** ** The Death and Loot Handler *)

Lemma inject_Z_lt (a b : Z) : (inject_Z a < inject_Z b)%Q <-> a < b.
Proof. unfold Qlt, inject_Z. cbn. lia. Qed.

(** [Math.floor(r * n)] is one of 0, ..., n - 1. *)
Lemma floor_scaled_range (r : Q) (n : Z) :
  (0 <= r)%Q -> (r < 1)%Q -> 0 < n -> 0 <= Qfloor (r * ofZ n) < n.
Proof.
  intros H0 H1 Hn. unfold ofZ.
  assert (Hq : (0 < inject_Z n)%Q) by (by apply (proj2 (inject_Z_lt 0 n))).
  pose proof (Qfloor_le (r * inject_Z n)) as Hle.
  pose proof (Qlt_floor (r * inject_Z n)) as Hlt.
  split.
  - assert (Hx : (0 <= r * inject_Z n)%Q)
      by (apply Qmult_le_0_compat; [done | by apply Qlt_le_weak]).
    assert (Hy : (inject_Z 0 < inject_Z (Qfloor (r * inject_Z n) + 1))%Q).
    { eapply Qle_lt_trans; [exact Hx | exact Hlt]. }
    apply (proj1 (inject_Z_lt _ _)) in Hy. lia.
  - apply (proj1 (inject_Z_lt _ _)). eapply Qle_lt_trans; [exact Hle|].
    apply Qlt_le_trans with (1 * inject_Z n)%Q;
      [by apply Qmult_lt_compat_r | rewrite Qmult_1_l; apply Qle_refl].
Qed.

Section Kill.
Context `{Collaborators}.

Lemma strikeOff_effects (g : GameState) (dungeon : nat) (target : aref)
    (extraDelay : Z) :
  (target < length (GameState.store g))%nat ->
  let g1 := strikeOff g dungeon target extraDelay in
  actorOf g1 target = Actor.set_health 0 (actorOf g target)
  /\ GameState.events g1
     = GameState.events g ++ [diedEvent (actorOf g target) extraDelay]
  /\ GameState.dungeons g1
     = alter (fun d => Dungeon.set_actors
                (splice (Dungeon.actors d) (indexOf target (Dungeon.actors d)) 1 []) d)
             dungeon (GameState.dungeons g).
Proof.
  intros Hr g1.
  assert (Hs : GameState.store g1
               = alter (Actor.set_health 0) target (GameState.store g))
    by reflexivity.
  assert (Ht : actorOf g1 target = Actor.set_health 0 (actorOf g target)).
  { unfold actorOf. rewrite Hs. by apply list_lookup_total_alter_eq. }
  split; [done|]. split; [|done].
  subst g1. unfold strikeOff, addGameEvent. cbn.
  do 2 f_equal. unfold diedEvent.
  change (actorOf (updDungeon dungeon _ (updActor target (Actor.set_health 0) g)) target)
    with (actorOf (updActor target (Actor.set_health 0) g) target).
  by rewrite actorOf_updActor_eq.
Qed.

(** The loot leaves the actors and the dungeons as they are. *)
Lemma kill_frame (g : GameState) (dungeon : nat) (target : aref)
    (extraDelay : Z) :
  GameState.store (kill g dungeon target extraDelay)
  = GameState.store (strikeOff g dungeon target extraDelay)
  /\ GameState.dungeons (kill g dungeon target extraDelay)
     = GameState.dungeons (strikeOff g dungeon target extraDelay).
Proof.
  unfold kill. cbv zeta.
  destruct (Actor.good _).
  - by destruct (findActiveHero _).
  - destruct (loot_item _); [done|]. by destruct (Actor.goldOnKill _).
Qed.

Lemma kill_awards (g : GameState) (dungeon : nat) (target : aref)
    (extraDelay : Z) :
  (target < length (GameState.store g))%nat ->
  Actor.good (actorOf g target) = false ->
  awards (strikeOff g dungeon target extraDelay)
         (kill g dungeon target extraDelay)
         (actorOf g target) target extraDelay.
Proof.
  intros Hr Hgood.
  destruct (strikeOff_effects g dungeon target extraDelay Hr) as (Ht & _).
  unfold kill, awards. cbv zeta. rewrite Ht. cbn [Actor.good Actor.set_health].
  rewrite Hgood.
  cbn [Actor.x Actor.y Actor.sprite Actor.goldOnKill Actor.set_health].
  destruct (loot_item _) as [item|]; [done|].
  destruct (Actor.goldOnKill _) as [range|]; [|done].
  split; [done|]. split; [done|]. split; [done|].
  intros Hfair Hlt.
  destruct (Hfair (loot_drawn (createMonsterItemLoot
              (strikeOff g dungeon target extraDelay) target))) as [H0 H1].
  pose proof (floor_scaled_range _ (gmax range - gmin range) H0 H1 ltac:(lia)).
  lia.
Qed.


End Kill.




(** ** The Activity Executor: an activity whose actor is gone *)

Lemma find_none_all {A} (f : A -> bool) (l : list A) :
  (forall a, a ∈ l -> f a = false) -> List.find f l = None.
Proof.
  induction l as [|b l IH]; [done|].
  intros Hall. cbn. rewrite (Hall b) by apply list_elem_of_here.
  apply IH. intros a Ha. apply Hall. by apply list_elem_of_further.
Qed.

Section Orphan.
Context `{Collaborators}.

(** C10.  When there is a current activity whose dungeon exists and no
    actor of that dungeon's actor list has the activity's actor id, a step
    of the executor returns true and changes nothing but [lastUpdate]: no
    event is emitted and the activity stays.  The update of the Tick Driver
    that takes this step does nothing else and runs no turn logic. *)
Theorem applyCurrentActivity_orphan (now : Z) (g : GameState)
    (activity : Activity) (dungeon : nat) :
  GameState.currentActivity g = Some activity ->
  getDungeonById g (Activity.dungeonId activity) = Some dungeon ->
  (forall r, r ∈ Dungeon.actors (dungeonOf g dungeon) ->
             Actor.id (actorOf g r) <> Activity.actorId activity) ->
  let g' := GameState.set_lastUpdate now g in
  applyCurrentActivity now g = Ok (true, g')
  /\ GameState.events g' = GameState.events g
  /\ GameState.currentActivity g' = Some activity
  /\ forall g0,
       pruneDungeons (GameState.set_events [] g0) = g ->
       Qltb STEP_TIME (ofZ (now - GameState.lastUpdate g)) = true ->
       update now g0 = Ok g'.
Proof.
  intros Hact Hdungeon Hgone g'.
  assert (Happly : applyCurrentActivity now g = Ok (true, g')).
  { unfold applyCurrentActivity. rewrite Hact.
    change (getDungeonById (GameState.set_lastUpdate now g))
      with (getDungeonById g).
    rewrite Hdungeon.
    replace (findActor (GameState.set_lastUpdate now g) dungeon
               (Activity.actorId activity)) with (@None aref); [done|].
    symmetry. unfold findActor. apply find_none_all.
    intros r Hr. by apply Z.eqb_neq, Hgone. }
  split; [done|]. split; [done|]. split; [done|].
  intros g0 Hg0 Hstep. unfold update. cbv zeta. rewrite Hg0, Hstep.
  by rewrite Happly.
Qed.
End Orphan.

Lemma applyCurrentActivity_orphan_witness :
  applyCurrentActivity (H := Demo.plain) 500 Demo.orphan
  = Ok (true, GameState.set_lastUpdate 500 Demo.orphan).
Proof.
  refine (proj1 (applyCurrentActivity_orphan (H := Demo.plain) 500 Demo.orphan
                   (Activity.mk 1 2 0 1 0) 0%nat eq_refl eq_refl _)).
  intros r Hr. apply list_elem_of_singleton in Hr. subst r.
  vm_compute. discriminate.
Defined.

(** ** The Turn Manager *)

Section Turns.
Context `{Collaborators}.

(** A call of [nextTurn] that returns has changed the holder, perhaps
    several times, and handed over to the last one. *)
Lemma nextTurnWithin_Ok (depth : nat) (g g' : GameState) :
  nextTurnWithin depth g = Ok g' ->
  exists holder, handsOver (GameState.set_whoseTurn holder g) g'.
Proof.
  revert g. induction depth as [|depth IH]; intros g; [done|].
  cbn [nextTurnWithin]. cbv zeta.
  set (g0 := GameState.set_whoseTurn _ g).
  case_bool_decide as Hevil.
  - destruct (objGet _ _) as [info|]; [|done].
    destruct (getActorById _ _ _) as [r|].
    + destruct (_ <=? 0).
      * intros Hrec. apply IH in Hrec as [holder Hrec].
        exists holder. exact Hrec.
      * intros [= <-]. eexists. by apply hands_hero.
    + intros [= <-]. eexists. by apply hands_absent.
  - intros [= <-]. eexists. apply hands_evil.
    by destruct (decide (GameState.whoseTurn g0 = Some "evil")).
Qed.

(** Writes to the store only. *)
Lemma store_only_eta (g : GameState) : GameState.set_store (GameState.store g) g = g.
Proof. by destruct g. Qed.

Lemma refreshMonsters_store (g : GameState) :
  exists s, refreshMonsters g = GameState.set_store s g
            /\ length s = length (GameState.store g).
Proof.
  unfold refreshMonsters.
  assert (Hin : forall l g, exists s,
             foldl (fun g r => if Actor.good (actorOf g r) then g
                               else updActor r refreshMonster g) g l
             = GameState.set_store s g
             /\ length s = length (GameState.store g)).
  { induction l as [|r l IH]; intros g1.
    - exists (GameState.store g1). by rewrite store_only_eta.
    - cbn [foldl]. destruct (Actor.good _); [apply IH|].
      destruct (IH (updActor r refreshMonster g1)) as (s & -> & Hlen).
      exists s. split; [done|]. rewrite Hlen. unfold updActor. cbn.
      apply length_alter. }
  generalize (GameState.dungeons g) as ds. intros ds. revert g.
  induction ds as [|d ds IH]; intros g.
  - exists (GameState.store g). by rewrite store_only_eta.
  - cbn [foldl]. destruct (Hin (Dungeon.actors d) g) as (s & -> & Hlen).
    destruct (IH (GameState.set_store s g)) as (s' & -> & Hlen').
    exists s'. split; [done|]. by rewrite Hlen'.
Qed.

(** Advancing the turn leaves the turn order as it is. *)
Lemma handsOver_playerOrder (g g' : GameState) :
  handsOver g g' -> GameState.playerOrder g' = GameState.playerOrder g.
Proof.
  destruct 1; try done.
  destruct (refreshMonsters_store (GameState.set_evilTurnMax 100 g)) as (s & -> & _).
  done.
Qed.

Lemma nextTurn_playerOrder (g g' : GameState) :
  nextTurn g = Ok g' -> GameState.playerOrder g' = GameState.playerOrder g.
Proof.
  intros Hnext. apply nextTurnWithin_Ok in Hnext as [holder Hnext].
  by apply handsOver_playerOrder in Hnext.
Qed.

Lemma handsOver_whoseTurn (g g' : GameState) :
  handsOver g g' -> GameState.whoseTurn g' = GameState.whoseTurn g.
Proof.
  destruct 1; try done.
  destruct (refreshMonsters_store (GameState.set_evilTurnMax 100 g)) as (s & -> & _).
  done.
Qed.

Lemma handsOver_currentActivity (g g' : GameState) :
  handsOver g g' -> GameState.currentActivity g' = GameState.currentActivity g.
Proof.
  destruct 1; try done.
  destruct (refreshMonsters_store (GameState.set_evilTurnMax 100 g)) as (s & -> & _).
  done.
Qed.

(** The budget after the hand-over: 100 for the evil faction, untouched
    for the others. *)
Lemma handsOver_evilTurnMax (g g' : GameState) :
  handsOver g g' ->
  GameState.evilTurnMax g'
  = if bool_decide (GameState.whoseTurn g' = Some "evil") then 100
    else GameState.evilTurnMax g.
Proof.
  intros Hh. rewrite (handsOver_whoseTurn _ _ Hh).
  destruct Hh as [r Hne|Hne|He].
  - by rewrite bool_decide_eq_false_2.
  - by rewrite bool_decide_eq_false_2.
  - rewrite bool_decide_eq_true_2 by done.
    destruct (refreshMonsters_store (GameState.set_evilTurnMax 100 g)) as (s & -> & _).
    done.
Qed.

Lemma nextTurn_evilTurnMax (g g' : GameState) :
  nextTurn g = Ok g' ->
  GameState.evilTurnMax g'
  = if bool_decide (GameState.whoseTurn g' = Some "evil") then 100
    else GameState.evilTurnMax g.
Proof.
  intros Hnext. apply nextTurnWithin_Ok in Hnext as [holder Hnext].
  by apply handsOver_evilTurnMax in Hnext.
Qed.

Lemma nextTurn_currentActivity (g g' : GameState) :
  nextTurn g = Ok g' ->
  GameState.currentActivity g' = GameState.currentActivity g.
Proof.
  intros Hnext. apply nextTurnWithin_Ok in Hnext as [holder Hnext].
  by apply handsOver_currentActivity in Hnext.
Qed.
End Turns.

(** ** The Evil Turn Planner *)

Section Planner.
Context `{Collaborators}.

Lemma planMonster_evilTurnMax (now : Z) (g : GameState) (monster : aref) :
  GameState.evilTurnMax (planMonster now g monster) = GameState.evilTurnMax g.
Proof.
  unfold planMonster. cbv zeta.
  destruct (0 <? _); [|done].
  destruct (getAdjacentHero _ _ _) as [hero|].
  - by destruct (List.find _ _).
  - destruct (sortByKey _ _) as [|bestMove sorted]; [done|].
    by destruct (_ <? _).
Qed.

(** C8, amended.  The turn budget is 100 whenever [nextTurn] has passed
    the turn to the evil faction.  An invocation of the planner with a hero
    in some dungeon decrements the budget once: it leaves it one lower,
    unless the turn advance it forces passes the turn to the evil faction
    again, which sets it to 100.  When the decrement takes the budget to
    0 or below, the planner does nothing but advance the turn from the state
    with the decremented budget, whatever monsters are eligible: it starts
    no activity. *)
Theorem takeEvilTurn_budget (now : Z) (g : GameState) :
  heroes g <> [] ->
  let g1 := GameState.set_evilTurnMax (GameState.evilTurnMax g - 1) g in
  (forall g0 g', nextTurn g0 = Ok g' ->
                 GameState.whoseTurn g' = Some "evil" ->
                 GameState.evilTurnMax g' = 100)
  /\ (forall g', takeEvilTurn now g = Ok g' ->
        GameState.evilTurnMax g' = GameState.evilTurnMax g - 1
        \/ (nextTurn g1 = Ok g'
            /\ GameState.whoseTurn g' = Some "evil"
            /\ GameState.evilTurnMax g' = 100))
  /\ (GameState.evilTurnMax g - 1 <= 0 ->
        takeEvilTurn now g = nextTurn g1
        /\ forall g', takeEvilTurn now g = Ok g' ->
             GameState.currentActivity g' = GameState.currentActivity g).
Proof.
  intros Hheroes g1.
  assert (Hstep : takeEvilTurn now g
                  = if GameState.evilTurnMax g - 1 <=? 0 then nextTurn g1
                    else match allPossible g1 with
                         | monster :: _ => Ok (planMonster now g1 monster)
                         | [] => nextTurn g1
                         end).
  { unfold takeEvilTurn. by rewrite bool_decide_eq_false_2. }
  assert (Hnext : forall g', nextTurn g1 = Ok g' ->
            GameState.evilTurnMax g' = GameState.evilTurnMax g - 1
            \/ (nextTurn g1 = Ok g'
                /\ GameState.whoseTurn g' = Some "evil"
                /\ GameState.evilTurnMax g' = 100)).
  { intros g' Hg'. pose proof (nextTurn_evilTurnMax _ _ Hg') as Hb.
    case_bool_decide; [by right | by left]. }
  split.
  { intros g0 g' Hg' Hevil. rewrite (nextTurn_evilTurnMax _ _ Hg').
    by rewrite bool_decide_eq_true_2. }
  split.
  { intros g'. rewrite Hstep. destruct (_ <=? 0); [apply Hnext|].
    destruct (allPossible g1) as [|monster rest]; [apply Hnext|].
    intros [= <-]. left. apply planMonster_evilTurnMax. }
  intros Hzero. rewrite Hstep.
  replace (GameState.evilTurnMax g - 1 <=? 0) with true by lia.
  split; [done|].
  intros g' Hg'. by rewrite (nextTurn_currentActivity _ _ Hg').
Qed.

(** C9, amended.  The planner has selected a monster (there is a hero in
    some dungeon and the budget is not exhausted) and recalculated its legal
    moves.  If there are legal moves and an adjacent hero, one action of the
    monster is consumed at once, whether or not a legal move targets the
    hero's cell; an attack activity at that cell is started exactly when
    some legal move targets it, and no activity is started otherwise.  If
    there is no legal move at all, the monster's moves and actions are set
    to 0 and no activity is started. *)
Theorem takeEvilTurn_adjacent_hero (now : Z) (g : GameState)
    (monster : aref) (rest : list aref) :
  heroes g <> [] ->
  0 < GameState.evilTurnMax g - 1 ->
  (monster < length (GameState.store g))%nat ->
  let g1 := GameState.set_evilTurnMax (GameState.evilTurnMax g - 1) g in
  allPossible g1 = monster :: rest ->
  let g2 := GameState.set_possibleMoves (calcMoves g1 monster) g1 in
  let m := actorOf g monster in
  exists g',
    takeEvilTurn now g = Ok g'
    /\ (forall hero,
          GameState.possibleMoves g2 <> [] ->
          getAdjacentHero g2 (Actor.dungeonId m) monster = Some hero ->
          Actor.actions (actorOf g' monster) = Actor.actions m - 1
          /\ Actor.moves (actorOf g' monster) = Actor.moves m
          /\ match List.find
                     (fun mv => (GameMove.x mv =? Actor.x (actorOf g hero))
                                && (GameMove.y mv =? Actor.y (actorOf g hero)))
                     (GameState.possibleMoves g2) with
             | Some attackMove =>
                 GameState.currentActivity g'
                 = Some (Activity.mk (Actor.dungeonId m) (Actor.id m) now
                                     (Actor.x (actorOf g hero))
                                     (Actor.y (actorOf g hero)))
             | None =>
                 GameState.currentActivity g' = GameState.currentActivity g
             end)
    /\ (GameState.possibleMoves g2 = [] ->
          Actor.actions (actorOf g' monster) = 0
          /\ Actor.moves (actorOf g' monster) = 0
          /\ GameState.currentActivity g' = GameState.currentActivity g).
Proof.
  intros Hheroes Hbudget Hr g1 Hsel g2 m.
  exists (planMonster now g1 monster). split.
  { unfold takeEvilTurn. rewrite bool_decide_eq_false_2 by done. cbv zeta.
    fold g1. replace (GameState.evilTurnMax g1 <=? 0) with false
      by (subst g1; cbn; lia).
    by rewrite Hsel. }
  unfold planMonster. cbv zeta. fold g2.
  change (actorOf g2) with (actorOf g). fold m.
  split.
  - intros hero Hmoves Hadj.
    replace (0 <? Z.of_nat (length (GameState.possibleMoves g2))) with true
      by (symmetry; apply Z.ltb_lt;
          destruct (GameState.possibleMoves g2); [done | cbn [length]; lia]).
    rewrite Hadj.
    destruct (List.find _ _) as [attackMove|] eqn:Hfind.
    + rewrite actorOf_updActor_eq by done.
      split; [done|]. split; [done|].
      unfold startActivity. cbn [GameState.currentActivity GameState.set_currentActivity updActor GameState.set_store].
      apply find_some in Hfind as [_ Hxy].
      apply andb_true_iff in Hxy as [Hx Hy].
      apply Z.eqb_eq in Hx, Hy. change (actorOf g2) with (actorOf g).
      by rewrite Hx, Hy.
    + rewrite actorOf_updActor_eq by done. done.
  - intros Hnone.
    replace (0 <? Z.of_nat (length (GameState.possibleMoves g2))) with false
      by (by rewrite Hnone).
    by rewrite actorOf_updActor_eq.
Qed.
End Planner.

Lemma takeEvilTurn_budget_witness :
  GameState.evilTurnMax
    (planMonster (H := Demo.plain) 500
       (GameState.set_evilTurnMax 99 Demo.ambush) 1%nat) = 100 - 1
  \/ (nextTurn (H := Demo.plain) (GameState.set_evilTurnMax 99 Demo.ambush)
      = Ok (planMonster (H := Demo.plain) 500
              (GameState.set_evilTurnMax 99 Demo.ambush) 1%nat)
      /\ GameState.whoseTurn
           (planMonster (H := Demo.plain) 500
              (GameState.set_evilTurnMax 99 Demo.ambush) 1%nat) = Some "evil"
      /\ GameState.evilTurnMax
           (planMonster (H := Demo.plain) 500
              (GameState.set_evilTurnMax 99 Demo.ambush) 1%nat) = 100).
Proof.
  refine (proj1 (proj2 (takeEvilTurn_budget (H := Demo.plain) 500 Demo.ambush _))
                _ _).
  - vm_compute. discriminate.
  - vm_compute. reflexivity.
Defined.

(** The evil faction is alone in the turn order, a hero is in the dungeon
    and no monster can act: the planner's turn advance hands the turn back
    to the evil faction, and the budget of 100 is 100 again after the
    invocation, not 99. *)
Lemma takeEvilTurn_budget_reset :
  GameState.whoseTurn Demo.evilAlone = Some "evil"
  /\ heroes Demo.evilAlone = [0%nat]
  /\ GameState.evilTurnMax Demo.evilAlone = 100
  /\ exists g', takeEvilTurn (H := Demo.plain) 500 Demo.evilAlone = Ok g'
                /\ GameState.evilTurnMax g' = 100
                /\ GameState.evilTurnMax g'
                   <> GameState.evilTurnMax Demo.evilAlone - 1.
Proof.
  split; [done|]. split; [done|]. split; [done|].
  eexists. split; [vm_compute; reflexivity|]. split; [done|].
  vm_compute. discriminate.
Qed.

Lemma takeEvilTurn_adjacent_hero_witness :
  exists g',
    takeEvilTurn (H := Demo.elsewhere) 500 Demo.ambush = Ok g'
    /\ Actor.actions (actorOf g' 1%nat) = 1 - 1.
Proof.
  destruct (takeEvilTurn_adjacent_hero (H := Demo.elsewhere) 500 Demo.ambush
              1%nat []) as (g' & Hrun & Hadj & _).
  - vm_compute. discriminate.
  - vm_compute. reflexivity.
  - cbn. lia.
  - vm_compute. reflexivity.
  - exists g'. split; [exact Hrun|].
    refine (proj1 (Hadj 0%nat _ _)).
    + vm_compute. discriminate.
    + vm_compute. reflexivity.
Defined.

(** The orc stands next to the hero and its only legal move goes to
    another cell: no legal move targets the hero's cell and no activity is
    started, and yet the orc's action is consumed. *)
Lemma action_consumed_without_attack :
  let g1 := GameState.set_evilTurnMax 99 Demo.ambush in
  let g2 := GameState.set_possibleMoves
              (calcMoves (Collaborators := Demo.elsewhere) g1 1%nat) g1 in
  allPossible (H := Demo.elsewhere) g1 = [1%nat]
  /\ getAdjacentHero (Collaborators := Demo.elsewhere) g2 1 1%nat = Some 0%nat
  /\ List.find (fun mv => (GameMove.x mv =? 0) && (GameMove.y mv =? 0))
               (GameState.possibleMoves g2) = None
  /\ Actor.actions (actorOf Demo.ambush 1%nat) = 1
  /\ exists g', takeEvilTurn (H := Demo.elsewhere) 500 Demo.ambush = Ok g'
                /\ Actor.actions (actorOf g' 1%nat) = 0
                /\ GameState.currentActivity g' = None.
Proof.
  cbv zeta. split; [by vm_compute|]. split; [by vm_compute|].
  split; [by vm_compute|]. split; [by vm_compute|].
  eexists. split; [vm_compute; reflexivity|]. done.
Qed.

(** ** The turn order *)

Lemma splice_insert_before_last {A} (others : list A) (e a : A) :
  splice (others ++ [e]) (Z.of_nat (length (others ++ [e])) - 1) 0 [a]
  = others ++ [a; e].
Proof.
  unfold splice. rewrite length_app. cbn [length].
  set (n := length others).
  replace (Z.of_nat (n + 1) - 1) with (Z.of_nat n) by lia.
  replace (Z.of_nat n <? 0) with false by lia.
  replace (Z.min (Z.of_nat n) (Z.of_nat (n + 1))) with (Z.of_nat n) by lia.
  replace (Z.min (Z.max 0 0) (Z.of_nat (n + 1) - Z.of_nat n)) with 0 by lia.
  rewrite Z.add_0_r, Nat2Z.id. subst n.
  rewrite take_app_length, drop_app_length. done.
Qed.

Lemma clearType_member (g : GameState) (playerId : string)
    (before after : list string) :
  GameState.playerOrder g = before ++ playerId :: after ->
  playerId ∉ before ->
  GameState.playerOrder (clearType playerId g) = before ++ after.
Proof.
  intros Horder Hfirst. unfold clearType. cbn.
  rewrite Horder, indexOf_present by done. apply splice_remove_at.
Qed.

(** A participant that is not in the turn order clears its selection: the
    last entry of the turn order goes. *)
Lemma clearType_outsider (g : GameState) (playerId : string) :
  playerId ∉ GameState.playerOrder g ->
  GameState.playerOrder (clearType playerId g)
  = removelast (GameState.playerOrder g).
Proof.
  intros Hout. unfold clearType. cbn.
  rewrite indexOf_absent by done. apply splice_minus_one.
Qed.

(** C6, at the input on which the code fails.  The turn order is
    ["p1"; "evil"] and the participant "p2", who has not joined, sends the
    clear-selection command: the entry "evil" is removed, and it is not the
    sender's own. *)
Theorem clearType_removes_evil :
  GameState.playerOrder Demo.scenarioB = ["p1"; "evil"]
  /\ GameState.playerOrder (clearType "p2" Demo.scenarioB) = ["p1"].
Proof. split; reflexivity. Qed.

Section Joining.
Context `{Collaborators}.

(** Joining inserts a new participant before the last entry. *)
Lemma joinGame_playerOrder (g g' : GameState) (playerId : string)
    (type : PlayerClass) (name : string) :
  joinGame g playerId type name = Ok g' ->
  GameState.playerOrder g'
  = if includes playerId (GameState.playerOrder g) then GameState.playerOrder g
    else splice (GameState.playerOrder g)
                (Z.of_nat (length (GameState.playerOrder g)) - 1) 0 [playerId].
Proof.
  unfold joinGame.
  destruct (last _) as [lastDungeon|]; [|done].
  cbv zeta.
  set (placed := match list_find _ _ with Some _ => _ | None => _ end).
  assert (Hplaced : forall g1, placed = Ok g1 ->
            GameState.playerOrder g1 = GameState.playerOrder g).
  { subst placed. intros g1.
    destruct (list_find _ _) as [[mainStartRoom ?]|]; [|by intros [= <-]].
    destruct (0 <? _); [|by intros [= <-]].
    destruct (pickStart _ _) as [start|]; [|done].
    destruct (createActor _ _ _ _ _ _) as [a nextId].
    by intros [= <-]. }
  destruct placed as [g1|]; [|done].
  specialize (Hplaced g1 eq_refl). cbn [mbind outcome_bind].
  rewrite Hplaced.
  destruct (includes playerId (GameState.playerOrder g)).
  - destruct (objGet _ _) as [whoseMove|]; [|by intros [= <-]].
    destruct (_ =? 0); [by intros [= <-]|].
    destruct (getActorById _ _ _); by intros [= <-].
  - destruct (objGet _ _) as [whoseMove|]; [|by intros [= <-]].
    destruct (_ =? 0); [by intros [= <-]|].
    destruct (getActorById _ _ _); by intros [= <-].
Qed.
End Joining.

(** ** The bounds of the resource pools *)

Lemma allInBounds_store (g g' : GameState) :
  GameState.store g' = GameState.store g -> allInBounds g -> allInBounds g'.
Proof. unfold allInBounds. by intros ->. Qed.

(** An assignment that keeps the actor it is applied to within its bounds
    keeps all actors within theirs. *)
Lemma allInBounds_updActor (r : aref) (f : Actor -> Actor) (g : GameState) :
  allInBounds g ->
  ((r < length (GameState.store g))%nat ->
   inBounds (actorOf g r) -> inBounds (f (actorOf g r))) ->
  allInBounds (updActor r f g).
Proof.
  intros Hall Hf. unfold allInBounds, updActor. cbn.
  apply Forall_alter; [done|].
  intros a Ha Hin. pose proof (lookup_lt_Some _ _ _ Ha) as Hlt.
  apply list_lookup_total_correct in Ha. unfold actorOf in Hf.
  rewrite Ha in Hf. by apply Hf.
Qed.

Lemma allInBounds_actorOf (g : GameState) (r : aref) :
  allInBounds g -> inBounds (actorOf g r).
Proof.
  intros Hall. unfold actorOf. rewrite list_lookup_total_alt.
  destruct (GameState.store g !! r) as [a|] eqn:Ha.
  - by eapply Forall_lookup_1.
  - unfold inBounds. cbn. lia.
Qed.

Lemma foldl_store {A} (step : GameState -> A -> GameState) (l : list A)
    (g : GameState) :
  (forall g a, GameState.store (step g a) = GameState.store g) ->
  GameState.store (foldl step g l) = GameState.store g.
Proof.
  intros Hstep. revert g. induction l as [|a l IH]; intros g; [done|].
  cbn [foldl]. by rewrite IH, Hstep.
Qed.

Ltac bounds := unfold inBounds in *; cbn in *; lia.

Lemma walk_inBounds (now : Z) (nextStep : GameMove) (a : Actor) :
  inBounds a -> 1 <= Actor.moves a -> inBounds (walk now nextStep a).
Proof.
  intros Hin Hmoves. unfold walk. cbv zeta.
  destruct (_ >? _); destruct (_ <? _); bounds.
Qed.

Lemma refreshHero_inBounds (a : Actor) : inBounds a -> inBounds (refreshHero a).
Proof.
  intros Hin. unfold refreshHero. cbv zeta.
  destruct (Actor.magic _ <? Actor.maxMagic _) eqn:E; [apply Z.ltb_lt in E|];
    bounds.
Qed.

Lemma refreshMonster_inBounds (a : Actor) :
  inBounds a -> inBounds (refreshMonster a).
Proof. intros Hin. unfold refreshMonster. bounds. Qed.

Lemma exhaust_inBounds (a : Actor) : inBounds a -> inBounds (exhaust a).
Proof. intros Hin. unfold exhaust. bounds. Qed.

Section Bounds.
Context `{Collaborators}.

Lemma refreshMonsters_inBounds (g : GameState) :
  allInBounds g -> allInBounds (refreshMonsters g).
Proof.
  unfold refreshMonsters.
  assert (Hin : forall l g, allInBounds g ->
            allInBounds
              (foldl (fun g r => if Actor.good (actorOf g r) then g
                                 else updActor r refreshMonster g) g l)).
  { induction l as [|r l IH]; intros g1 Hg1; [done|].
    cbn [foldl]. apply IH. destruct (Actor.good _); [done|].
    apply allInBounds_updActor; [done|].
    intros _. apply refreshMonster_inBounds. }
  generalize (GameState.dungeons g) as ds. intros ds. revert g.
  induction ds as [|d ds IH]; intros g Hg; [done|].
  cbn [foldl]. by apply IH, Hin.
Qed.

Lemma handsOver_inBounds (g g' : GameState) :
  handsOver g g' -> allInBounds g -> allInBounds g'.
Proof.
  intros Hh Hall. destruct Hh as [r Hne|Hne|He].
  - eapply allInBounds_store; [|apply (allInBounds_updActor r refreshHero g Hall)].
    + reflexivity.
    + intros _. apply refreshHero_inBounds.
  - done.
  - eapply allInBounds_store;
      [|apply (refreshMonsters_inBounds (GameState.set_evilTurnMax 100 g) Hall)].
    reflexivity.
Qed.

Lemma nextTurn_inBounds (g g' : GameState) :
  allInBounds g -> nextTurn g = Ok g' -> allInBounds g'.
Proof.
  intros Hall Hnext. apply nextTurnWithin_Ok in Hnext as [holder Hnext].
  by apply (handsOver_inBounds _ _ Hnext).
Qed.

Lemma kill_store (g : GameState) (dungeon : nat) (target : aref)
    (extraDelay : Z) :
  GameState.store (kill g dungeon target extraDelay)
  = alter (Actor.set_health 0) target (GameState.store g).
Proof. by rewrite (proj1 (kill_frame g dungeon target extraDelay)). Qed.

(** The damage of a strike leaves the target within its bounds: a target
    whose health falls to 0 or below is killed, which sets its health to
    0. *)
Lemma strike_inBounds (g : GameState) (dungeon : nat) (actor target : aref)
    (nextStep : GameMove) (multiplier : option Z) (event : GameEventType)
    (ex ey damageDelay killDelay : Z) :
  allInBounds g ->
  allInBounds (strike g dungeon actor target nextStep multiplier event
                      ex ey damageDelay killDelay).
Proof.
  intros Hall. unfold strike.
  pose proof (rollCombat_nonneg random (actorOf g actor)
                (Some (actorOf g target)) multiplier (GameState.drawn g))
    as Hdamage.
  destruct (rollCombat _ _ _ _ _) as [damage drawn]. cbn [fst] in Hdamage.
  cbv zeta.
  set (hurt := fun t => Actor.set_health (Actor.health t - damage) t).
  set (g3 := updActor target hurt _).
  assert (Hstore : GameState.store g3 = alter hurt target (GameState.store g))
    by reflexivity.
  destruct (Actor.health (actorOf g3 target) <=? 0) eqn:Hdead.
  - unfold allInBounds. rewrite kill_store, Hstore, list_alter_alter_eq.
    apply Forall_alter; [done|]. intros a _ Hin. unfold hurt. bounds.
  - apply Z.leb_gt in Hdead. unfold allInBounds. rewrite Hstore.
    apply Forall_alter; [done|]. intros a Ha Hin.
    unfold actorOf in Hdead. rewrite Hstore in Hdead.
    rewrite list_lookup_total_alter_eq in Hdead
      by (by eapply lookup_lt_Some).
    rewrite (list_lookup_total_correct _ _ _ Ha) in Hdead.
    unfold hurt in *. bounds.
Qed.

Lemma engaged_inBounds (g : GameState) (actor : aref) :
  allInBounds g -> allInBounds (engaged g actor).
Proof.
  intros Hall. unfold engaged. cbv zeta.
  eapply allInBounds_store; [reflexivity|].
  apply allInBounds_updActor; [done|]. intros _ Hin.
  destruct (_ <? _); bounds.
Qed.

Lemma spend_action_inBounds (g : GameState) (actor : aref) :
  allInBounds g ->
  allInBounds
    (updActor actor (fun a => Actor.set_actions (Actor.actions a - 1) a) g).
Proof.
  intros Hall. apply allInBounds_updActor; [done|]. intros _ Hin. bounds.
Qed.

(** The step of the activity, when the actor can pay for it. *)
Lemma applyStep_inBounds (now : Z) (g : GameState) (dungeon : nat)
    (actor : aref) (nextStep : GameMove) :
  allInBounds g ->
  affordable (actorOf g actor) nextStep ->
  allInBounds (applyStep now g dungeon actor nextStep).
Proof.
  intros Hall Hpay. unfold applyStep, affordable in *.
  destruct (GameMove.type nextStep).
  - (* move *)
    unfold applyMove. cbv zeta. eapply allInBounds_store; [reflexivity|].
    apply allInBounds_updActor; [done|]. intros _ Hin.
    by apply walk_inBounds.
  - (* attack *)
    unfold applyAttack. cbv zeta. apply engaged_inBounds.
    destruct (getActorAt _ _ _ _);
      [apply strike_inBounds|]; by apply spend_action_inBounds.
  - (* open *)
    unfold applyOpen. cbv zeta. eapply allInBounds_store; [|exact Hall].
    cbn. by rewrite foldl_store.
  - (* heal *)
    unfold applyHeal. cbv zeta. apply engaged_inBounds.
    set (g1 := updActor actor _ (updActor actor _ g)).
    assert (Hg1 : allInBounds g1).
    { apply allInBounds_updActor; [by apply spend_action_inBounds|].
      intros Hr Hin.
      change (length (GameState.store (updActor actor _ g)))
        with (length (alter (fun a => Actor.set_actions (Actor.actions a - 1) a)
                        actor (GameState.store g))) in Hr.
      rewrite length_alter in Hr.
      rewrite actorOf_updActor_eq in * by done. bounds. }
    destruct (getActorAt _ _ _ _) as [target|]; [|done].
    eapply allInBounds_store; [reflexivity|].
    apply allInBounds_updActor; [done|]. intros _ Hin.
    unfold healed. cbv zeta.
    destruct (_ >? _) eqn:E; [|rewrite Z.gtb_ltb in E; apply Z.ltb_ge in E];
      bounds.
  - (* shoot *)
    unfold applyShoot. cbv zeta. apply engaged_inBounds.
    destruct (getActorAt _ _ _ _);
      [apply strike_inBounds|]; by apply spend_action_inBounds.
  - (* magic *)
    unfold applyMagic. cbv zeta. apply engaged_inBounds.
    set (g1 := updActor actor _ (updActor actor _ g)).
    assert (Hg1 : allInBounds g1).
    { apply allInBounds_updActor; [by apply spend_action_inBounds|].
      intros Hr Hin.
      change (length (GameState.store (updActor actor _ g)))
        with (length (alter (fun a => Actor.set_actions (Actor.actions a - 1) a)
                        actor (GameState.store g))) in Hr.
      rewrite length_alter in Hr.
      rewrite actorOf_updActor_eq in * by done. bounds. }
    destruct (getActorAt _ _ _ _) as [target|]; [|done].
    by apply strike_inBounds.
  - (* chest *)
    unfold applyChest.
    destruct (getChestAt _ _ _ _) as [c|]; [|done].
    destruct (_ !! c) as [chest|]; [|done].
    cbv zeta. destruct (createItem _ _) as [item nextId].
    by eapply allInBounds_store; [|exact Hall].
Qed.
End Bounds.
Section BoundsOfATick.
Context `{Collaborators}.
Hypothesis creates : createsInBounds.

Lemma saveGame_store (now : Z) (playerId : string) (dungeonIndex : Z)
    (g : GameState) :
  GameState.store (saveGame now playerId dungeonIndex g) = GameState.store g.
Proof.
  unfold saveGame. cbv zeta.
  destruct (match GameState.whoseSave g with Some _ => _ | None => _ end);
    [done|].
  by destruct (GameState.persisted g).
Qed.

(** The way down only adds actors to the store. *)
Lemma openNext_store (now : Z) (g : GameState) (dungeon : nat) (actor : aref) :
  exists extra,
    GameState.store (openNext now g dungeon actor) = GameState.store g ++ extra.
Proof.
  unfold openNext. cbv zeta.
  set (g1 := match findDungeonByLevel _ _ with Some _ => _ | None => _ end).
  assert (Hg1 : exists extra, GameState.store g1 = GameState.store g ++ extra).
  { subst g1. destruct (findDungeonByLevel _ _).
    - exists []. by rewrite app_nil_r.
    - by eexists. }
  destruct (Actor.playerId _) as [playerId|]; [|done].
  case_bool_decide; [done|]. by rewrite saveGame_store.
Qed.

Lemma openNext_inBounds (now : Z) (g : GameState) (dungeon : nat)
    (actor : aref) :
  allInBounds g -> allInBounds (openNext now g dungeon actor).
Proof.
  intros Hall. unfold openNext. cbv zeta.
  set (g1 := match findDungeonByLevel _ _ with Some _ => _ | None => _ end).
  assert (Hg1 : allInBounds g1).
  { subst g1. destruct (findDungeonByLevel _ _); [done|].
    unfold allInBounds, pushDungeon. cbn.
    apply Forall_app. split; [done | apply creates]. }
  destruct (Actor.playerId _) as [playerId|]; [|done].
  case_bool_decide; [done|].
  eapply allInBounds_store; [apply saveGame_store | done].
Qed.

Lemma startDungeon_inBounds (g g' : GameState) (actor actor' : aref)
    (nextDungeon oldDungeon : nat) :
  allInBounds g ->
  startDungeon g actor nextDungeon oldDungeon = Ok (g', actor') ->
  allInBounds g'.
Proof.
  intros Hall. unfold startDungeon.
  destruct (List.find _ _) as [startRoom|]; [|by intros [= <- <-]].
  destruct (0 <? _); [|by intros [= <- <-]].
  destruct (pickStart _ _) as [start|]; [|done].
  cbv zeta. unfold allocActor. intros [= <- <-].
  unfold allInBounds. cbn. apply Forall_app. split; [exact Hall|].
  apply Forall_singleton.
  assert (Hcopy : inBounds (copyActor (GameState.store g !!! actor))).
  { apply creates. apply (allInBounds_actorOf g actor Hall). }
  change (actorOf _ actor) with (GameState.store g !!! actor).
  bounds.
Qed.

Lemma complete_inBounds (now : Z) (g g' : GameState) (dungeon : nat)
    (actor : aref) :
  allInBounds g ->
  complete now g dungeon actor = Ok g' ->
  allInBounds g'.
Proof.
  intros Hall. unfold complete. cbv zeta.
  set (way := match _ ≫= _ with Some _ => _ | None => _ end).
  assert (Hway : forall g1 actor1, way = Ok (g1, actor1) -> allInBounds g1).
  { subst way. intros g1 actor1.
    destruct (_ ≫= _) as [room|]; [|by intros [= <- <-]].
    destruct (_ && _); [|by intros [= <- <-]].
    unfold descend. cbv zeta.
    pose proof (openNext_inBounds now g dungeon actor Hall) as Hopen.
    destruct (findDungeonByLevel _ _) as [nextDungeon|]; [|by intros [= <- <-]].
    by apply startDungeon_inBounds. }
  destruct way as [[g1 actor1]|]; [|done].
  cbn. intros [= <-].
  eapply allInBounds_store; [reflexivity|]. exact (Hway _ _ eq_refl).
Qed.

Lemma applyCurrentActivity_inBounds (now : Z) (g g' : GameState) (b : bool) :
  allInBounds g ->
  stepAffordable now g ->
  applyCurrentActivity now g = Ok (b, g') ->
  allInBounds g'.
Proof.
  intros Hall Hpay. unfold applyCurrentActivity.
  destruct (GameState.currentActivity g) as [activity|] eqn:Hact;
    [|by intros [= <- <-]].
  cbv zeta.
  change (getDungeonById (GameState.set_lastUpdate now g)) with (getDungeonById g).
  destruct (getDungeonById g _) as [dungeon|] eqn:Hdungeon;
    [|by intros [= <- <-]].
  change (findActor (GameState.set_lastUpdate now g)) with (findActor g).
  destruct (findActor g _ _) as [actor|] eqn:Hactor; [|by intros [= <- <-]].
  destruct (findNextStep _ _ _ _) as [nextStep|] eqn:Hstep;
    [|by intros [= <- <-]].
  assert (Hstepped : allInBounds
            (applyStep now (GameState.set_lastUpdate now g) dungeon actor nextStep)).
  { apply applyStep_inBounds; [done|].
    exact (Hpay activity dungeon actor nextStep Hact Hdungeon Hactor Hstep). }
  destruct (_ && _); [|by intros [= <- <-]].
  destruct (complete _ _ _ _) as [g1|] eqn:Hdone; [|done].
  cbn. intros [= <- <-]. by eapply complete_inBounds.
Qed.

Lemma planMonster_inBounds (now : Z) (g : GameState) (monster : aref) :
  allInBounds g -> allInBounds (planMonster now g monster).
Proof.
  intros Hall. unfold planMonster. cbv zeta.
  destruct (0 <? _).
  - destruct (getAdjacentHero _ _ _) as [hero|].
    + apply allInBounds_updActor; [by destruct (List.find _ _)|].
      intros _ Hin. bounds.
    + destruct (sortByKey _ _) as [|bestMove sorted]; [done|].
      destruct (_ <? _); [done|].
      apply allInBounds_updActor; [done|]. intros _. apply exhaust_inBounds.
  - apply allInBounds_updActor; [done|]. intros _. apply exhaust_inBounds.
Qed.

Lemma takeEvilTurn_inBounds (now : Z) (g g' : GameState) :
  allInBounds g -> takeEvilTurn now g = Ok g' -> allInBounds g'.
Proof.
  intros Hall. unfold takeEvilTurn.
  case_bool_decide; [by intros [= <-]|]. cbv zeta.
  destruct (_ <=? 0); [by apply nextTurn_inBounds|].
  destruct (allPossible _) as [|monster rest]; [by apply nextTurn_inBounds|].
  intros [= <-]. by apply planMonster_inBounds.
Qed.

Lemma pruneDungeons_store (g : GameState) :
  GameState.store (pruneDungeons g) = GameState.store g.
Proof. unfold pruneDungeons. by destruct (2 <? _). Qed.

End BoundsOfATick.

Lemma plain_createsInBounds : createsInBounds (H := Demo.plain).
Proof. split; [intros g level; apply Forall_nil_2 | by intros a]. Qed.

Lemma duel_inBounds (magic : Z) : 0 <= magic <= 4 -> allInBounds (Demo.duel magic).
Proof.
  intros Hmagic. unfold allInBounds. cbn.
  repeat apply Forall_cons_2; [| |apply Forall_nil_2]; unfold inBounds; cbn; lia.
Qed.



(** ** The stairs down *)

Lemma list_find_snoc {A} (P : A -> Prop) `{forall x, Decision (P x)}
    (l : list A) (d : A) :
  list_find P l = None ->
  list_find P (l ++ [d])
  = if decide (P d) then Some (length l, d) else None.
Proof.
  intros Hnone. rewrite list_find_app_r by done. cbn.
  destruct (decide (P d)); [|done]. cbn. done.
Qed.

(** A field of every value of an object is rewritten. *)
Lemma objGet_map {V} (f : V -> V) (o : list (string * V)) (k : string) :
  objGet (map (fun kv => (fst kv, f (snd kv))) o) k = f <$> objGet o k.
Proof.
  induction o as [|kv o IH]; [done|]. cbn. by case_bool_decide.
Qed.

Section Stairs.
Context `{Collaborators}.

Lemma saveGame_frame (now : Z) (playerId : string) (dungeonIndex : Z)
    (g : GameState) :
  exists p, saveGame now playerId dungeonIndex g = GameState.set_persisted p g.
Proof.
  unfold saveGame. cbv zeta.
  destruct (match GameState.whoseSave g with Some _ => _ | None => _ end).
  - exists (GameState.persisted g). by destruct g.
  - destruct (GameState.persisted g) eqn:E; [by eexists|].
    exists None. destruct g. cbn in E. by subst.
Qed.

(** Lines 550-561 when no dungeon has the level looked for: the generator
    is asked for it and its dungeon is added at the end of the array. *)
Lemma openNext_generates (now : Z) (g : GameState) (dungeon : nat)
    (actor : aref) :
  let level := Dungeon.level (dungeonOf g dungeon) + 2 in
  let gen := generateDungeon g level in
  findDungeonByLevel g level = None ->
  GameState.dungeons (openNext now g dungeon actor)
  = GameState.dungeons g ++ [gen_dungeon gen]
  /\ GameState.store (openNext now g dungeon actor)
     = GameState.store g ++ gen_actors gen
  /\ GameState.playerInfo (openNext now g dungeon actor)
     = GameState.playerInfo g
  /\ GameState.events (openNext now g dungeon actor) = GameState.events g.
Proof.
  intros level gen Hnone. unfold openNext. cbv zeta.
  replace (Dungeon.level (dungeonOf g dungeon) + 1 + 1) with level
    by (subst level; lia).
  rewrite Hnone. fold gen.
  destruct (Actor.playerId _) as [playerId|]; [|done].
  case_bool_decide; [done|].
  destruct (saveGame_frame now playerId
              (Dungeon.level (dungeonOf g dungeon) + 1)
              (pushDungeon gen g)) as [p ->].
  done.
Qed.

Lemma pickStart_fair (g : GameState) (possibleStarts : list (Z * Z)) :
  fairStream random -> possibleStarts <> [] ->
  exists start, pickStart g possibleStarts = Some start
                /\ start ∈ possibleStarts.
Proof.
  intros Hfair Hne. unfold pickStart. cbv zeta.
  destruct (Hfair (GameState.drawn g)) as [H0 H1].
  pose proof (floor_scaled_range _ (Z.of_nat (length possibleStarts)) H0 H1)
    as Hrange.
  destruct possibleStarts as [|s l]; [done|].
  specialize (Hrange ltac:(cbn [length]; lia)).
  set (i := Qfloor _) in *.
  replace (i <? 0) with false by lia.
  destruct (lookup_lt_is_Some_2 (s :: l) (Z.to_nat i)) as [start Hstart];
    [lia|].
  exists start. split; [done|]. by eapply list_elem_of_lookup_2.
Qed.

(** [startDungeon] when the new dungeon has a start room with a free cell:
    the actor leaves the old dungeon, and a copy of it, a new object placed
    on one of the free cells, enters the new dungeon; the participants
    whose actor it is are moved to the new dungeon. *)
Lemma startDungeon_relocates (g : GameState) (actor : aref)
    (next old : nat) (startRoom : Room) :
  List.find Room.start (Dungeon.rooms (dungeonOf g next)) = Some startRoom ->
  possibleStartsIn g next startRoom <> [] ->
  fairStream random ->
  (actor < length (GameState.store g))%nat ->
  exists g' start copy,
    startDungeon g actor next old = Ok (g', length (GameState.store g))
    /\ start ∈ possibleStartsIn g next startRoom
    /\ GameState.store g' = GameState.store g ++ [copy]
    /\ Actor.dungeonId copy = Dungeon.id (dungeonOf g next)
    /\ (Actor.x copy, Actor.y copy) = start
    /\ GameState.dungeons g'
       = alter (fun d => Dungeon.set_actors
                           (Dungeon.actors d ++ [length (GameState.store g)]) d)
               next
               (alter (fun d => Dungeon.set_actors
                                  (splice (Dungeon.actors d)
                                          (indexOf actor (Dungeon.actors d)) 1 [])
                                  d)
                      old (GameState.dungeons g))
    /\ GameState.playerInfo g'
       = map (fun kv =>
                (fst kv,
                 if PlayerInfo.actorId (snd kv) =? Actor.id (actorOf g actor)
                 then PlayerInfo.set_dungeonId (Dungeon.id (dungeonOf g next))
                                               (snd kv)
                 else snd kv))
             (GameState.playerInfo g)
    /\ GameState.currentActivity g' = GameState.currentActivity g.
Proof.
  intros Hroom Hfree Hfair Hactor.
  destruct (pickStart_fair g _ Hfair Hfree) as (start & Hpick & Hin).
  assert (Hid : forall f : Dungeon -> Dungeon,
             (forall d, Dungeon.id (f d) = Dungeon.id d) ->
             Dungeon.id (dungeonOf
                           (updDungeon old f
                              (GameState.set_drawn (S (GameState.drawn g)) g))
                           next)
             = Dungeon.id (dungeonOf g next)).
  { intros f Hf. unfold dungeonOf, updDungeon. cbn.
    rewrite list_lookup_total_alter. case_decide as E; [|done].
    destruct E as [-> _]. apply Hf. }
  unfold startDungeon. rewrite Hroom.
  replace (0 <? Z.of_nat (length (possibleStartsIn g next startRoom)))
    with true
    by (symmetry; apply Z.ltb_lt;
        destruct (possibleStartsIn g next startRoom); [done | cbn [length]; lia]).
  rewrite Hpick. cbv zeta. unfold allocActor.
  eexists _, start, _. split; [reflexivity|]. split; [done|].
  split; [reflexivity|].
  split; [cbn; by apply Hid|].
  split; [by destruct start|].
  split; [reflexivity|].
  split; [|reflexivity].
  cbn [GameState.playerInfo addGameEvent GameState.set_events
       GameState.set_playerInfo].
  apply map_ext. intros [k info]. cbn [fst snd].
  rewrite Hid by done.
  set (g2 := updDungeon next _ _).
  replace (actorOf g2 actor) with (actorOf g actor); [by destruct (_ =? _)|].
  unfold actorOf. subst g2. cbn. by rewrite lookup_total_app_l.
Qed.

(** C4, amended.  A hero completes its activity on the centre cell of a
    stairs-down room of a dungeon of level L, and no dungeon has level
    L + 2, the level the code looks for.  Then exactly one dungeon is
    created, the one the generator returns when asked for level L + 2, and
    it is added to the dungeons before the actor is relocated.  If that
    dungeon has level L + 2 and a start room with a free cell, the actor
    leaves the old dungeon, a copy of it enters the new one on a free cell
    of the start room, and every participant whose actor it is (the owning
    participant) has its dungeon reference set to the id of the new
    dungeon; the activity is cleared.  If the generated dungeon has another
    level, L + 1 for one, the actor is not relocated. *)
Theorem stairs_down (now : Z) (g : GameState) (dungeon : nat) (actor : aref)
    (r : nat) (room : Room) :
  let a := actorOf g actor in
  let L := Dungeon.level (dungeonOf g dungeon) in
  let gen := generateDungeon g (L + 2) in
  let next := length (GameState.dungeons g) in
  let g1 := openNext now g dungeon actor in
  let newActor := length (GameState.store g1) in
  Actor.good a = true ->
  getRoomAt g dungeon (Actor.x a) (Actor.y a) = Some r ->
  Dungeon.rooms (dungeonOf g dungeon) !! r = Some room ->
  Room.stairsDown room = true ->
  onCentre room a = true ->
  (dungeon < length (GameState.dungeons g))%nat ->
  (actor < length (GameState.store g))%nat ->
  findDungeonByLevel g (L + 2) = None ->
  GameState.dungeons g1 = GameState.dungeons g ++ [gen_dungeon gen]
  /\ (Dungeon.level (gen_dungeon gen) = L + 2 ->
      forall startRoom,
        List.find Room.start (Dungeon.rooms (gen_dungeon gen)) = Some startRoom ->
        possibleStartsIn g1 next startRoom <> [] ->
        fairStream random ->
        exists g' start,
          complete now g dungeon actor = Ok g'
          /\ start ∈ possibleStartsIn g1 next startRoom
          /\ length (GameState.dungeons g') = S (length (GameState.dungeons g))
          /\ GameState.dungeons g' !! next
             = Some (Dungeon.set_actors
                       (Dungeon.actors (gen_dungeon gen) ++ [newActor])
                       (gen_dungeon gen))
          /\ Actor.dungeonId (actorOf g' newActor) = Dungeon.id (gen_dungeon gen)
          /\ (Actor.x (actorOf g' newActor), Actor.y (actorOf g' newActor)) = start
          /\ Dungeon.actors (dungeonOf g' dungeon)
             = splice (Dungeon.actors (dungeonOf g dungeon))
                      (indexOf actor (Dungeon.actors (dungeonOf g dungeon))) 1 []
          /\ (forall playerId info,
                objGet (GameState.playerInfo g) playerId = Some info ->
                PlayerInfo.actorId info = Actor.id a ->
                objGet (GameState.playerInfo g') playerId
                = Some (PlayerInfo.set_dungeonId (Dungeon.id (gen_dungeon gen)) info))
          /\ GameState.currentActivity g' = None)
  /\ (Dungeon.level (gen_dungeon gen) <> L + 2 ->
      exists g',
        complete now g dungeon actor = Ok g'
        /\ GameState.dungeons g' = GameState.dungeons g ++ [gen_dungeon gen]
        /\ GameState.playerInfo g' = GameState.playerInfo g).
Proof.
  intros a L gen next g1 newActor Hgood Hroom Hr Hstairs Hcentre Hdungeon
         Hactor Hnone.
  destruct (openNext_generates now g dungeon actor Hnone)
    as (Hds & Hstore & Hinfo & _).
  fold L gen g1 in Hds, Hstore, Hinfo.
  assert (Hcomplete : complete now g dungeon actor
            = '(g2, actor2) ← match findDungeonByLevel g1 (L + 2) with
                               | Some nextDungeon =>
                                   startDungeon g1 actor nextDungeon dungeon
                               | None => Ok (g1, actor)
                               end;
              Ok (GameState.set_possibleMoves
                    (calcMoves (GameState.set_currentActivity None g2) actor2)
                    (GameState.set_currentActivity None g2))).
  { unfold complete. cbv zeta. fold a. rewrite Hroom. cbn [mbind option_bind].
    rewrite Hr, Hgood, Hstairs, Hcentre. cbn [andb].
    unfold descend. cbv zeta. fold L g1.
    by replace (L + 1 + 1) with (L + 2) by lia. }
  assert (Hfind : findDungeonByLevel g1 (L + 2)
            = if decide (Dungeon.level (gen_dungeon gen) = L + 2)
              then Some next else None).
  { unfold findDungeonByLevel in *. rewrite Hds.
    destruct (list_find _ (GameState.dungeons g)) eqn:E; [done|].
    rewrite (list_find_snoc _ _ _ E). by case_decide. }
  split; [done|]. split.
  - intros Hlevel startRoom Hstart Hfree Hfair.
    rewrite decide_True in Hfind by done.
    assert (Hnext : dungeonOf g1 next = gen_dungeon gen).
    { unfold dungeonOf. rewrite Hds. subst next.
      by rewrite lookup_total_app_r, Nat.sub_diag by lia. }
    destruct (startDungeon_relocates g1 actor next dungeon startRoom)
      as (g2 & start & copy & Hrun & Hin & Hstore2 & Hcopy & Hxy & Hds2
          & Hinfo2 & _).
    { by rewrite Hnext. }
    { done. }
    { done. }
    { rewrite Hstore, length_app. lia. }
    rewrite Hnext in Hcopy, Hinfo2.
    exists (GameState.set_possibleMoves
              (calcMoves (GameState.set_currentActivity None g2) newActor)
              (GameState.set_currentActivity None g2)), start.
    split; [by rewrite Hcomplete, Hfind, Hrun|].
    split; [done|].
    cbn [GameState.dungeons GameState.set_possibleMoves
         GameState.set_currentActivity GameState.playerInfo
         GameState.currentActivity].
    change (actorOf (GameState.set_possibleMoves _ _) newActor)
      with (actorOf g2 newActor).
    change (dungeonOf (GameState.set_possibleMoves _ _) dungeon)
      with (dungeonOf g2 dungeon).
    assert (Hnew : actorOf g2 newActor = copy).
    { unfold actorOf. rewrite Hstore2. subst newActor.
      by rewrite lookup_total_app_r, Nat.sub_diag by lia. }
    rewrite Hnew.
    split; [by rewrite Hds2, !length_alter, Hds, length_app, Nat.add_comm|].
    split.
    { rewrite Hds2, list_lookup_alter_eq, list_lookup_alter_ne by (subst next; lia).
      rewrite Hds. subst next. by rewrite list_lookup_middle. }
    split; [done|]. split; [done|].
    split.
    { unfold dungeonOf. rewrite Hds2.
      rewrite list_lookup_total_alter_ne by (subst next; lia).
      rewrite list_lookup_total_alter_eq by (rewrite Hds, length_app; lia).
      rewrite Hds. by rewrite lookup_total_app_l. }
    split; [|done].
    intros playerId info Hget Hid.
    rewrite Hinfo2, Hinfo.
    rewrite (objGet_map
               (fun info =>
                  if PlayerInfo.actorId info =? Actor.id (actorOf g1 actor)
                  then PlayerInfo.set_dungeonId (Dungeon.id (gen_dungeon gen)) info
                  else info)).
    rewrite Hget. cbn.
    replace (actorOf g1 actor) with a
      by (subst a; unfold actorOf; by rewrite Hstore, lookup_total_app_l).
    by rewrite Hid, Z.eqb_refl.
  - intros Hlevel. rewrite decide_False in Hfind by done.
    eexists. split; [by rewrite Hcomplete, Hfind|]. by split.
Qed.
End Stairs.

Lemma quarter_fair : fairStream Demo.quarter.
Proof. intros i. split; by vm_compute. Qed.

Lemma stairs_down_witness :
  exists g',
    complete (H := Demo.plain) 500 Demo.onStairs 0%nat 0%nat = Ok g'
    /\ length (GameState.dungeons g') = 2%nat
    /\ objGet (GameState.playerInfo g') "p1"
       = Some (PlayerInfo.mk 10 "knight" 1 "Ann").
Proof.
  destruct (stairs_down (H := Demo.plain) 500 Demo.onStairs 0%nat 0%nat 0%nat
              (Room.mk 0 0 3 3 true true true)
              eq_refl eq_refl eq_refl eq_refl eq_refl)
    as (_ & Hmove & _).
  - cbn. lia.
  - cbn. lia.
  - reflexivity.
  - destruct (Hmove eq_refl (Room.mk 10 10 5 5 true false false) eq_refl)
      as (g' & start & Hrun & _ & Hlen & _ & _ & _ & _ & Hinfo & _).
    + vm_compute. discriminate.
    + exact quarter_fair.
    + exists g'. split; [exact Hrun|]. split; [exact Hlen|].
      exact (Hinfo "p1" (PlayerInfo.mk 1 "knight" 1 "Ann") eq_refl eq_refl).
Defined.

(** The hero steps onto the stairs of the dungeon of level 1, the only
    dungeon.  With a generator that returns the level it is asked for, the
    dungeon created has level 3, not 2.  With a generator that returns a
    dungeon of level 2 (one above the level asked for), the hero is not
    relocated and its participant still refers to the dungeon of id 1. *)
Lemma next_dungeon_not_one_level_down :
  Dungeon.level <$> GameState.dungeons Demo.toStairs = [1]
  /\ (exists g',
        applyCurrentActivity (H := Demo.plain) 500 Demo.toStairs = Ok (true, g')
        /\ Dungeon.level <$> GameState.dungeons g' = [1; 3]
        /\ Dungeon.actors <$> GameState.dungeons g' = [[]; [1%nat]])
  /\ (exists g',
        applyCurrentActivity (H := Demo.shallow) 500 Demo.toStairs = Ok (true, g')
        /\ Dungeon.level <$> GameState.dungeons g' = [1; 2]
        /\ Dungeon.actors <$> GameState.dungeons g' = [[0%nat]; []]
        /\ PlayerInfo.dungeonId <$> objGet (GameState.playerInfo g') "p1"
           = Some 1).
Proof.
  split; [reflexivity|]. split.
  - eexists. split; [vm_compute; reflexivity|]. by split.
  - eexists. split; [vm_compute; reflexivity|]. by repeat split.
Qed.

(** ** The depth of [nextTurn] *)

(** Among more values than a list holds, all taken from the list, two are
    the same. *)
Lemma pigeonhole `{EqDecision A} (ws candidates : list A) :
  (forall w, w ∈ ws -> w ∈ candidates) ->
  (length candidates < length ws)%nat ->
  exists i j w, (i < j)%nat /\ ws !! i = Some w /\ ws !! j = Some w.
Proof.
  intros Hin Hlen.
  assert (Hdup : ~ NoDup ws).
  { intros Hnd. apply (NoDup_submseteq _ candidates) in Hnd; [|done].
    apply submseteq_length in Hnd. lia. }
  clear Hin Hlen. induction ws as [|w ws IH]; [destruct Hdup; constructor|].
  destruct (decide (w ∈ ws)) as [Hw|Hw].
  - apply list_elem_of_lookup in Hw as [j Hj].
    exists 0%nat, (S j), w. split; [lia|]. by split.
  - destruct IH as (i & j & w' & Hij & Hi & Hj).
    { intros Hnd. apply Hdup. by constructor. }
    exists (S i), (S j), w'. split; [lia|]. by split.
Qed.

Section Depth.
Context `{Collaborators}.

Lemma nextTurnWithin_S (depth : nat) (g : GameState) :
  nextTurnWithin (S depth) g
  = if skips (advance g) then nextTurnWithin depth (advance g)
    else nextTurnWithin 1 g.
Proof.
  cbn [nextTurnWithin]. cbv zeta. fold (advance g). unfold skips.
  case_bool_decide; [|done]. cbn [andb].
  destruct (objGet _ _) as [info|]; [|done].
  destruct (getActorById _ _ _) as [newActor|]; [|done].
  by destruct (_ <=? 0).
Qed.

Lemma nextTurnWithin_settles (g : GameState) :
  skips (advance g) = false -> nextTurnWithin 1 g <> Throws RangeError.
Proof.
  cbn [nextTurnWithin]. cbv zeta. fold (advance g). unfold skips.
  case_bool_decide; [|done]. cbn [andb].
  destruct (objGet _ _) as [info|]; [|done].
  destruct (getActorById _ _ _) as [newActor|]; [|done].
  by intros ->.
Qed.

(** More depth does not change the outcome of a call that has not
    exhausted the stack. *)
Lemma nextTurnWithin_more (depth depth' : nat) (g : GameState) :
  nextTurnWithin depth g <> Throws RangeError ->
  (depth <= depth')%nat ->
  nextTurnWithin depth' g = nextTurnWithin depth g.
Proof.
  revert depth' g. induction depth as [|depth IH]; intros depth' g Hok Hle;
    [done|].
  destruct depth' as [|depth']; [lia|].
  rewrite nextTurnWithin_S in Hok.
  rewrite (nextTurnWithin_S depth'), (nextTurnWithin_S depth).
  destruct (skips (advance g)); [|done].
  apply IH; [done | lia].
Qed.

Lemma nextTurnWithin_skipping (depth : nat) (g : GameState) :
  nextTurnWithin depth g = Throws RangeError ->
  forall k, (k < depth)%nat -> skips (advances (S k) g) = true.
Proof.
  revert g. induction depth as [|depth IH]; intros g Hover k Hk; [lia|].
  rewrite nextTurnWithin_S in Hover.
  destruct (skips (advance g)) eqn:Hskip;
    [|by apply nextTurnWithin_settles in Hskip].
  destruct k as [|k]; [done|].
  cbn [advances]. apply (IH (advance g) Hover k). lia.
Qed.

Lemma nextTurnWithin_forever (g : GameState) :
  (forall k, skips (advances (S k) g) = true) ->
  forall depth, nextTurnWithin depth g = Throws RangeError.
Proof.
  intros Hskip depth. revert g Hskip.
  induction depth as [|depth IH]; intros g Hskip; [done|].
  pose proof (Hskip 0%nat) as Hfirst. cbn [advances] in Hfirst.
  rewrite nextTurnWithin_S, Hfirst.
  apply IH. intros k. apply (Hskip (S k)).
Qed.

(** The holders are taken from the turn order. *)
Lemma advances_holder (k : nat) (g : GameState) :
  exists w,
    advances (S k) g = GameState.set_whoseTurn w g
    /\ w ∈ None :: (Some <$> GameState.playerOrder g).
Proof.
  assert (Hone : forall g0 : GameState, exists w,
            advance g0 = GameState.set_whoseTurn w g0
            /\ w ∈ None :: (Some <$> GameState.playerOrder g0)).
  { intros g0. eexists. split; [reflexivity|].
    destruct (_ !! _) as [w|] eqn:Hw; [|apply list_elem_of_here].
    apply list_elem_of_further, list_elem_of_fmap. exists w. split; [done|].
    by eapply list_elem_of_lookup_2. }
  revert g. induction k as [|k IH]; intros g; [apply Hone|].
  change (advances (S (S k)) g) with (advances (S k) (advance g)).
  destruct (IH (advance g)) as (w & -> & Hw). by exists w.
Qed.

Lemma advances_add (i k : nat) (g : GameState) :
  advances (i + k) g = advances k (advances i g).
Proof. revert g. induction i as [|i IH]; intros g; [done|]. cbn. apply IH. Qed.

(** From a holder met twice on, the sequence of the holders is periodic. *)
Lemma skips_periodic (i j : nat) (g : GameState) :
  (i < j)%nat ->
  advances (S i) g = advances (S j) g ->
  (forall k, (k < j)%nat -> skips (advances (S k) g) = true) ->
  forall k, skips (advances (S k) g) = true.
Proof.
  intros Hij Hsame Hskip k.
  induction k as [k IH] using lt_wf_ind.
  destruct (decide (k < j)%nat) as [Hk|Hk]; [by apply Hskip|].
  replace (S k) with (S j + (k - j))%nat by lia.
  rewrite advances_add, <- Hsame, <- advances_add.
  replace (S i + (k - j))%nat with (S (k - (j - i)))%nat by lia.
  apply IH. lia.
Qed.

(** The depth that [nextTurn] allows is enough: a call that exhausts it
    exhausts any depth, and a call that returns or throws a [TypeError]
    within it does the same within any greater depth. *)
Lemma nextTurnWithin_deeper (depth : nat) (g : GameState) :
  (S (length (GameState.playerOrder g)) <= depth)%nat ->
  nextTurnWithin depth g = nextTurn g.
Proof.
  intros Hdepth. unfold nextTurn.
  set (n := length (GameState.playerOrder g)) in *.
  destruct (nextTurnWithin (S n) g) as [g'|[|]] eqn:Hover;
    [rewrite <- Hover; apply nextTurnWithin_more; [by rewrite Hover | done]..|].
  apply nextTurnWithin_forever.
  pose proof (nextTurnWithin_skipping _ _ Hover) as Hskip.
  set (ws := (fun k => GameState.whoseTurn (advances (S k) g)) <$> seq 0 (S (S n))).
  destruct (pigeonhole ws (None :: (Some <$> GameState.playerOrder g)))
    as (i & j & w & Hij & Hi & Hj).
  { intros w Hw. apply list_elem_of_fmap in Hw as (k & -> & _).
    destruct (advances_holder k g) as (w & -> & Hw). exact Hw. }
  { subst ws. rewrite length_fmap, length_seq. cbn [length].
    rewrite length_fmap. fold n. lia. }
  subst ws. rewrite list_lookup_fmap in Hi, Hj.
  destruct (seq 0 (S (S n)) !! i) as [i'|] eqn:Ei; [|done].
  destruct (seq 0 (S (S n)) !! j) as [j'|] eqn:Ej; [|done].
  apply lookup_seq in Ei as [-> Hilt], Ej as [-> Hjlt].
  cbn [fmap option_fmap option_map Nat.add] in Hi, Hj.
  injection Hi as Hi. injection Hj as Hj.
  apply (skips_periodic i j); [done| |intros k Hk; apply Hskip; lia].
  destruct (advances_holder i g) as (wi & Ei & _).
  destruct (advances_holder j g) as (wj & Ej & _).
  change (advances i (advance g)) with (advances (S i) g) in Hi.
  change (advances j (advance g)) with (advances (S j) g) in Hj.
  rewrite Ei in Hi |- *. rewrite Ej in Hj |- *.
  cbn in Hi, Hj. by rewrite Hi, Hj.
Qed.
End Depth.

(** ** The turn order keeps [nextTurn] from recursing for ever *)

Lemma indexOf_lookup `{EqDecision A} (l : list A) (i : nat) (a : A) :
  NoDup l -> l !! i = Some a -> indexOf a l = Z.of_nat i.
Proof.
  intros Hnd Hi. unfold indexOf.
  destruct (list_find _ _) as [[j b]|] eqn:E.
  - apply list_find_Some in E as (Hj & -> & _).
    f_equal. by eapply NoDup_lookup.
  - apply list_find_None in E. rewrite Forall_lookup in E. by destruct (E i a Hi).
Qed.

Lemma indexOf_range `{EqDecision A} (a : A) (l : list A) :
  -1 <= indexOf a l < Z.of_nat (length l).
Proof.
  unfold indexOf. destruct (list_find _ _) as [[i b]|] eqn:E; [|lia].
  apply list_find_Some in E as (Hi & _). apply lookup_lt_Some in Hi. lia.
Qed.

Lemma succ_mod (a n : nat) :
  (0 < n)%nat ->
  (S a mod n)%nat = if decide (S (a mod n) = n) then 0%nat else S (a mod n).
Proof.
  intros Hn. pose proof (Nat.div_mod_eq a n) as Ha.
  pose proof (Nat.mod_upper_bound a n ltac:(lia)) as Hlt.
  case_decide as E.
  - symmetry. apply (Nat.mod_unique _ _ (S (a / n))); lia.
  - symmetry. apply (Nat.mod_unique _ _ (a / n)); lia.
Qed.

Section NoOverflow.
Context `{Collaborators}.

Lemma nextIndex_range (g : GameState) :
  0 <= nextIndex g < Z.max 1 (Z.of_nat (length (GameState.playerOrder g))).
Proof.
  unfold nextIndex. cbv zeta.
  set (index := match GameState.whoseTurn g with Some _ => _ | None => _ end).
  assert (-1 <= index < Z.max 0 (Z.of_nat (length (GameState.playerOrder g)))
          \/ index = -1) as Hindex.
  { subst index. destruct (GameState.whoseTurn g) as [w|]; [|by right].
    pose proof (indexOf_range w (GameState.playerOrder g)). lia. }
  destruct (index >=? _) eqn:E; lia.
Qed.

(** With distinct entries, the holder that follows the entry [i] is the
    entry [i + 1], or the entry 0 after the last. *)
Lemma advances_index (g : GameState) (k : nat) :
  NoDup (GameState.playerOrder g) ->
  GameState.playerOrder g <> [] ->
  GameState.whoseTurn (advances (S k) g)
  = GameState.playerOrder g
      !! ((Z.to_nat (nextIndex g) + k) mod length (GameState.playerOrder g))%nat.
Proof.
  intros Hnd Hne.
  set (po := GameState.playerOrder g).
  assert (Hlen : (0 < length po)%nat).
  { apply Nat.neq_0_lt_0. intros E. by apply Hne, nil_length_inv. }
  pose proof (nextIndex_range g) as Hrange. fold po in Hrange.
  set (i0 := nextIndex g) in *.
  induction k as [|k IH].
  - cbn [advances advance GameState.whoseTurn GameState.set_whoseTurn].
    fold po i0. f_equal. rewrite Nat.add_0_r, Nat.mod_small; lia.
  - replace (S (S k)) with (S k + 1)%nat by lia.
    rewrite advances_add.
    destruct (advances_holder k g) as (w & Ew & _).
    rewrite Ew in *. cbn [GameState.whoseTurn GameState.set_whoseTurn] in IH.
    cbn [advances advance GameState.whoseTurn GameState.set_whoseTurn
         GameState.playerOrder].
    fold po. f_equal. unfold nextIndex. cbv zeta.
    cbn [GameState.whoseTurn GameState.set_whoseTurn GameState.playerOrder].
    fold po.
    set (i := ((Z.to_nat i0 + k) mod length po)%nat) in *.
    assert (Hi : (i < length po)%nat) by (apply Nat.mod_upper_bound; lia).
    destruct (lookup_lt_is_Some_2 po i Hi) as [a Ha].
    rewrite IH, Ha, (indexOf_lookup po i a Hnd Ha).
    replace (Z.to_nat i0 + S k)%nat with (S (Z.to_nat i0 + k))%nat by lia.
    rewrite (succ_mod _ _ Hlen). fold i.
    case_decide as Hlast.
    + by replace (Z.of_nat i >=? Z.of_nat (length po) - 1) with true by lia.
    + replace (Z.of_nat i >=? Z.of_nat (length po) - 1) with false by lia.
      by replace (Z.to_nat (Z.of_nat i + 1)) with (S i) by lia.
Qed.

(** While the turn order has distinct entries, "evil" among them, the
    recursion of [nextTurn] ends: it reaches the evil faction at the
    latest. *)
Lemma nextTurn_no_overflow (g : GameState) :
  NoDup (GameState.playerOrder g) ->
  "evil" ∈ GameState.playerOrder g ->
  nextTurn g <> Throws RangeError.
Proof.
  intros Hnd Hevil Hover.
  set (po := GameState.playerOrder g) in *.
  assert (Hne : po <> []) by (intros E; rewrite E in Hevil; by apply elem_of_nil in Hevil).
  apply list_elem_of_lookup in Hevil as [e He].
  pose proof (lookup_lt_Some _ _ _ He) as Hlt.
  pose proof (nextTurnWithin_deeper _ g (Nat.le_refl _)) as Hsame.
  pose proof (nextTurnWithin_forever g) as Hforever.
  pose proof (nextTurnWithin_skipping _ _ Hover) as Hskip.
  set (i0 := Z.to_nat (nextIndex g)).
  pose proof (nextIndex_range g) as Hrange. fold po in Hrange.
  set (k := ((e + length po - i0) mod length po)%nat).
  assert (Hk : (k < length po)%nat) by (apply Nat.mod_upper_bound; lia).
  specialize (Hskip k ltac:(fold po; lia)).
  unfold skips in Hskip.
  rewrite (advances_index g k Hnd Hne) in Hskip. fold po i0 in Hskip.
  replace ((i0 + k) mod length po)%nat with e in Hskip.
  - rewrite He in Hskip. by rewrite bool_decide_eq_false_2 in Hskip by (by intros []).
  - subst k. rewrite Nat.Div0.add_mod_idemp_r.
    replace (i0 + (e + length po - i0))%nat with (e + 1 * length po)%nat by lia.
    rewrite Nat.Div0.mod_add. by rewrite Nat.mod_small.
Qed.
End NoOverflow.

Section Returns.
Context `{Collaborators}.

(** While the turn order has distinct entries, "evil" among them, and
    every other entry is a participant with its information, [nextTurn]
    returns. *)
Lemma nextTurn_returns (g : GameState) :
  NoDup (GameState.playerOrder g) ->
  "evil" ∈ GameState.playerOrder g ->
  (forall w, w ∈ GameState.playerOrder g -> w <> "evil" ->
             is_Some (objGet (GameState.playerInfo g) w)) ->
  exists g', nextTurn g = Ok g'.
Proof.
  intros Hnd Hevil Hinfo.
  assert (Hne : GameState.playerOrder g <> []).
  { intros E. rewrite E in Hevil. by apply elem_of_nil in Hevil. }
  assert (Htype : forall depth g0,
            GameState.playerOrder g0 = GameState.playerOrder g ->
            GameState.playerInfo g0 = GameState.playerInfo g ->
            nextTurnWithin depth g0 <> Throws TypeError).
  { induction depth as [|depth IH]; intros g0 Hpo Hpi; [done|].
    rewrite nextTurnWithin_S.
    destruct (skips (advance g0)); [by apply IH|].
    cbn [nextTurnWithin]. cbv zeta. fold (advance g0).
    case_bool_decide as Hw; [|done].
    pose proof (nextIndex_range g0) as Hrange.
    destruct (lookup_lt_is_Some_2 (GameState.playerOrder g0)
                (Z.to_nat (nextIndex g0))) as [w Hlook].
    { rewrite Hpo in *.
      assert (0 < length (GameState.playerOrder g))%nat.
      { apply Nat.neq_0_lt_0. intros E. by apply Hne, nil_length_inv. }
      lia. }
    unfold holderKey.
    cbn [advance GameState.whoseTurn GameState.set_whoseTurn
         GameState.playerInfo] in *.
    rewrite Hlook in *. cbn [default].
    destruct (Hinfo w) as [info Hget].
    { rewrite <- Hpo. by eapply list_elem_of_lookup_2. }
    { by intros ->. }
    unfold id. rewrite Hpi, Hget.
    destruct (getActorById _ _ _) as [newActor|]; [|done].
    by destruct (_ <=? 0). }
  pose proof (nextTurn_no_overflow g Hnd Hevil) as Hover.
  specialize (Htype (S (length (GameState.playerOrder g))) g eq_refl eq_refl).
  unfold nextTurn in *.
  destruct (nextTurnWithin _ g) as [g'|[|]]; [by exists g'|done|done].
Qed.
End Returns.

(** ** What the operations on the pools do *)

(** The turn regenerates one point of magic, up to the maximum. *)
Lemma refreshHero_magic (a : Actor) :
  Actor.magic a <= Actor.maxMagic a ->
  Actor.magic (refreshHero a) = Z.min (Actor.maxMagic a) (Actor.magic a + 1)
  /\ Actor.moves (refreshHero a) = Actor.maxMoves a.
Proof.
  intros Hle. unfold refreshHero. cbv zeta. cbn.
  destruct (Actor.magic a <? Actor.maxMagic a) eqn:E; cbn; lia.
Qed.

(** A heal restores two points of health, up to the maximum. *)
Lemma healed_health (t : Actor) :
  Actor.health t <= Actor.maxHealth t ->
  Actor.health (healed t) = Z.min (Actor.maxHealth t) (Actor.health t + 2)
  /\ Actor.magic (healed t) = Actor.magic t
  /\ Actor.maxHealth (healed t) = Actor.maxHealth t.
Proof.
  intros Hle. unfold healed. cbv zeta. cbn.
  destruct (Actor.health t + 2 >? Actor.maxHealth t) eqn:E; cbn; lia.
Qed.

(** An assignment to another field keeps a field of every actor. *)
Lemma field_updActor {A} (field : Actor -> A) (r r' : aref)
    (f : Actor -> Actor) (g : GameState) :
  (forall a, field (f a) = field a) ->
  field (actorOf (updActor r f g) r') = field (actorOf g r').
Proof.
  intros Hf. unfold actorOf, updActor. cbn.
  rewrite list_lookup_total_alter. case_decide as E; [|done].
  destruct E as [-> _]. apply Hf.
Qed.

Section Costs.
Context `{Collaborators}.

Lemma field_engaged {A} (field : Actor -> A) (g : GameState) (actor r : aref) :
  (forall a v, field (Actor.set_moves v a) = field a) ->
  field (actorOf (engaged g actor) r) = field (actorOf g r).
Proof.
  intros Hf. unfold engaged. cbv zeta.
  change (actorOf (GameState.set_possibleMoves _ ?g1) r) with (actorOf g1 r).
  apply field_updActor. intros a. by destruct (_ <? _).
Qed.

Lemma field_strike {A} (field : Actor -> A) (g : GameState) (dungeon : nat)
    (actor target : aref) (nextStep : GameMove) (multiplier : option Z)
    (event : GameEventType) (ex ey damageDelay killDelay : Z) (r : aref) :
  (forall a v, field (Actor.set_health v a) = field a) ->
  field (actorOf (strike g dungeon actor target nextStep multiplier event
                         ex ey damageDelay killDelay) r)
  = field (actorOf g r).
Proof.
  intros Hf. unfold strike.
  destruct (rollCombat _ _ _ _ _) as [damage drawn]. cbv zeta.
  set (hurt := fun t => Actor.set_health (Actor.health t - damage) t).
  set (g3 := updActor target hurt _).
  assert (Hg3 : field (actorOf g3 r) = field (actorOf g r)).
  { unfold actorOf. subst g3. cbn.
    rewrite list_lookup_total_alter. case_decide as E; [|done].
    destruct E as [-> _]. apply Hf. }
  destruct (_ <=? 0); [|done].
  rewrite <- Hg3. unfold actorOf at 1. rewrite kill_store.
  rewrite list_lookup_total_alter. case_decide as E; [|done].
  destruct E as [-> _]. apply Hf.
Qed.

(** A magic attack takes 3 points of magic from its actor, a heal takes 2,
    whatever happens to the target. *)
Lemma applyMagic_cost (g : GameState) (dungeon : nat) (actor : aref)
    (nextStep : GameMove) :
  (actor < length (GameState.store g))%nat ->
  Actor.magic (actorOf (applyMagic g dungeon actor nextStep) actor)
  = Actor.magic (actorOf g actor) - 3.
Proof.
  intros Hactor. unfold applyMagic. cbv zeta.
  rewrite (field_engaged Actor.magic) by done.
  set (g1 := updActor actor _ (updActor actor _ g)).
  assert (Hg1 : Actor.magic (actorOf g1 actor) = Actor.magic (actorOf g actor) - 3).
  { subst g1. rewrite actorOf_updActor_eq
      by (unfold updActor; cbn; by rewrite length_alter).
    cbn. by rewrite (field_updActor Actor.magic). }
  destruct (getActorAt _ _ _ _) as [target|]; [|done].
  by rewrite (field_strike Actor.magic).
Qed.

Lemma applyHeal_cost (g : GameState) (dungeon : nat) (actor : aref)
    (nextStep : GameMove) :
  (actor < length (GameState.store g))%nat ->
  Actor.magic (actorOf (applyHeal g dungeon actor nextStep) actor)
  = Actor.magic (actorOf g actor) - 2.
Proof.
  intros Hactor. unfold applyHeal. cbv zeta.
  rewrite (field_engaged Actor.magic) by done.
  set (g1 := updActor actor _ (updActor actor _ g)).
  assert (Hg1 : Actor.magic (actorOf g1 actor) = Actor.magic (actorOf g actor) - 2).
  { subst g1. rewrite actorOf_updActor_eq
      by (unfold updActor; cbn; by rewrite length_alter).
    cbn. by rewrite (field_updActor Actor.magic). }
  destruct (getActorAt _ _ _ _) as [target|]; [|done].
  change (actorOf (addGameEvent ?g2 _ _ _ _ _ _ _) actor) with (actorOf g2 actor).
  rewrite (field_updActor Actor.magic); [done|].
  intros a. unfold healed. cbv zeta. by destruct (_ >? _).
Qed.

(** The target of a heal gains 2 points of health, up to its maximum. *)
Lemma applyHeal_health (g : GameState) (dungeon : nat) (actor target : aref)
    (nextStep : GameMove) :
  (target < length (GameState.store g))%nat ->
  Actor.health (actorOf g target) <= Actor.maxHealth (actorOf g target) ->
  getActorAt
    (updActor actor (fun a => Actor.set_magic (Actor.magic a - 2) a)
       (updActor actor (fun a => Actor.set_actions (Actor.actions a - 1) a) g))
    dungeon (GameMove.x nextStep) (GameMove.y nextStep) = Some target ->
  Actor.health (actorOf (applyHeal g dungeon actor nextStep) target)
  = Z.min (Actor.maxHealth (actorOf g target)) (Actor.health (actorOf g target) + 2).
Proof.
  intros Htarget Hle Hat. unfold applyHeal. cbv zeta.
  rewrite (field_engaged Actor.health) by done.
  rewrite Hat.
  set (g1 := updActor actor _ (updActor actor _ g)).
  change (actorOf (addGameEvent ?g2 _ _ _ _ _ _ _) target) with (actorOf g2 target).
  assert (Hsame : forall {A} (field : Actor -> A),
             (forall a v, field (Actor.set_magic v a) = field a) ->
             (forall a v, field (Actor.set_actions v a) = field a) ->
             field (actorOf g1 target) = field (actorOf g target)).
  { intros A field Hm Ha. subst g1.
    rewrite (field_updActor field) by (intros a; apply Hm).
    by rewrite (field_updActor field) by (intros a; apply Ha). }
  rewrite actorOf_updActor_eq
    by (subst g1; unfold updActor; cbn; by rewrite !length_alter).
  destruct (healed_health (actorOf g1 target)) as (-> & _).
  { by rewrite (Hsame _ Actor.health), (Hsame _ Actor.maxHealth). }
  by rewrite (Hsame _ Actor.health), (Hsame _ Actor.maxHealth).
Qed.
End Costs.

(** * Further properties of the engine *)

(** ** The dice of [rollCombat] *)

Section Dice.
Variable random : nat -> Q.

(** A dice loop of [n] rolls consumes [n] draws and adds at most [n]
    hits. *)
Lemma rollDice_bounds (faces : Q) (n pos : nat) (hits : Z) :
  snd (rollDice random n faces pos hits) = (pos + n)%nat
  /\ hits <= fst (rollDice random n faces pos hits) <= hits + Z.of_nat n.
Proof.
  revert pos hits. induction n as [|n IH]; intros pos hits.
  - cbn. lia.
  - cbn [rollDice]. cbv zeta.
    destruct (IH (S pos) (if Qltb (random pos * 6) faces then hits + 1 else hits))
      as [Hpos Hhits].
    split; [rewrite Hpos; lia|].
    destruct (Qltb _ _); lia.
Qed.

(** X1.  A resolution against a target consumes one draw of the random
    stream per point of the attack score and then one per point of the
    target's defense plus modifier, whatever the dice show, and its damage
    is at most the attack score: an attacker whose score is 0 or less does
    no damage.  A resolution without a target does no damage and consumes
    no draw. *)
Theorem rollCombat_draws (attacker target : Actor) (multiplier : option Z)
    (pos : nat) :
  snd (rollCombat random attacker (Some target) multiplier pos)
  = (pos + Z.to_nat (attackScore attacker target multiplier)
     + Z.to_nat (Actor.defense target + Actor.modDefense target))%nat
  /\ fst (rollCombat random attacker (Some target) multiplier pos)
     <= Z.max 0 (attackScore attacker target multiplier)
  /\ rollCombat random attacker None multiplier pos = (0, pos).
Proof.
  split; [|split; [|done]]; unfold rollCombat;
    pose proof (rollDice_bounds 3
                  (Z.to_nat (attackScore attacker target multiplier)) pos 0)
      as [Hpos1 Hskulls];
    destruct (rollDice _ _ _ pos 0) as [skulls pos1];
    cbn [fst snd] in Hpos1, Hskulls;
    pose proof (rollDice_bounds (if Actor.good target then 2%Q else 1%Q)
                  (Z.to_nat (Actor.defense target + Actor.modDefense target))
                  pos1 0) as [Hpos2 Hshields];
    destruct (rollDice _ _ _ pos1 0) as [shields pos2];
    cbn [fst snd] in *.
  - by rewrite Hpos2, Hpos1.
  - lia.
Qed.
End Dice.

(** ** The death of a hero *)

Section Dying.
Context `{Collaborators}.

(** X2.  The game ends on the kill of a hero after which [findActiveHero]
    finds no hero, asked once the dead hero has left its dungeon and joined
    [deadHeroes]; the kill of a monster neither ends the game nor touches
    [deadHeroes], and no kill takes the end of the game back. *)
Theorem kill_game_over (g : GameState) (dungeon : nat) (target : aref)
    (extraDelay : Z) :
  (target < length (GameState.store g))%nat ->
  let g' := kill g dungeon target extraDelay in
  if Actor.good (actorOf g target) then
    let g1 := GameState.set_deadHeroes (GameState.deadHeroes g ++ [target])
                (strikeOff g dungeon target extraDelay) in
    GameState.over g' = (if findActiveHero g1 then GameState.over g else true)
    /\ GameState.items g' = GameState.items g
    /\ GameState.drawn g' = GameState.drawn g
  else
    GameState.over g' = GameState.over g
    /\ GameState.deadHeroes g' = GameState.deadHeroes g.
Proof.
  intros Hr g'.
  destruct (strikeOff_effects g dungeon target extraDelay Hr) as (Ht & _).
  subst g'. unfold kill. cbv zeta. rewrite Ht.
  cbn [Actor.good Actor.set_health Actor.goldOnKill].
  destruct (Actor.good (actorOf g target)).
  - cbv zeta. by destruct (findActiveHero _).
  - destruct (loot_item _); [done|]. by destruct (Actor.goldOnKill _).
Qed.
End Dying.

Lemma kill_game_over_witness :
  GameState.over (kill (H := Demo.plain) Demo.scenarioB 0%nat 0%nat 0) = true.
Proof.
  exact (proj1 (kill_game_over (H := Demo.plain) Demo.scenarioB 0%nat 0%nat 0
                  ltac:(cbn; lia))).
Defined.

(** ** The saved games *)

(** Reading a property after writing one. *)
Lemma objGet_objSet {V} (o : list (string * V)) (k k' : string) (v : V) :
  objGet (objSet o k v) k' = if bool_decide (k = k') then Some v else objGet o k'.
Proof.
  induction o as [|kv o IH]; cbn.
  - by case_bool_decide.
  - destruct (decide (fst kv = k)) as [E|E].
    + rewrite (bool_decide_true _ E). cbn. subst k.
      destruct (decide (fst kv = k')) as [E'|E'].
      * by rewrite !(bool_decide_true _ E').
      * by rewrite !(bool_decide_false _ E').
    + rewrite (bool_decide_false _ E). cbn. rewrite IH.
      destruct (decide (k = k')) as [E'|E'].
      * rewrite (bool_decide_true _ E'). subst k'.
        by rewrite (bool_decide_false _ E).
      * by rewrite (bool_decide_false _ E').
Qed.

Lemma objSet_objSet {V} (o : list (string * V)) (k : string) (v v' : V) :
  objSet (objSet o k v) k v' = objSet o k v'.
Proof.
  induction o as [|kv o IH]; cbn.
  - by rewrite bool_decide_true.
  - destruct (decide (fst kv = k)) as [E|E].
    + rewrite (bool_decide_true _ E). cbn. by rewrite bool_decide_true.
    + rewrite (bool_decide_false _ E). cbn.
      by rewrite (bool_decide_false _ E), IH.
Qed.

(** The keys of an object after a write: a new key comes last. *)
Lemma objSet_keys {V} (o : list (string * V)) (k : string) (v : V) :
  map fst (objSet o k v)
  = if bool_decide (k ∈ map fst o) then map fst o else map fst o ++ [k].
Proof.
  induction o as [|kv o IH]; cbn; [done|].
  destruct (decide (fst kv = k)) as [E|E].
  - rewrite (bool_decide_true _ E). cbn. subst k.
    by rewrite bool_decide_true by apply list_elem_of_here.
  - rewrite (bool_decide_false _ E). cbn. rewrite IH.
    destruct (decide (k ∈ map fst o)) as [Hin|Hin].
    + rewrite (bool_decide_true _ Hin).
      by rewrite bool_decide_true by by apply list_elem_of_further.
    + rewrite (bool_decide_false _ Hin).
      rewrite bool_decide_false; [done|].
      intros [->|]%elem_of_cons; done.
Qed.

Lemma objGet_keys {V} (o : list (string * V)) (k : string) :
  is_Some (objGet o k) <-> k ∈ map fst o.
Proof.
  induction o as [|kv o IH]; cbn.
  - split; [by intros [? ?]|by intros ?%elem_of_nil].
  - destruct (decide (fst kv = k)) as [E|E].
    + rewrite (bool_decide_true _ E).
      split; [intros _; rewrite E; apply list_elem_of_here|by eexists].
    + rewrite (bool_decide_false _ E), IH.
      split; [apply list_elem_of_further|].
      intros [->|]%elem_of_cons; done.
Qed.

Lemma objGet_objDelete {V} (o : list (string * V)) (k k' : string) :
  objGet (objDelete o k) k' = if bool_decide (k = k') then None else objGet o k'.
Proof.
  unfold objDelete. induction o as [|kv o IH].
  - cbn. by case_bool_decide.
  - rewrite filter_cons. destruct (decide (fst kv <> k)) as [E|E]; cbn [objGet].
    + rewrite IH.
      destruct (decide (k = k')) as [E'|E'].
      * rewrite (bool_decide_true _ E'). subst k'.
        by rewrite (bool_decide_false _ E).
      * by rewrite (bool_decide_false _ E').
    + apply dec_stable in E. rewrite IH. subst k.
      destruct (decide (fst kv = k')) as [E'|E'].
      * by rewrite !(bool_decide_true _ E').
      * by rewrite !(bool_decide_false _ E').
Qed.

Section Saving.
Context `{Collaborators}.

(** X3.  A save of the participant's own game (no save is selected, or the
    participant's own is) writes the first slot of that participant and
    nothing else: the slot gets the level given, the gold, the items and
    the names of the participants, and keeps the time of its creation (a
    new slot is created at the time of the save); the other slots of the
    participant and the saves of the other participants stay as they
    are. *)
Theorem saveGame_slot (now : Z) (playerId : string) (dungeonIndex : Z)
    (g : GameState) (persisted : list (string * Persisted)) :
  GameState.persisted g = Some persisted ->
  (forall w, GameState.whoseSave g = Some w -> w = "" \/ w = playerId) ->
  let saves := default [] (objGet persisted playerId ≫= Persisted.saves) in
  exists persisted' slot,
    saveGame now playerId dungeonIndex g
    = GameState.set_persisted (Some persisted') g
    /\ objGet persisted' playerId
       = Some (Persisted.mk (Some (slot :: tail saves)))
    /\ slot
       = SaveGame.mk
           (match saves with s :: _ => SaveGame.savedAt s
                           | [] => GameState.time g + now end)
           (GameState.items g) dungeonIndex (playerNames g) (GameState.gold g)
    /\ forall other, other <> playerId ->
         objGet persisted' other = objGet persisted other.
Proof.
  intros Hp Hown saves. unfold saveGame. cbv zeta.
  assert (Hforeign :
            match GameState.whoseSave g with
            | Some w => negb (bool_decide (w = "")) && negb (bool_decide (w = playerId))
            | None => false
            end = false).
  { destruct (GameState.whoseSave g) as [w|]; [|done].
    destruct (Hown w eq_refl) as [->| ->].
    - done.
    - rewrite (bool_decide_true (playerId = playerId)) by done.
      by destruct (bool_decide _). }
  rewrite Hforeign, Hp. fold saves.
  eexists _, _. split; [reflexivity|].
  split; [by rewrite objGet_objSet, bool_decide_true|].
  split; [by destruct saves|].
  intros other Hother. by rewrite objGet_objSet, bool_decide_false.
Qed.

(** X4.  Saving twice is saving once: a second save of the same level by
    the same participant, at any later time, changes nothing. *)
Theorem saveGame_twice (now now' : Z) (playerId : string) (dungeonIndex : Z)
    (g : GameState) :
  saveGame now' playerId dungeonIndex (saveGame now playerId dungeonIndex g)
  = saveGame now playerId dungeonIndex g.
Proof.
  unfold saveGame at 2 3. cbv zeta.
  destruct (match GameState.whoseSave g with Some _ => _ | None => _ end) eqn:Hforeign.
  - unfold saveGame. cbv zeta. by rewrite Hforeign.
  - destruct (GameState.persisted g) as [persisted|] eqn:Hp.
    + unfold saveGame. cbv zeta.
      cbn [GameState.whoseSave GameState.persisted GameState.set_persisted
           GameState.items GameState.gold GameState.time].
      rewrite Hforeign, objGet_objSet, bool_decide_true by done.
      cbn [mbind option_bind Persisted.saves default tail]. cbn.
      by rewrite objSet_objSet.
    + unfold saveGame. cbv zeta. by rewrite Hforeign, Hp.
Qed.
End Saving.

Lemma saveGame_slot_witness :
  GameState.persisted (saveGame 7 "p1" 2 Demo.scenarioB)
  = Some [("p1", Persisted.mk (Some [SaveGame.mk 7 [] 2 "Ann" 0]))].
Proof.
  destruct (saveGame_slot 7 "p1" 2 Demo.scenarioB
              [("p1", Persisted.mk None)] eq_refl)
    as (persisted' & slot & Hsave & _).
  - intros w Hw. discriminate Hw.
  - vm_compute. reflexivity.
Defined.

(** ** Joining *)

Lemma possibleMoves_eta (g : GameState) :
  GameState.set_possibleMoves (GameState.possibleMoves g) g = g.
Proof. by destruct g. Qed.

Section JoiningMore.
Context `{Collaborators}.

(** The cells that the scan of a room collects are inside the walls of the
    room, hold no actor and are not blocked. *)
Lemma possibleStartsIn_free (g : GameState) (d : nat) (room : Room) (x y : Z) :
  (x, y) ∈ possibleStartsIn g d room ->
  getActorAt g d x y = None /\ blocked g d None x y = false
  /\ Room.x room + 1 <= x < Room.x room + Room.width room - 1
  /\ Room.y room + 1 <= y < Room.y room + Room.height room - 1.
Proof.
  unfold possibleStartsIn. intros Hin.
  apply list_elem_of_bind in Hin as (x0 & Hin & Hx).
  apply list_elem_of_bind in Hin as (y0 & Hin & Hy).
  apply elem_of_seqZ in Hx, Hy.
  destruct (_ && _); [by apply elem_of_nil in Hin|].
  destruct (negb _ && negb _) eqn:E; [|by apply elem_of_nil in Hin].
  apply list_elem_of_singleton in Hin. injection Hin as -> ->.
  apply andb_prop in E as [E1 E2].
  apply negb_true_iff in E1, E2. apply bool_decide_eq_false in E1.
  rewrite (Z.add_comm x0), (Z.add_comm y0).
  split; [by destruct (getActorAt _ _ _ _); [destruct E1; eexists|]|].
  split; [done|]. lia.
Qed.

Lemma pickStart_member (g : GameState) (l : list (Z * Z)) (start : Z * Z) :
  pickStart g l = Some start -> start ∈ l.
Proof.
  unfold pickStart. cbv zeta. destruct (_ <? 0); [done|].
  apply list_elem_of_lookup_2.
Qed.

(** What a call of [joinGame] that returns has done. *)
Lemma joinGame_inv (g g' : GameState) (playerId : string)
    (type : PlayerClass) (name : string) :
  joinGame g playerId type name = Ok g' ->
  exists lastDungeon,
    last (GameState.dungeons g) = Some lastDungeon
    /\ ledger g' = ledger g
    /\ GameState.playerOrder g'
       = (if includes playerId (GameState.playerOrder g)
          then GameState.playerOrder g
          else splice (GameState.playerOrder g)
                      (Z.of_nat (length (GameState.playerOrder g)) - 1) 0
                      [playerId])
    /\ ((GameState.store g' = GameState.store g
         /\ GameState.dungeons g' = GameState.dungeons g
         /\ GameState.playerInfo g' = GameState.playerInfo g
         /\ GameState.nextId g' = GameState.nextId g
         /\ GameState.drawn g' = GameState.drawn g)
        \/ exists x y room,
             (x, y) ∈ possibleStartsIn g (length (GameState.dungeons g) - 1)%nat room
             /\ let made :=
                  createActor (GameState.set_drawn (S (GameState.drawn g)) g)
                              playerId type (Dungeon.id lastDungeon) x y in
                GameState.store g' = GameState.store g ++ [fst made]
                /\ GameState.dungeons g'
                   = alter (fun d => Dungeon.set_actors
                              (Dungeon.actors d ++ [length (GameState.store g)]) d)
                           (length (GameState.dungeons g) - 1)%nat
                           (GameState.dungeons g)
                /\ GameState.playerInfo g'
                   = objSet (GameState.playerInfo g) playerId
                       (PlayerInfo.mk (Dungeon.id lastDungeon) type
                                      (Actor.id (fst made)) name)
                /\ GameState.nextId g' = snd made
                /\ GameState.drawn g' = S (GameState.drawn g)).
Proof.
  unfold joinGame.
  destruct (last _) as [lastDungeon|] eqn:Hlast; [|done].
  cbv zeta.
  set (placed := match list_find _ _ with Some _ => _ | None => _ end).
  intros Hjoin. exists lastDungeon. split; [done|].
  destruct placed as [g1|] eqn:Hplaced; [|done].
  cbn [mbind outcome_bind] in Hjoin.
  set (g2 := if includes playerId (GameState.playerOrder g1) then g1
             else GameState.set_playerOrder
                    (splice (GameState.playerOrder g1)
                            (Z.of_nat (length (GameState.playerOrder g1)) - 1) 0
                            [playerId]) g1) in *.
  assert (Htail : exists moves, g' = GameState.set_possibleMoves moves g2).
  { destruct (objGet _ _) as [whoseMove|];
      [|injection Hjoin as <-; eexists; by rewrite possibleMoves_eta].
    destruct (_ =? 0);
      [injection Hjoin as <-; eexists; by rewrite possibleMoves_eta|].
    destruct (getActorById _ _ _);
      injection Hjoin as <-; eexists; [done|by rewrite possibleMoves_eta]. }
  destruct Htail as [moves ->]. clear Hjoin.
  assert (Hg1 : g1 = g
                \/ exists x y room,
                     (x, y) ∈ possibleStartsIn g (length (GameState.dungeons g) - 1)%nat room
                     /\ g1 = let made :=
                               createActor (GameState.set_drawn (S (GameState.drawn g)) g)
                                 playerId type (Dungeon.id lastDungeon) x y in
                             let g0 := GameState.set_store
                                         (GameState.store g ++ [fst made])
                                         (GameState.set_nextId (snd made)
                                            (GameState.set_drawn (S (GameState.drawn g)) g)) in
                             updDungeon (length (GameState.dungeons g) - 1)%nat
                               (fun d => Dungeon.set_actors
                                  (Dungeon.actors d ++ [length (GameState.store g)]) d)
                               (GameState.set_playerInfo
                                  (objSet (GameState.playerInfo g) playerId
                                     (PlayerInfo.mk (Dungeon.id lastDungeon) type
                                                    (Actor.id (fst made)) name)) g0)).
  { subst placed.
    destruct (list_find _ _) as [[mainStartRoom ?]|];
      [|left; by injection Hplaced as <-].
    destruct (0 <? _); [|left; by injection Hplaced as <-].
    destruct (pickStart _ _) as [[x y]|] eqn:Hpick; [|done].
    apply pickStart_member in Hpick.
    apply list_elem_of_bind in Hpick as ([d r] & Hpick & _).
    cbn [fst snd] in *.
    destruct (_ !! r) as [room|]; [|by apply elem_of_nil in Hpick].
    right. exists x, y, room. split; [done|].
    destruct (createActor _ _ _ _ _ _) as [a nextId].
    by injection Hplaced as <-. }
  clear Hplaced.
  destruct Hg1 as [->|(x & y & room & Hin & ->)].
  - subst g2. split; [by destruct (includes _ _)|].
    split; [by destruct (includes _ _)|].
    left. by destruct (includes _ _).
  - subst g2. cbv zeta.
    cbn [GameState.playerOrder GameState.set_playerInfo GameState.set_store
         GameState.set_nextId GameState.set_drawn updDungeon
         GameState.set_dungeons].
    split; [by destruct (includes _ _)|].
    split; [by destruct (includes _ _)|].
    right. exists x, y, room. split; [done|].
    by destruct (includes _ _).
Qed.
End JoiningMore.

Lemma elem_of_splice_insert {A} (l : list A) (start : Z) (a : A) :
  a ∈ splice l start 0 [a].
Proof.
  unfold splice. cbv zeta. apply elem_of_app. right.
  apply elem_of_app. left. apply list_elem_of_here.
Qed.

Lemma last_dungeonOf (g : GameState) (lastDungeon : Dungeon) :
  last (GameState.dungeons g) = Some lastDungeon ->
  dungeonOf g (length (GameState.dungeons g) - 1)%nat = lastDungeon
  /\ (length (GameState.dungeons g) - 1 < length (GameState.dungeons g))%nat.
Proof.
  intros Hlast. rewrite last_lookup in Hlast.
  replace (Init.Nat.pred (length (GameState.dungeons g)))
    with (length (GameState.dungeons g) - 1)%nat in Hlast by lia.
  split; [by apply list_lookup_total_correct|by eapply lookup_lt_Some].
Qed.

Section JoiningTheorems.
Context `{Collaborators}.

(** X5.  A call of [joinGame] that returns has put the participant into
    the turn order and has created at most one actor.  If it has created
    one, the cell it asked [createActor] for held no actor and was not
    blocked in the last dungeon; the new actor is a new object, the last of
    the actors of that dungeon, and the information of the participant
    names it and the dungeon.  If it has created none (no start room, or no
    free cell), the participant is in the turn order all the same, and the
    actors, the dungeons and the information of the participants are as
    before. *)
Theorem joinGame_places (g g' : GameState) (playerId : string)
    (type : PlayerClass) (name : string) :
  joinGame g playerId type name = Ok g' ->
  let dungeon := (length (GameState.dungeons g) - 1)%nat in
  playerId ∈ GameState.playerOrder g'
  /\ ((GameState.store g' = GameState.store g
       /\ GameState.dungeons g' = GameState.dungeons g
       /\ GameState.playerInfo g' = GameState.playerInfo g)
      \/ exists x y a,
           getActorAt g dungeon x y = None
           /\ blocked g dungeon None x y = false
           /\ a = fst (createActor
                         (GameState.set_drawn (S (GameState.drawn g)) g)
                         playerId type (Dungeon.id (dungeonOf g dungeon)) x y)
           /\ GameState.store g' = GameState.store g ++ [a]
           /\ Dungeon.actors (dungeonOf g' dungeon)
              = Dungeon.actors (dungeonOf g dungeon)
                ++ [length (GameState.store g)]
           /\ objGet (GameState.playerInfo g') playerId
              = Some (PlayerInfo.mk (Dungeon.id (dungeonOf g dungeon)) type
                                    (Actor.id a) name)).
Proof.
  intros Hjoin dungeon.
  apply joinGame_inv in Hjoin
    as (lastDungeon & Hlast & _ & Horder & Hplaced).
  apply last_dungeonOf in Hlast as [Hlast Hlt]. fold dungeon in Hlast, Hlt.
  split.
  { rewrite Horder. unfold includes. case_bool_decide as Hin; [done|].
    apply elem_of_splice_insert. }
  destruct Hplaced as [(Hstore & Hdungeons & Hinfo & _)
                      |(x & y & room & Hin & Hstore & Hdungeons & Hinfo & _)].
  - by left.
  - right. fold dungeon in Hin, Hdungeons.
    apply possibleStartsIn_free in Hin as (Hfree & Hopen & _).
    eexists x, y, _. rewrite Hlast.
    split; [done|]. split; [done|]. split; [done|]. split; [done|].
    split.
    + unfold dungeonOf. rewrite Hdungeons.
      rewrite list_lookup_total_alter_eq by exact Hlt.
      change (GameState.dungeons g !!! dungeon) with (dungeonOf g dungeon).
      by rewrite Hlast.
    + by rewrite Hinfo, objGet_objSet, bool_decide_true.
Qed.

(** X6.  With draws of [[0,1)], [joinGame] throws exactly when there is
    no dungeon to join: the index of the start cell is then always within
    the cells collected. *)
Theorem joinGame_returns (g : GameState) (playerId : string)
    (type : PlayerClass) (name : string) :
  fairStream random ->
  match GameState.dungeons g with
  | [] => joinGame g playerId type name = Throws TypeError
  | _ :: _ => exists g', joinGame g playerId type name = Ok g'
  end.
Proof.
  intros Hfair. unfold joinGame.
  destruct (GameState.dungeons g) as [|d ds] eqn:Hds; [done|].
  destruct (last (d :: ds)) as [lastDungeon|] eqn:Hlast.
  2:{ rewrite last_lookup in Hlast. apply lookup_ge_None in Hlast.
      cbn in Hlast. lia. }
  cbv zeta.
  set (placed := match list_find _ _ with Some _ => _ | None => _ end).
  assert (Hplaced : exists g1, placed = Ok g1).
  { subst placed.
    destruct (list_find _ _) as [[mainStartRoom ?]|]; [|by eexists].
    destruct (0 <? _) eqn:Hlen; [|by eexists].
    set (starts := mbind _ _) in *.
    destruct (pickStart_fair g starts Hfair) as (start & -> & _).
    { intros E. rewrite E in Hlen. done. }
    destruct (createActor _ _ _ _ _ _) as [a nextId]. by eexists. }
  destruct Hplaced as [g1 ->]. cbn [mbind outcome_bind].
  destruct (objGet _ _) as [whoseMove|]; [|by eexists].
  destruct (_ =? 0); [by eexists|].
  destruct (getActorById _ _ _); by eexists.
Qed.
End JoiningTheorems.

Lemma joinGame_places_witness :
  exists g',
    joinGame (H := Demo.plain) Demo.fresh "p1" "knight" "Ann" = Ok g'
    /\ GameState.playerOrder g' = ["p1"; "evil"]
    /\ Dungeon.actors (dungeonOf g' 0%nat) = [0%nat].
Proof.
  eexists. split; [vm_compute; reflexivity|].
  split; [vm_compute; reflexivity|].
  destruct (joinGame_places (H := Demo.plain) Demo.fresh _ "p1" "knight" "Ann"
              ltac:(vm_compute; reflexivity))
    as [_ [(Hstore & _)|(x & y & a & _ & _ & _ & _ & Hactors & _)]].
  - vm_compute in Hstore. discriminate Hstore.
  - exact Hactors.
Defined.

Lemma joinGame_returns_witness :
  exists g', joinGame (H := Demo.plain) Demo.fresh "p1" "knight" "Ann" = Ok g'.
Proof.
  exact (joinGame_returns (H := Demo.plain) Demo.fresh "p1" "knight" "Ann"
           quarter_fair).
Defined.

(** ** Entering a dungeon and loading a save *)

Lemma splice_front {A} (l : list A) (a : A) : splice l 0 0 [a] = a :: l.
Proof.
  unfold splice. cbv zeta.
  replace (0 <? 0) with false by lia.
  replace (Z.min 0 (Z.of_nat (length l))) with 0 by lia.
  replace (Z.min (Z.max 0 0) (Z.of_nat (length l) - 0)) with 0 by lia.
  done.
Qed.

Lemma splice_truncate {A} (l : list A) (n : nat) :
  (n <= length l)%nat ->
  splice l (Z.of_nat n) (Z.of_nat (length l) - Z.of_nat n) [] = take n l.
Proof.
  intros Hn. unfold splice. cbv zeta.
  replace (Z.of_nat n <? 0) with false by lia.
  replace (Z.min (Z.of_nat n) (Z.of_nat (length l))) with (Z.of_nat n) by lia.
  replace (Z.min (Z.max (Z.of_nat (length l) - Z.of_nat n) 0)
                 (Z.of_nat (length l) - Z.of_nat n))
    with (Z.of_nat (length l) - Z.of_nat n) by lia.
  replace (Z.to_nat (Z.of_nat n + (Z.of_nat (length l) - Z.of_nat n)))
    with (length l) by lia.
  rewrite Nat2Z.id, drop_all. by rewrite app_nil_r.
Qed.

Lemma splice_remove_index {A} (l : list A) (i : nat) :
  (i < length l)%nat ->
  splice l (Z.of_nat i) 1 [] = take i l ++ drop (S i) l.
Proof.
  intros Hi. unfold splice. cbv zeta.
  replace (Z.of_nat i <? 0) with false by lia.
  replace (Z.min (Z.of_nat i) (Z.of_nat (length l))) with (Z.of_nat i) by lia.
  replace (Z.min (Z.max 1 0) (Z.of_nat (length l) - Z.of_nat i)) with 1 by lia.
  replace (Z.to_nat (Z.of_nat i + 1)) with (S i) by lia.
  by rewrite Nat2Z.id.
Qed.

Lemma layout_alter (actors : Dungeon -> list aref) (i : nat) (l : list Dungeon) :
  map layout (alter (fun d => Dungeon.set_actors (actors d) d) i l)
  = map layout l.
Proof.
  revert i. induction l as [|d l IH]; intros [|i]; cbn; [done..| |].
  - done.
  - f_equal. apply IH.
Qed.

Section Entering.
Context `{Collaborators}.

Lemma joinGame_layout (g g' : GameState) (playerId : string)
    (type : PlayerClass) (name : string) :
  joinGame g playerId type name = Ok g' ->
  map layout (GameState.dungeons g') = map layout (GameState.dungeons g).
Proof.
  intros Hjoin. apply joinGame_inv in Hjoin as (lastDungeon & _ & _ & _ & Hplaced).
  destruct Hplaced as [(_ & -> & _)|(x & y & room & _ & _ & -> & _)]; [done|].
  apply (layout_alter (fun d => Dungeon.actors d ++ [length (GameState.store g)])).
Qed.

(** The loop of [enterDungeonAt]: the turn order that the loop goes
    through is the one it started with. *)
Lemma rejoin_inv (pids : list string) (g g' : GameState) :
  rejoin pids g = Ok g' ->
  ledger g' = ledger g
  /\ map layout (GameState.dungeons g') = map layout (GameState.dungeons g)
  /\ ((forall pid, pid ∈ pids -> pid ∈ GameState.playerOrder g) ->
      GameState.playerOrder g' = GameState.playerOrder g).
Proof.
  revert g. induction pids as [|pid pids IH]; intros g.
  - by intros [= <-].
  - cbn [rejoin].
    destruct (objGet (GameState.playerInfo g) pid) as [info|].
    + destruct (joinGame g pid _ _) as [g1|] eqn:Hjoin; [|done].
      cbn [mbind outcome_bind]. intros Hrec.
      destruct (IH g1 Hrec) as (Hledger & Hlayout & Horder).
      pose proof (joinGame_layout _ _ _ _ _ Hjoin) as Hlayout1.
      apply joinGame_inv in Hjoin as (lastDungeon & _ & Hledger1 & Horder1 & _).
      split; [congruence|]. split; [congruence|].
      intros Hin.
      assert (Hpid : includes pid (GameState.playerOrder g) = true).
      { apply bool_decide_eq_true. apply Hin, list_elem_of_here. }
      rewrite Hpid in Horder1. rewrite Horder; [done|].
      intros pid' Hpid'. rewrite Horder1. by apply Hin, list_elem_of_further.
    + cbn [mbind outcome_bind]. intros Hrec.
      destruct (IH g Hrec) as (Hledger & Hlayout & Horder).
      split; [done|]. split; [done|].
      intros Hin. apply Horder. intros pid' Hpid'.
      by apply Hin, list_elem_of_further.
Qed.

Lemma enterDungeonAt_inv (g g' : GameState) (level : Z) :
  enterDungeonAt g level = Ok g' ->
  ledger g' = ledger g
  /\ map layout (GameState.dungeons g')
     = map layout (GameState.dungeons g)
       ++ [layout (gen_dungeon (generateDungeon g level))]
  /\ GameState.playerOrder g' = GameState.playerOrder g.
Proof.
  unfold enterDungeonAt. cbv zeta. intros Hrec.
  apply rejoin_inv in Hrec as (Hledger & Hlayout & Horder).
  split; [done|].
  split; [by rewrite Hlayout; cbn; rewrite map_app|].
  by apply Horder.
Qed.

(** X7.  Entering a dungeon adds one dungeon, the one the generator
    returns for the level, at the end of the array; it keeps the layout of
    the other dungeons and the turn order, and the participants that join
    again change neither the gold, the items, the saves nor the events. *)
Theorem enterDungeonAt_adds_one (g g' : GameState) (level : Z) :
  enterDungeonAt g level = Ok g' ->
  map layout (GameState.dungeons g')
  = map layout (GameState.dungeons g)
    ++ [layout (gen_dungeon (generateDungeon g level))]
  /\ GameState.playerOrder g' = GameState.playerOrder g
  /\ ledger g' = ledger g.
Proof.
  intros Henter. by apply enterDungeonAt_inv in Henter as (? & ? & ?).
Qed.

(** What a call of [selectSave] that finds the save has done. *)
Lemma selectSave_inv (saveIndex : nat) (playerId : string) (g g' : GameState)
    (persisted : list (string * Persisted)) (record : Persisted)
    (saves : list SaveGame) (save : SaveGame) :
  GameState.persisted g = Some persisted ->
  objGet persisted playerId = Some record ->
  Persisted.saves record = Some saves ->
  saves !! saveIndex = Some save ->
  selectSave (Z.of_nat saveIndex) playerId g = Ok g' ->
  GameState.whoseSave g' = Some playerId
  /\ GameState.saveDesc g' = Some (SaveGame.desc save)
  /\ GameState.saveLevel g' = SaveGame.level save + 1
  /\ GameState.gold g' = SaveGame.gold save
  /\ GameState.items g' = SaveGame.items save
  /\ GameState.deadHeroes g' = []
  /\ GameState.events g' = []
  /\ GameState.persisted g'
     = Some (objSet persisted playerId
               (Persisted.mk
                  (Some (save :: take saveIndex saves ++ drop (S saveIndex) saves))))
  /\ length (GameState.dungeons g') = 1%nat
  /\ GameState.playerOrder g' = GameState.playerOrder g.
Proof.
  intros Hp Hrecord Hsaves Hsave. unfold selectSave.
  rewrite Hp, Hrecord. cbn [mbind option_bind]. rewrite Hsaves.
  rewrite (proj2 (Z.ltb_ge (Z.of_nat saveIndex) 0)) by lia.
  rewrite Nat2Z.id, Hsave. cbv zeta.
  intros Henter. apply enterDungeonAt_inv in Henter
    as (Hledger & Hlayout & Horder).
  injection Hledger as Hpers Hgold Hitems Hdead _ _ _ Hev _ Hwhose Hdesc _ Hlevel _.
  cbn in Hpers, Hgold, Hitems, Hdead, Hev, Hwhose, Hdesc, Hlevel, Hlayout, Horder.
  rewrite splice_remove_index in Hpers by by eapply lookup_lt_Some.
  rewrite splice_front in Hpers.
  repeat (split; [done|]).
  split; [|done].
  apply (f_equal length) in Hlayout. by rewrite length_map in Hlayout.
Qed.

(** X8.  Selecting the save at an index of the sender's saves moves that
    save to the front of the saves, which keep their number and, the
    selected one apart, their order; the game takes the gold and the items
    of the save, has no dead hero and no event, is marked as the sender's
    save with the saved level plus one as its [saveLevel], and has one
    dungeon only; the turn order is as before. *)
Theorem selectSave_loads (saveIndex : nat) (playerId : string)
    (g g' : GameState) (persisted : list (string * Persisted))
    (record : Persisted) (saves : list SaveGame) (save : SaveGame) :
  GameState.persisted g = Some persisted ->
  objGet persisted playerId = Some record ->
  Persisted.saves record = Some saves ->
  saves !! saveIndex = Some save ->
  selectSave (Z.of_nat saveIndex) playerId g = Ok g' ->
  (exists saves',
     GameState.persisted g' ≫= (fun p => objGet p playerId)
     = Some (Persisted.mk (Some saves'))
     /\ saves' = save :: take saveIndex saves ++ drop (S saveIndex) saves
     /\ length saves' = length saves)
  /\ GameState.gold g' = SaveGame.gold save
  /\ GameState.items g' = SaveGame.items save
  /\ GameState.deadHeroes g' = []
  /\ GameState.events g' = []
  /\ GameState.whoseSave g' = Some playerId
  /\ GameState.saveDesc g' = Some (SaveGame.desc save)
  /\ GameState.saveLevel g' = SaveGame.level save + 1
  /\ length (GameState.dungeons g') = 1%nat
  /\ GameState.playerOrder g' = GameState.playerOrder g.
Proof.
  intros Hp Hrecord Hsaves Hsave Hselect.
  destruct (selectSave_inv _ _ _ _ _ _ _ _ Hp Hrecord Hsaves Hsave Hselect)
    as (Hwhose & Hdesc & Hlevel & Hgold & Hitems & Hdead & Hev & Hpers
        & Hone & Horder).
  split; [|done].
  eexists. split; [|split; [reflexivity|]].
  - rewrite Hpers. cbn [mbind option_bind].
    by rewrite objGet_objSet, bool_decide_true.
  - cbn [length]. rewrite length_app, length_take, length_drop.
    apply lookup_lt_Some in Hsave. lia.
Qed.

(** X9.  [selectSave] does nothing when the sender has no save at the
    index (no saves at all, an index below 0 or beyond the last save); it
    throws when the game has no [persisted] component. *)
Theorem selectSave_absent (saveIndex : Z) (playerId : string) (g : GameState) :
  (forall persisted record saves,
     GameState.persisted g = Some persisted ->
     objGet persisted playerId = Some record ->
     Persisted.saves record = Some saves ->
     saveIndex < 0 \/ Z.of_nat (length saves) <= saveIndex) ->
  selectSave saveIndex playerId g
  = match GameState.persisted g with
    | Some _ => Ok g
    | None => Throws TypeError
    end.
Proof.
  intros Habsent. unfold selectSave.
  destruct (GameState.persisted g) as [persisted|]; [|done].
  destruct (objGet persisted playerId) as [record|] eqn:Hrecord; [|done].
  cbn [mbind option_bind].
  destruct (Persisted.saves record) as [saves|] eqn:Hsaves; [|done].
  destruct (saveIndex <? 0) eqn:Hneg; [done|].
  destruct (Habsent _ _ _ eq_refl Hrecord Hsaves) as [?|Hge]; [lia|].
  rewrite (proj2 (lookup_ge_None saves (Z.to_nat saveIndex))) by lia.
  done.
Qed.

(** X10.  A save and its selection: after a participant has saved its own
    game at a level, selecting the first of its saves gives the game the
    gold and the items it had when it was saved, and marks it as that
    participant's save, with the level saved plus one as its [saveLevel]. *)
Theorem saveGame_selectSave (now : Z) (playerId : string) (dungeonIndex : Z)
    (g g' : GameState) (persisted : list (string * Persisted)) :
  GameState.persisted g = Some persisted ->
  (forall w, GameState.whoseSave g = Some w -> w = "" \/ w = playerId) ->
  selectSave 0 playerId (saveGame now playerId dungeonIndex g) = Ok g' ->
  GameState.gold g' = GameState.gold g
  /\ GameState.items g' = GameState.items g
  /\ GameState.whoseSave g' = Some playerId
  /\ GameState.saveLevel g' = dungeonIndex + 1
  /\ GameState.saveDesc g' = Some (playerNames g).
Proof.
  intros Hp Hown Hselect.
  assert (Hforeign :
            match GameState.whoseSave g with
            | Some w => negb (bool_decide (w = "")) && negb (bool_decide (w = playerId))
            | None => false
            end = false).
  { destruct (GameState.whoseSave g) as [w|]; [|done].
    destruct (Hown w eq_refl) as [->| ->].
    - done.
    - rewrite (bool_decide_true (playerId = playerId)) by done.
      by destruct (bool_decide _). }
  unfold saveGame in Hselect. cbv zeta in Hselect.
  rewrite Hforeign, Hp in Hselect.
  eapply (selectSave_inv 0%nat) in Hselect
    as (Hwhose & Hdesc & Hlevel & Hgold & Hitems & _);
    [|reflexivity
     |cbn [GameState.persisted GameState.set_persisted];
      by rewrite objGet_objSet, bool_decide_true
     |reflexivity|reflexivity].
  done.
Qed.
End Entering.

Lemma enterDungeonAt_adds_one_witness :
  exists g',
    enterDungeonAt (H := Demo.plain) Demo.scenarioB 2 = Ok g'
    /\ GameState.playerOrder g' = ["p1"; "evil"]
    /\ length (GameState.dungeons g') = 2%nat.
Proof.
  destruct (enterDungeonAt (H := Demo.plain) Demo.scenarioB 2) as [g'|]
    eqn:Henter; [|vm_compute in Henter; discriminate Henter].
  exists g'. split; [reflexivity|].
  destruct (enterDungeonAt_adds_one (H := Demo.plain) Demo.scenarioB g' 2 Henter)
    as (Hlayout & Horder & _).
  split; [exact Horder|].
  apply (f_equal length) in Hlayout. rewrite length_map in Hlayout.
  exact Hlayout.
Defined.

Lemma selectSave_loads_witness :
  exists g',
    selectSave (H := Demo.plain) 1 "p1" Demo.veteran = Ok g'
    /\ GameState.gold g' = 40
    /\ GameState.saveLevel g' = 3.
Proof.
  destruct (selectSave (H := Demo.plain) 1 "p1" Demo.veteran) as [g'|]
    eqn:Hselect; [|vm_compute in Hselect; discriminate Hselect].
  exists g'. split; [reflexivity|].
  destruct (selectSave_loads (H := Demo.plain) 1%nat "p1" Demo.veteran g'
              _ _ _ _ eq_refl eq_refl eq_refl eq_refl Hselect)
    as (_ & Hgold & _ & _ & _ & _ & _ & Hlevel & _).
  split; [exact Hgold|exact Hlevel].
Defined.

Lemma selectSave_absent_witness :
  selectSave (H := Demo.plain) 0 "p1" Demo.fresh = Ok Demo.fresh.
Proof.
  apply (selectSave_absent (H := Demo.plain) 0 "p1" Demo.fresh).
  intros persisted record saves [= <-] [= <-] Hsaves. discriminate Hsaves.
Defined.

Lemma saveGame_selectSave_witness :
  exists g',
    selectSave (H := Demo.plain) 0 "p1" (saveGame 7 "p1" 2 Demo.fresh) = Ok g'
    /\ GameState.saveLevel g' = 3.
Proof.
  destruct (selectSave (H := Demo.plain) 0 "p1" (saveGame 7 "p1" 2 Demo.fresh))
    as [g'|] eqn:Hselect; [|vm_compute in Hselect; discriminate Hselect].
  exists g'. split; [reflexivity|].
  destruct (saveGame_selectSave (H := Demo.plain) 7 "p1" 2 Demo.fresh g'
              [("p1", Persisted.mk None)] eq_refl)
    as (_ & _ & _ & Hlevel & _).
  - intros w Hw. discriminate Hw.
  - exact Hselect.
  - exact Hlevel.
Defined.

(** ** Choosing a character *)

Section Choosing.
Context `{Collaborators}.

(** X11.  A participant that chooses a character in a game that is not
    played from a save gets a new save in the first of its slots, of level
    0 and without gold or items, created at the time of the choice; its
    former saves follow, and only three saves are kept. *)
Theorem setPlayerType_saves (now : Z) (name : string) (type : PlayerClass)
    (playerId : string) (g g' : GameState)
    (persisted : list (string * Persisted)) (record : Persisted) :
  playerId ∉ GameState.playerOrder g ->
  (forall w, GameState.whoseSave g = Some w -> w = "") ->
  GameState.persisted g = Some persisted ->
  objGet persisted playerId = Some record ->
  setPlayerType now name type playerId g = Ok g' ->
  let save := SaveGame.mk (GameState.time g + now) [] 0 (playerNames g) 0 in
  GameState.persisted g'
  = Some (objSet persisted playerId
            (Persisted.mk
               (Some (take 3 (save :: default [] (Persisted.saves record)))))).
Proof.
  intros Hnew Hfresh Hp Hrecord. unfold setPlayerType.
  unfold includes. rewrite bool_decide_false by done.
  assert (Hf : match GameState.whoseSave g with
               | Some w => bool_decide (w = "")
               | None => true
               end = true).
  { destruct (GameState.whoseSave g) as [w|]; [|done].
    by rewrite (Hfresh w eq_refl). }
  rewrite Hf, Hp, Hrecord. cbv zeta. cbn [mbind outcome_bind].
  intros Hjoin. apply joinGame_inv in Hjoin as (lastDungeon & _ & Hledger & _).
  injection Hledger as Hpers _. cbn in Hpers. rewrite Hpers.
  rewrite !splice_front. cbv zeta.
  set (saves := _ :: _).
  assert (Hkept : (if 3 <? Z.of_nat (length saves)
                   then splice saves 3 (Z.of_nat (length saves) - 3) []
                   else saves) = take 3 saves).
  { destruct (3 <? Z.of_nat (length saves)) eqn:Hlen.
    - apply (splice_truncate saves 3). lia.
    - rewrite take_ge; [done|lia]. }
  by rewrite Hkept.
Qed.

(** X12.  The guard against a command sent twice: once [setPlayerType]
    has returned, the same participant choosing again, whatever it chooses,
    changes nothing. *)
Theorem setPlayerType_once (now now' : Z) (name name' : string)
    (type type' : PlayerClass) (playerId : string) (g g' : GameState) :
  setPlayerType now name type playerId g = Ok g' ->
  setPlayerType now' name' type' playerId g' = Ok g'.
Proof.
  intros Hset.
  assert (Hin : playerId ∈ GameState.playerOrder g').
  { unfold setPlayerType in Hset.
    destruct (includes playerId (GameState.playerOrder g)) eqn:Hinc.
    - injection Hset as <-. by apply bool_decide_eq_true in Hinc.
    - destruct (if _ : bool then _ else _) as [g1|]; [|done].
      cbn [mbind outcome_bind] in Hset.
      apply joinGame_inv in Hset as (lastDungeon & _ & _ & Horder & _).
      rewrite Horder. unfold includes. case_bool_decide; [done|].
      apply elem_of_splice_insert. }
  unfold setPlayerType, includes. by rewrite bool_decide_true.
Qed.
End Choosing.

Lemma setPlayerType_saves_witness :
  exists g',
    setPlayerType (H := Demo.plain) 7 "Ann" "knight" "p1" Demo.veteran = Ok g'
    /\ GameState.persisted g'
       = Some [("p1", Persisted.mk
                        (Some [SaveGame.mk 7 [] 0 "" 0;
                               SaveGame.mk 5 [] 1 "Ann" 3;
                               SaveGame.mk 9 [Item.mk 4 "potion"] 2 "Ann,Bob" 40]))].
Proof.
  destruct (setPlayerType (H := Demo.plain) 7 "Ann" "knight" "p1" Demo.veteran)
    as [g'|] eqn:Hset; [|vm_compute in Hset; discriminate Hset].
  exists g'. split; [reflexivity|].
  refine (setPlayerType_saves (H := Demo.plain) 7 "Ann" "knight" "p1"
            Demo.veteran g' _ _ _ _ eq_refl eq_refl Hset).
  - vm_compute. intros Hin. apply list_elem_of_singleton in Hin. discriminate.
  - intros w Hw. discriminate Hw.
Defined.

Lemma setPlayerType_once_witness :
  exists g',
    setPlayerType (H := Demo.plain) 7 "Ann" "knight" "p1" Demo.fresh = Ok g'
    /\ setPlayerType (H := Demo.plain) 9 "Bob" "wizard" "p1" g' = Ok g'.
Proof.
  destruct (setPlayerType (H := Demo.plain) 7 "Ann" "knight" "p1" Demo.fresh)
    as [g'|] eqn:Hset; [|vm_compute in Hset; discriminate Hset].
  exists g'. split; [reflexivity|].
  exact (setPlayerType_once (H := Demo.plain) 7 9 "Ann" "Bob" "knight" "wizard"
           "p1" Demo.fresh g' Hset).
Defined.

(** ** Advancing the turn *)

Lemma set_whoseTurn_idem (v w : option string) (g : GameState) :
  GameState.set_whoseTurn v (GameState.set_whoseTurn w g)
  = GameState.set_whoseTurn v g.
Proof. done. Qed.

Section HandingOver.
Context `{Collaborators}.

(** A call of [nextTurn] that returns: the holder it has settled on, an
    entry of the turn order, and what it has done for it. *)
Lemma nextTurnWithin_inv (depth : nat) (g g' : GameState) :
  nextTurnWithin depth g = Ok g' ->
  exists (i : nat),
    let holder := GameState.playerOrder g !! i in
    let g0 := GameState.set_whoseTurn holder g in
    (i < Nat.max 1 (length (GameState.playerOrder g)))%nat
    /\ if bool_decide (holder = Some "evil") then
         g' = turnChanged (refreshMonsters (GameState.set_evilTurnMax 100 g0))
       else
         exists info,
           objGet (GameState.playerInfo g) (default "undefined" holder)
           = Some info
           /\ match getActorById g0 (PlayerInfo.dungeonId info)
                                    (PlayerInfo.actorId info) with
              | Some r =>
                  0 < Actor.health (actorOf g r)
                  /\ g' = turnChanged
                            (GameState.set_possibleMoves
                               (calcMoves (updActor r refreshHero g0) r)
                               (updActor r refreshHero g0))
              | None => g' = turnChanged g0
              end.
Proof.
  assert (Hgen : forall g1,
            GameState.playerOrder g1 = GameState.playerOrder g ->
            GameState.playerInfo g1 = GameState.playerInfo g ->
            GameState.store g1 = GameState.store g ->
            (forall v, GameState.set_whoseTurn v g1 = GameState.set_whoseTurn v g) ->
            nextTurnWithin depth g1 = Ok g' ->
            exists (i : nat),
              let holder := GameState.playerOrder g !! i in
              let g0 := GameState.set_whoseTurn holder g in
              (i < Nat.max 1 (length (GameState.playerOrder g)))%nat
              /\ if bool_decide (holder = Some "evil") then
                   g' = turnChanged (refreshMonsters (GameState.set_evilTurnMax 100 g0))
                 else
                   exists info,
                     objGet (GameState.playerInfo g) (default "undefined" holder)
                     = Some info
                     /\ match getActorById g0 (PlayerInfo.dungeonId info)
                                              (PlayerInfo.actorId info) with
                        | Some r =>
                            0 < Actor.health (actorOf g r)
                            /\ g' = turnChanged
                                      (GameState.set_possibleMoves
                                         (calcMoves (updActor r refreshHero g0) r)
                                         (updActor r refreshHero g0))
                        | None => g' = turnChanged g0
                        end).
  2:{ by apply Hgen. }
  induction depth as [|depth IH]; intros g1 Hpo Hpi Hst Hset; [done|].
  cbn [nextTurnWithin]. cbv zeta.
  pose proof (nextIndex_range g1) as Hrange. rewrite Hpo in Hrange.
  rewrite Hset, Hpo.
  set (i := Z.to_nat (nextIndex g1)) in *.
  set (holder := GameState.playerOrder g !! i).
  set (g0 := GameState.set_whoseTurn holder g).
  change (GameState.whoseTurn g0) with holder.
  change (GameState.playerInfo g0) with (GameState.playerInfo g).
  change (holderKey g0) with (default "undefined" holder).
  destruct (decide (holder = Some "evil")) as [Hevil|Hevil].
  - rewrite bool_decide_false by (intros Hne; by apply Hne).
    intros [= <-]. exists i. split; [lia|].
    fold holder. by rewrite bool_decide_true.
  - rewrite bool_decide_true by done.
    destruct (objGet _ _) as [info|] eqn:Hinfo; [|done].
    destruct (getActorById _ _ _) as [r|] eqn:Hactor.
    + destruct (_ <=? 0) eqn:Hdead.
      * intros Hrec. apply (IH g0); done.
      * intros [= <-]. exists i. split; [lia|].
        fold holder g0. rewrite bool_decide_false by done.
        exists info. split; [done|]. rewrite Hactor.
        split; [|done].
        change (actorOf g0 r) with (actorOf g r) in Hdead. lia.
    + intros [= <-]. exists i. split; [lia|].
      fold holder g0. rewrite bool_decide_false by done.
      exists info. split; [done|]. by rewrite Hactor.
Qed.
End HandingOver.

Lemma refreshMonster_idem (a : Actor) :
  refreshMonster (refreshMonster a) = refreshMonster a.
Proof. done. Qed.

Lemma bool_decide_ext_if {A} (P Q : Prop) `{Decision P, Decision Q} (a b : A) :
  (P <-> Q) ->
  (if bool_decide P then a else b) = (if bool_decide Q then a else b).
Proof. intros HPQ. by rewrite (bool_decide_ext P Q HPQ). Qed.

Section Refreshing.
Context `{Collaborators}.

(** The loop of lines 264-267 over the actors of one dungeon. *)
Lemma refresh_actors (l : list aref) (g : GameState) (r : aref) :
  (r < length (GameState.store g))%nat ->
  let g' := foldl (fun g r => if Actor.good (actorOf g r) then g
                              else updActor r refreshMonster g) g l in
  actorOf g' r
  = (if bool_decide (Actor.good (actorOf g r) = false /\ r ∈ l)
     then refreshMonster (actorOf g r) else actorOf g r)
  /\ length (GameState.store g') = length (GameState.store g).
Proof.
  revert g. induction l as [|a l IH]; intros g Hr.
  - cbn. split; [|done]. rewrite bool_decide_false; [done|].
    intros [_ Hin]. by apply elem_of_nil in Hin.
  - cbn [foldl]. cbv zeta.
    destruct (Actor.good (actorOf g a)) eqn:Hgood.
    + destruct (IH g Hr) as [Hactor Hlen]. split; [|done].
      rewrite Hactor. apply bool_decide_ext_if.
      split; [intros [? ?]; split; [done|by apply list_elem_of_further]|].
      intros [Hbad [->|Hin]%elem_of_cons]; [congruence|done].
    + assert (Hr' : (r < length (GameState.store (updActor a refreshMonster g)))%nat)
        by (unfold updActor; cbn; by rewrite length_alter).
      destruct (IH (updActor a refreshMonster g) Hr') as [Hactor Hlen].
      split; [|by rewrite Hlen; unfold updActor; cbn; rewrite length_alter].
      rewrite Hactor. destruct (decide (a = r)) as [->|Hne].
      * rewrite actorOf_updActor_eq by done.
        change (Actor.good (refreshMonster (actorOf g r)))
          with (Actor.good (actorOf g r)).
        rewrite refreshMonster_idem.
        rewrite (bool_decide_true (_ /\ r ∈ r :: l))
          by (split; [done|apply list_elem_of_here]).
        destruct (bool_decide (Actor.good (actorOf g r) = false /\ r ∈ l)); reflexivity.
      * rewrite actorOf_updActor_ne by done.
        apply bool_decide_ext_if.
        split; [intros [? ?]; split; [done|by apply list_elem_of_further]|].
        intros [Hbad [->|Hin]%elem_of_cons]; done.
Qed.
End Refreshing.

Section TurnTheorems.
Context `{Collaborators}.

Lemma refreshMonsters_flat (g : GameState) :
  refreshMonsters g
  = foldl (fun g r => if Actor.good (actorOf g r) then g
                      else updActor r refreshMonster g)
          g (GameState.dungeons g ≫= Dungeon.actors).
Proof.
  unfold refreshMonsters. generalize (GameState.dungeons g) as ds.
  intros ds. revert g. induction ds as [|d ds IH]; intros g; [done|].
  cbn [foldl]. rewrite IH. cbn. by rewrite foldl_app.
Qed.

Lemma refreshMonsters_actor (g : GameState) (r : aref) :
  (r < length (GameState.store g))%nat ->
  actorOf (refreshMonsters g) r
  = if bool_decide (isMonster g r) then refreshMonster (actorOf g r)
    else actorOf g r.
Proof.
  intros Hr. rewrite refreshMonsters_flat.
  by destruct (refresh_actors (GameState.dungeons g ≫= Dungeon.actors) g r Hr).
Qed.

(** What the state after a call of [nextTurn] keeps of the state before. *)
Lemma nextTurn_frame (g g' : GameState) :
  nextTurn g = Ok g' ->
  GameState.events g' = GameState.events g ++ [turnChangeEvent]
  /\ GameState.dungeons g' = GameState.dungeons g
  /\ GameState.playerOrder g' = GameState.playerOrder g
  /\ GameState.playerInfo g' = GameState.playerInfo g
  /\ GameState.gold g' = GameState.gold g
  /\ GameState.items g' = GameState.items g
  /\ GameState.currentActivity g' = GameState.currentActivity g
  /\ GameState.over g' = GameState.over g
  /\ length (GameState.store g') = length (GameState.store g).
Proof.
  intros Hnext. apply nextTurnWithin_inv in Hnext as (i & _ & Hcases).
  cbv zeta in Hcases. destruct (bool_decide _).
  - subst g'.
    destruct (refreshMonsters_store
                (GameState.set_evilTurnMax 100
                   (GameState.set_whoseTurn (GameState.playerOrder g !! i) g)))
      as (s & -> & Hlen).
    repeat (split; [done|]). exact Hlen.
  - destruct Hcases as (info & _ & Hcases).
    destruct (getActorById _ _ _) as [r|].
    + destruct Hcases as [_ ->]. repeat (split; [done|]).
      unfold updActor. cbn. apply length_alter.
    + subst g'. repeat (split; [done|]). done.
Qed.

(** X13.  While the turn order has distinct entries, "evil" among them,
    and every other entry is a participant with its information, a call of
    [nextTurn] returns: it neither throws nor recurses for ever, however
    many dead heroes it goes past.  The holder it settles on is an entry of
    the turn order, which it leaves as it is, and the order is still as
    [nextTurn] needs it. *)
Theorem nextTurn_hands_over (g : GameState) :
  orderly g ->
  exists g' w,
    nextTurn g = Ok g'
    /\ GameState.whoseTurn g' = Some w
    /\ w ∈ GameState.playerOrder g'
    /\ orderly g'.
Proof.
  intros (Hnd & Hevil & Hinfo).
  destruct (nextTurn_returns g Hnd Hevil Hinfo) as [g' Hnext].
  destruct (nextTurn_frame g g' Hnext)
    as (_ & _ & Horder & Hpi & _).
  pose proof Hnext as Hinv.
  apply nextTurnWithin_inv in Hinv as (i & Hi & Hcases).
  cbv zeta in Hi, Hcases.
  assert (Hlen : (i < length (GameState.playerOrder g))%nat).
  { destruct (GameState.playerOrder g); [by apply elem_of_nil in Hevil|].
    cbn [length] in *. lia. }
  destruct (lookup_lt_is_Some_2 _ _ Hlen) as [w Hw].
  exists g', w. split; [done|].
  split.
  { rewrite Hw in Hcases. destruct (bool_decide _).
    - subst g'.
      destruct (refreshMonsters_store
                  (GameState.set_evilTurnMax 100
                     (GameState.set_whoseTurn (Some w) g)))
        as (s & -> & _).
      done.
    - destruct Hcases as (info & _ & Hcases).
      destruct (getActorById _ _ _) as [r|]; [by destruct Hcases as [_ ->]|].
      by subst g'. }
  split; [rewrite Horder; by eapply list_elem_of_lookup_2|].
  unfold orderly. by rewrite Horder, Hpi.
Qed.

(** X14.  A call of [nextTurn] that returns has emitted one [turnChange]
    event, whatever the number of dead heroes it went past, and has changed
    neither the dungeons, the turn order, the information of the
    participants, the gold, the items nor the current activity; it has not
    ended the game. *)
Theorem nextTurn_one_event (g g' : GameState) :
  nextTurn g = Ok g' ->
  GameState.events g' = GameState.events g ++ [turnChangeEvent]
  /\ GameState.dungeons g' = GameState.dungeons g
  /\ GameState.playerOrder g' = GameState.playerOrder g
  /\ GameState.playerInfo g' = GameState.playerInfo g
  /\ GameState.gold g' = GameState.gold g
  /\ GameState.items g' = GameState.items g
  /\ GameState.currentActivity g' = GameState.currentActivity g
  /\ GameState.over g' = GameState.over g.
Proof.
  intros Hnext.
  destruct (nextTurn_frame g g' Hnext) as (? & ? & ? & ? & ? & ? & ? & ? & _).
  done.
Qed.

(** X15.  The participant that [nextTurn] hands the turn to has its
    information, and its actor, if [getActorById] finds it, is alive: a
    hero whose health is 0 or less is never given the turn.  The actor
    gets all its moves and one action, and a point of magic unless its
    magic is full; its legal moves are calculated; no other actor
    changes.  A participant whose actor is not found gets the turn, and no
    actor changes. *)
Theorem nextTurn_hero (g g' : GameState) (w : string) :
  nextTurn g = Ok g' ->
  GameState.whoseTurn g' = Some w ->
  w <> "evil" ->
  exists info,
    objGet (GameState.playerInfo g) w = Some info
    /\ let g0 := GameState.set_whoseTurn (Some w) g in
       match getActorById g0 (PlayerInfo.dungeonId info)
                             (PlayerInfo.actorId info) with
       | Some r =>
           0 < Actor.health (actorOf g r)
           /\ GameState.store g' = alter refreshHero r (GameState.store g)
           /\ GameState.possibleMoves g'
              = calcMoves (updActor r refreshHero g0) r
           /\ Actor.moves (refreshHero (actorOf g r))
              = Actor.maxMoves (actorOf g r)
           /\ Actor.actions (refreshHero (actorOf g r)) = 1
           /\ Actor.magic (refreshHero (actorOf g r))
              = (if Actor.magic (actorOf g r) <? Actor.maxMagic (actorOf g r)
                 then Actor.magic (actorOf g r) + 1
                 else Actor.magic (actorOf g r))
       | None =>
           GameState.store g' = GameState.store g
           /\ GameState.possibleMoves g' = GameState.possibleMoves g
       end.
Proof.
  intros Hnext Hturn Hw.
  apply nextTurnWithin_inv in Hnext as (i & _ & Hcases).
  cbv zeta in Hcases.
  set (holder := GameState.playerOrder g !! i) in *.
  assert (Hholder : GameState.whoseTurn g' = holder).
  { destruct (bool_decide _).
    - subst g'.
      destruct (refreshMonsters_store
                  (GameState.set_evilTurnMax 100
                     (GameState.set_whoseTurn holder g)))
        as (s & -> & _).
      done.
    - destruct Hcases as (info & _ & Hcases).
      destruct (getActorById _ _ _) as [r|]; [by destruct Hcases as [_ ->]|].
      by subst g'. }
  rewrite Hturn in Hholder. rewrite <- Hholder in Hcases.
  rewrite bool_decide_false in Hcases by congruence.
  destruct Hcases as (info & Hinfo & Hcases). exists info.
  split; [done|]. cbv zeta.
  destruct (getActorById _ _ _) as [r|].
  - destruct Hcases as [Halive ->]. split; [done|]. split; [done|].
    split; [done|].
    unfold refreshHero. cbv zeta.
    cbn [Actor.magic Actor.maxMagic Actor.set_moves Actor.set_actions].
    destruct (_ <? _); done.
  - by subst g'.
Qed.

(** X16.  When [nextTurn] hands the turn to the evil faction, the budget
    of the planner is 100 and every monster, that is every actor of a
    dungeon that is not good, has all its moves and one action again; the
    other actors, the heroes and the actors that are in no dungeon, are as
    they were. *)
Theorem nextTurn_evil (g g' : GameState) (r : aref) :
  nextTurn g = Ok g' ->
  GameState.whoseTurn g' = Some "evil" ->
  (r < length (GameState.store g))%nat ->
  GameState.evilTurnMax g' = 100
  /\ actorOf g' r
     = if bool_decide (isMonster g r)
       then Actor.set_actions 1
              (Actor.set_moves (Actor.maxMoves (actorOf g r)) (actorOf g r))
       else actorOf g r.
Proof.
  intros Hnext Hturn Hr.
  apply nextTurnWithin_inv in Hnext as (i & _ & Hcases).
  cbv zeta in Hcases.
  set (holder := GameState.playerOrder g !! i) in *.
  destruct (decide (holder = Some "evil")) as [Hevil|Hother].
  - rewrite bool_decide_true in Hcases by done. subst g'.
    set (g0 := GameState.set_evilTurnMax 100 (GameState.set_whoseTurn holder g)).
    split.
    + destruct (refreshMonsters_store g0) as (s & -> & _). done.
    + change (actorOf (turnChanged (refreshMonsters g0)) r)
        with (actorOf (refreshMonsters g0) r).
      by rewrite (refreshMonsters_actor g0 r Hr).
  - rewrite bool_decide_false in Hcases by done.
    destruct Hcases as (info & _ & Hcases).
    destruct (getActorById _ _ _) as [a|].
    + destruct Hcases as [_ ->]. cbn in Hturn. congruence.
    + subst g'. cbn in Hturn. congruence.
Qed.

(** X17.  [nextTurn] throws a [TypeError] when the entry it comes to is
    not "evil" and has no information: a participant that joined the turn
    order without getting an actor, or no entry at all when the turn order
    is empty. *)
Theorem nextTurn_missing_info (g : GameState) :
  let holder := GameState.playerOrder g !! Z.to_nat (nextIndex g) in
  holder <> Some "evil" ->
  objGet (GameState.playerInfo g) (default "undefined" holder) = None ->
  nextTurn g = Throws TypeError.
Proof.
  intros holder Hother Hnone. unfold nextTurn.
  cbn [nextTurnWithin]. cbv zeta. fold holder.
  change (GameState.whoseTurn (GameState.set_whoseTurn holder g)) with holder.
  rewrite bool_decide_true by done.
  change (holderKey (GameState.set_whoseTurn holder g))
    with (default "undefined" holder).
  change (GameState.playerInfo (GameState.set_whoseTurn holder g))
    with (GameState.playerInfo g).
  by rewrite Hnone.
Qed.
End TurnTheorems.

Lemma scenarioB_orderly : orderly Demo.scenarioB.
Proof.
  split; [|split].
  - apply (bool_decide_unpack _). vm_compute. exact I.
  - apply (bool_decide_unpack _). vm_compute. exact I.
  - intros w Hin Hw. apply elem_of_cons in Hin as [->|Hin]; [by eexists|].
    apply list_elem_of_singleton in Hin. done.
Qed.

Lemma nextTurn_hands_over_witness :
  exists g' w,
    nextTurn (H := Demo.plain) Demo.scenarioB = Ok g'
    /\ GameState.whoseTurn g' = Some w
    /\ w ∈ GameState.playerOrder g'
    /\ orderly g'.
Proof.
  exact (nextTurn_hands_over (H := Demo.plain) Demo.scenarioB scenarioB_orderly).
Defined.

Lemma nextTurn_one_event_witness :
  exists g',
    nextTurn (H := Demo.plain) Demo.scenarioB = Ok g'
    /\ GameState.events g' = [turnChangeEvent].
Proof.
  destruct (nextTurn (H := Demo.plain) Demo.scenarioB) as [g'|] eqn:Hnext;
    [|vm_compute in Hnext; discriminate Hnext].
  exists g'. split; [reflexivity|].
  exact (proj1 (nextTurn_one_event (H := Demo.plain) Demo.scenarioB g' Hnext)).
Defined.

Lemma nextTurn_hero_witness :
  exists g',
    nextTurn (H := Demo.plain) Demo.ambush = Ok g'
    /\ exists info, objGet (GameState.playerInfo Demo.ambush) "p1" = Some info.
Proof.
  destruct (nextTurn (H := Demo.plain) Demo.ambush) as [g'|] eqn:Hnext;
    [|vm_compute in Hnext; discriminate Hnext].
  exists g'. split; [reflexivity|].
  destruct (nextTurn_hero (H := Demo.plain) Demo.ambush g' "p1" Hnext)
    as (info & Hinfo & _).
  - vm_compute in Hnext. injection Hnext as <-. reflexivity.
  - discriminate.
  - by exists info.
Defined.

Lemma nextTurn_evil_witness :
  exists g',
    nextTurn (H := Demo.plain) Demo.scenarioB = Ok g'
    /\ GameState.evilTurnMax g' = 100.
Proof.
  destruct (nextTurn (H := Demo.plain) Demo.scenarioB) as [g'|] eqn:Hnext;
    [|vm_compute in Hnext; discriminate Hnext].
  exists g'. split; [reflexivity|].
  refine (proj1 (nextTurn_evil (H := Demo.plain) Demo.scenarioB g' 1%nat
                   Hnext _ _)).
  - vm_compute in Hnext. injection Hnext as <-. reflexivity.
  - cbn. lia.
Defined.

Lemma nextTurn_missing_info_witness :
  joinGame (H := Demo.plain) Demo.scenarioB "p2" "knight" "Bob"
  = Ok Demo.crowded
  /\ nextTurn (H := Demo.plain) Demo.crowded = Throws TypeError.
Proof.
  split; [vm_compute; reflexivity|].
  apply (nextTurn_missing_info (H := Demo.plain) Demo.crowded).
  - vm_compute. discriminate.
  - vm_compute. reflexivity.
Defined.

(** ** The steps of an activity *)

Lemma foldl_preserved {A B} (field : GameState -> B)
    (step : GameState -> A -> GameState) (l : list A) (g : GameState) :
  (forall g a, field (step g a) = field g) ->
  field (foldl step g l) = field g.
Proof.
  intros Hstep. revert g. induction l as [|a l IH]; intros g; [done|].
  cbn [foldl]. by rewrite IH, Hstep.
Qed.

Section Steps.
Context `{Collaborators}.

Lemma kill_backdrop (g : GameState) (dungeon : nat) (target : aref)
    (extraDelay : Z) :
  backdrop (kill g dungeon target extraDelay) = backdrop g.
Proof.
  unfold kill. cbv zeta.
  destruct (Actor.good _).
  - by destruct (findActiveHero _).
  - destruct (loot_item _); [done|]. by destruct (Actor.goldOnKill _).
Qed.

Lemma strike_backdrop (g : GameState) (dungeon : nat) (actor target : aref)
    (nextStep : GameMove) (multiplier : option Z) (event : GameEventType)
    (ex ey damageDelay killDelay : Z) :
  backdrop (strike g dungeon actor target nextStep multiplier event
                   ex ey damageDelay killDelay)
  = backdrop g.
Proof.
  unfold strike. destruct (rollCombat _ _ _ _ _) as [damage drawn]. cbv zeta.
  destruct (_ <=? 0); [|done]. by rewrite kill_backdrop.
Qed.

Lemma applyStep_backdrop (now : Z) (g : GameState) (dungeon : nat)
    (actor : aref) (nextStep : GameMove) :
  backdrop (applyStep now g dungeon actor nextStep) = backdrop g.
Proof.
  unfold applyStep. destruct (GameMove.type nextStep).
  - done.
  - unfold applyAttack. cbv zeta.
    destruct (getActorAt _ _ _ _) as [target|]; [|done].
    change (backdrop (engaged ?g0 actor)) with (backdrop g0).
    by rewrite strike_backdrop.
  - unfold applyOpen. cbv zeta.
    change (backdrop (addGameEvent ?g0 _ _ _ _ _ _ _)) with (backdrop g0).
    by rewrite foldl_preserved.
  - unfold applyHeal. cbv zeta. by destruct (getActorAt _ _ _ _).
  - unfold applyShoot. cbv zeta.
    destruct (getActorAt _ _ _ _) as [target|]; [|done].
    change (backdrop (engaged ?g0 actor)) with (backdrop g0).
    by rewrite strike_backdrop.
  - unfold applyMagic. cbv zeta.
    destruct (getActorAt _ _ _ _) as [target|]; [|done].
    change (backdrop (engaged ?g0 actor)) with (backdrop g0).
    by rewrite strike_backdrop.
  - unfold applyChest.
    destruct (getChestAt _ _ _ _) as [c|]; [|done].
    destruct (_ !! c) as [chest|]; [|done]. cbv zeta.
    by destruct (createItem _ _).
Qed.

Lemma complete_currentActivity (now : Z) (g g' : GameState) (dungeon : nat)
    (actor : aref) :
  complete now g dungeon actor = Ok g' -> GameState.currentActivity g' = None.
Proof.
  unfold complete. cbv zeta.
  destruct (match _ ≫= _ with Some _ => _ | None => _ end) as [[g1 actor1]|];
    [|done].
  cbn [mbind outcome_bind]. by intros [= <-].
Qed.

(** X18.  A step of the executor returns [true], and keeps the turn logic
    of the tick from running, exactly when there is a current activity and
    the dungeon of the activity is found.  When it returns [false] it has
    changed nothing, the time of the last update apart, which it stamps when
    there is an activity: an activity whose dungeon is gone stays in place
    and never holds the game up. *)
Theorem applyCurrentActivity_flag (now : Z) (g g' : GameState) (b : bool) :
  applyCurrentActivity now g = Ok (b, g') ->
  b = bool_decide
        (is_Some (GameState.currentActivity g
                    ≫= fun a => getDungeonById g (Activity.dungeonId a)))
  /\ (b = false ->
      g' = match GameState.currentActivity g with
           | Some _ => GameState.set_lastUpdate now g
           | None => g
           end).
Proof.
  unfold applyCurrentActivity.
  destruct (GameState.currentActivity g) as [activity|]; cbn [mbind option_bind].
  2:{ intros [= <- <-]. split; [|done].
      rewrite bool_decide_false; [done|]. by intros [? ?]. }
  cbv zeta.
  change (getDungeonById (GameState.set_lastUpdate now g) ?d)
    with (getDungeonById g d).
  destruct (getDungeonById g _) as [dungeon|].
  2:{ intros [= <- <-]. split; [|done].
      rewrite bool_decide_false; [done|]. by intros [? ?]. }
  rewrite bool_decide_true by by eexists.
  destruct (findActor _ _ _) as [actor|]; [|by intros [= <- <-]].
  destruct (findNextStep _ _ _ _) as [nextStep|]; [|by intros [= <- <-]].
  destruct (_ && _); [|by intros [= <- <-]].
  destruct (complete _ _ _ _) as [g1|]; [|done].
  cbn [mbind outcome_bind]. by intros [= <- <-].
Qed.

(** X19.  An activity ends exactly when the step of the path resolver is
    the target of the activity: the executor then clears it; after any
    other step the activity is still the current one, and when the resolver
    has no step the executor only stamps the time of the update, so the
    activity stays for good unless a move replaces it. *)
Theorem applyCurrentActivity_finishes (now : Z) (g g' : GameState) (b : bool)
    (activity : Activity) (dungeon : nat) (actor : aref) :
  GameState.currentActivity g = Some activity ->
  getDungeonById g (Activity.dungeonId activity) = Some dungeon ->
  findActor g dungeon (Activity.actorId activity) = Some actor ->
  applyCurrentActivity now g = Ok (b, g') ->
  match findNextStep (GameState.set_lastUpdate now g) actor
                     (Activity.tx activity) (Activity.ty activity) with
  | Some nextStep =>
      GameState.currentActivity g'
      = if (GameMove.x nextStep =? Activity.tx activity)
           && (GameMove.y nextStep =? Activity.ty activity)
        then None else Some activity
  | None => g' = GameState.set_lastUpdate now g
  end.
Proof.
  intros Hactivity Hdungeon Hactor. unfold applyCurrentActivity.
  rewrite Hactivity. cbv zeta.
  change (getDungeonById (GameState.set_lastUpdate now g) ?d)
    with (getDungeonById g d).
  rewrite Hdungeon.
  change (findActor (GameState.set_lastUpdate now g) ?d ?a)
    with (findActor g d a).
  rewrite Hactor.
  destruct (findNextStep _ _ _ _) as [nextStep|]; [|by intros [= <- <-]].
  pose proof (applyStep_backdrop now (GameState.set_lastUpdate now g)
                dungeon actor nextStep) as Hback.
  injection Hback as _ _ _ _ Hact _.
  destruct (_ && _).
  - destruct (complete _ _ _ _) as [g1|] eqn:Hcomplete; [|done].
    cbn [mbind outcome_bind]. intros [= <- <-].
    by apply complete_currentActivity in Hcomplete.
  - intros [= <- <-]. by rewrite Hact.
Qed.
End Steps.

Section Targets.
Context `{Collaborators}.

(** X20.  A targeted move (an attack, a shot, a magic attack or a heal) on
    a cell where [getActorAt] finds no actor is paid for all the same: the
    actor loses its action, the 3 points of magic of a magic attack or the
    2 of a heal, and the moves it has left once it has moved.  No dice are
    rolled, no event is emitted, and no other actor and no dungeon
    changes. *)
Theorem applyStep_no_target (now : Z) (g : GameState) (dungeon : nat)
    (actor : aref) (nextStep : GameMove) :
  isTargetedMove (GameMove.type nextStep) = true ->
  getActorAt (paid (GameMove.type nextStep) actor g) dungeon
             (GameMove.x nextStep) (GameMove.y nextStep) = None ->
  (actor < length (GameState.store g))%nat ->
  let g' := applyStep now g dungeon actor nextStep in
  let a := actorOf g actor in
  GameState.events g' = GameState.events g
  /\ GameState.drawn g' = GameState.drawn g
  /\ GameState.dungeons g' = GameState.dungeons g
  /\ (forall r, r <> actor -> actorOf g' r = actorOf g r)
  /\ Actor.actions (actorOf g' actor) = Actor.actions a - 1
  /\ Actor.magic (actorOf g' actor)
     = Actor.magic a - match GameMove.type nextStep with
                       | mv_magic => 3
                       | mv_heal => 2
                       | _ => 0
                       end
  /\ Actor.moves (actorOf g' actor)
     = (if Actor.moves a <? Actor.maxMoves a then 0 else Actor.moves a)
  /\ Actor.health (actorOf g' actor) = Actor.health a.
Proof.
  intros Htargeted Hnone Hactor g' a. subst g'. unfold applyStep.
  unfold paid in Hnone. cbv zeta in Hnone.
  destruct (GameMove.type nextStep); try discriminate Htargeted;
    [unfold applyAttack|unfold applyHeal|unfold applyShoot|unfold applyMagic];
    cbv zeta; rewrite Hnone; unfold engaged; cbv zeta;
    (split; [done|]); (split; [done|]); (split; [done|]);
    (split;
     [intros r Hr; unfold actorOf, updActor; cbn;
      by rewrite !list_lookup_total_alter_ne by done|]);
    unfold actorOf, updActor; cbn;
    rewrite !list_lookup_total_alter_eq by (rewrite ?length_alter; done);
    fold (actorOf g actor); fold a; cbn;
    destruct (Actor.moves a <? Actor.maxMoves a); cbn; lia.
Qed.

(** X21.  The damage of a roll is what the target loses: after the roll,
    the health of the target is its health less the damage, or 0 when that
    is 0 or less, in which case the target has been killed.  The attack
    event and the damage event, which carries the damage, are emitted in
    this order before any event of the kill; a target that survives stays
    in its dungeon, and nothing ends the game. *)
Theorem strike_damage (g : GameState) (dungeon : nat) (actor target : aref)
    (nextStep : GameMove) (multiplier : option Z) (event : GameEventType)
    (ex ey damageDelay killDelay : Z) :
  (target < length (GameState.store g))%nat ->
  let damage :=
    fst (rollCombat random (actorOf g actor) (Some (actorOf g target))
                    multiplier (GameState.drawn g)) in
  let left := Actor.health (actorOf g target) - damage in
  let id := Actor.id (actorOf g actor) in
  let g' := strike g dungeon actor target nextStep multiplier event
                   ex ey damageDelay killDelay in
  Actor.health (actorOf g' target) = Z.max 0 left
  /\ (exists rest,
        GameState.events g'
        = GameState.events g
          ++ [GameEvent.mk event ex ey 0 id 0 None;
              GameEvent.mk ev_damage (GameMove.x nextStep) (GameMove.y nextStep)
                           damage id damageDelay None]
          ++ rest
        /\ (0 < left -> rest = []))
  /\ (0 < left ->
      GameState.dungeons g' = GameState.dungeons g
      /\ GameState.over g' = GameState.over g
      /\ GameState.gold g' = GameState.gold g).
Proof.
  intros Htarget damage left id g'. subst g' damage left id. unfold strike.
  destruct (rollCombat _ _ _ _ _) as [damage drawn]. cbn [fst]. cbv zeta.
  set (hurt := fun t => Actor.set_health (Actor.health t - damage) t).
  set (g1 := addGameEvent _ _ ev_damage _ _ _ _ _).
  assert (Hhurt : actorOf (updActor target hurt g1) target
                  = hurt (actorOf g target)).
  { by rewrite actorOf_updActor_eq. }
  rewrite Hhurt. cbn [hurt Actor.health Actor.set_health].
  destruct (_ <=? 0) eqn:Hdead;
    [apply Z.leb_le in Hdead|apply Z.leb_gt in Hdead].
  - assert (Hlen : (target < length (GameState.store (updActor target hurt g1)))%nat)
      by (unfold updActor; cbn; by rewrite length_alter).
    destruct (strikeOff_effects (updActor target hurt g1) dungeon target
                killDelay Hlen) as (Hzero & Hev & _).
    destruct (kill_frame (updActor target hurt g1) dungeon target killDelay)
      as [Hstore _].
    split.
    { rewrite (actorOf_store _ _ target Hstore), Hzero. cbn. lia. }
    split; [|lia].
    assert (Hgrow : exists rest,
               GameState.events (kill (updActor target hurt g1) dungeon target killDelay)
               = GameState.events (updActor target hurt g1) ++ rest).
    { unfold kill. cbv zeta. destruct (Actor.good _).
      - exists [diedEvent (actorOf (updActor target hurt g1) target) killDelay].
        rewrite <- Hev. by destruct (findActiveHero _).
      - destruct (loot_item _) as [item|].
        + eexists. cbn [GameState.events addGameEvent GameState.set_events
                       GameState.set_items GameState.set_drawn
                       GameState.set_nextId].
          rewrite Hev, <- app_assoc. reflexivity.
        + destruct (Actor.goldOnKill _) as [range|].
          * eexists. cbn [GameState.events addGameEvent GameState.set_events
                         GameState.set_gold GameState.set_drawn
                         GameState.set_nextId].
            rewrite Hev, <- app_assoc. reflexivity.
          * eexists. cbn [GameState.events GameState.set_drawn
                         GameState.set_nextId]. exact Hev. }
    destruct Hgrow as [rest Hgrow]. exists rest. split; [|lia].
    rewrite Hgrow. cbn. by rewrite <- !app_assoc.
  - split; [rewrite Hhurt; cbn; lia|]. split.
    + exists []. split; [|done]. cbn. by rewrite <- !app_assoc.
    + done.
Qed.
End Targets.

Lemma applyCurrentActivity_flag_witness :
  exists b g',
    applyCurrentActivity (H := Demo.plain) 500 Demo.orphan = Ok (b, g')
    /\ b = true.
Proof.
  destruct (applyCurrentActivity (H := Demo.plain) 500 Demo.orphan)
    as [[b g']|] eqn:Hstep; [|vm_compute in Hstep; discriminate Hstep].
  exists b, g'. split; [reflexivity|].
  exact (proj1 (applyCurrentActivity_flag (H := Demo.plain) 500 Demo.orphan
                  g' b Hstep)).
Defined.

Lemma applyCurrentActivity_finishes_witness :
  exists b g',
    applyCurrentActivity (H := Demo.plain) 500 Demo.toStairs = Ok (b, g')
    /\ GameState.currentActivity g' = None.
Proof.
  destruct (applyCurrentActivity (H := Demo.plain) 500 Demo.toStairs)
    as [[b g']|] eqn:Hstep; [|vm_compute in Hstep; discriminate Hstep].
  exists b, g'. split; [reflexivity|].
  exact (applyCurrentActivity_finishes (H := Demo.plain) 500 Demo.toStairs
           g' b (Activity.mk 1 1 0 1 1) 0%nat 0%nat eq_refl eq_refl eq_refl
           Hstep).
Defined.

Lemma applyStep_no_target_witness :
  Actor.magic
    (actorOf (applyStep (H := Demo.plain) 500 Demo.onStairs 0%nat 0%nat Demo.zap)
             0%nat) = 0.
Proof.
  destruct (applyStep_no_target (H := Demo.plain) 500 Demo.onStairs 0%nat
              0%nat Demo.zap eq_refl eq_refl ltac:(cbn; lia))
    as (_ & _ & _ & _ & _ & Hmagic & _).
  exact Hmagic.
Defined.

Lemma strike_damage_witness :
  Actor.health
    (actorOf (strike (H := Demo.plain) (Demo.duel 3) 0%nat 0%nat 1%nat Demo.zap
                     (Some 2) ev_magic 2 0 300 300) 1%nat) = 0.
Proof.
  exact (proj1 (strike_damage (H := Demo.plain) (Demo.duel 3) 0%nat 0%nat
                  1%nat Demo.zap (Some 2) ev_magic 2 0 300 300
                  ltac:(cbn; lia))).
Defined.

(** ** The planner *)

Lemma insertByKey_perm {A} (key : A -> Z) (a : A) (l : list A) :
  insertByKey key a l ≡ₚ a :: l.
Proof.
  induction l as [|b l IH]; cbn; [done|].
  destruct (key a <=? key b); [done|].
  rewrite IH. apply Permutation_swap.
Qed.

Lemma sortByKey_perm {A} (key : A -> Z) (l : list A) : sortByKey key l ≡ₚ l.
Proof.
  induction l as [|a l IH]; cbn; [done|].
  rewrite insertByKey_perm. by constructor.
Qed.

(** The first element of the sorted array is the first of the elements of
    the array that have the least key. *)
Lemma sortByKey_head {A} (key : A -> Z) (l : list A) (b : A) (rest : list A) :
  sortByKey key l = b :: rest ->
  exists before after,
    l = before ++ b :: after
    /\ Forall (fun a => key b < key a) before
    /\ Forall (fun a => key b <= key a) after.
Proof.
  revert b rest. induction l as [|a l IH]; intros b rest; [done|].
  cbn [sortByKey foldr]. fold (sortByKey key l).
  destruct (sortByKey key l) as [|b0 r0] eqn:Hsorted.
  - pose proof (sortByKey_perm key l) as Hperm. rewrite Hsorted in Hperm.
    apply Permutation_nil_l in Hperm. subst l.
    cbn. intros [= <- <-]. exists [], []. by repeat constructor.
  - destruct (IH b0 r0 eq_refl) as (before & after & -> & Hbefore & Hafter).
    cbn [insertByKey]. destruct (key a <=? key b0) eqn:Hle.
    + apply Z.leb_le in Hle. intros [= <- <-].
      exists [], (before ++ b0 :: after). split; [done|].
      split; [constructor|].
      apply Forall_app. split.
      * eapply Forall_impl; [exact Hbefore|]. cbn. intros; lia.
      * constructor; [done|].
        eapply Forall_impl; [exact Hafter|]. cbn. intros; lia.
    + apply Z.leb_gt in Hle. intros [= <- <-].
      exists (a :: before), after. split; [done|].
      split; [by constructor|done].
Qed.

Section PlannerMore.
Context `{Collaborators}.

(** X22.  While the budget lasts and a hero is in a dungeon, the planner
    acts for one monster: of the active monsters that can still do
    something, the one nearest to a hero, and of several that are as near,
    the first that [findActiveMonsters] lists.  When no monster can do
    anything it advances the turn. *)
Theorem takeEvilTurn_nearest (now : Z) (g : GameState) :
  heroes g <> [] ->
  1 < GameState.evilTurnMax g ->
  let g1 := GameState.set_evilTurnMax (GameState.evilTurnMax g - 1) g in
  let far a :=
    distanceToHero g1 (Actor.dungeonId (actorOf g1 a))
                   (Actor.x (actorOf g1 a)) (Actor.y (actorOf g1 a)) in
  let candidates :=
    filter (fun a => eligible g1 a = true) (findActiveMonsters g1) in
  (candidates = [] /\ takeEvilTurn now g = nextTurn g1)
  \/ exists before monster after,
       candidates = before ++ monster :: after
       /\ Forall (fun a => far monster < far a) before
       /\ Forall (fun a => far monster <= far a) after
       /\ takeEvilTurn now g = Ok (planMonster now g1 monster).
Proof.
  intros Hheroes Hbudget g1 far candidates. unfold takeEvilTurn.
  rewrite bool_decide_false by done. cbv zeta. fold g1.
  replace (GameState.evilTurnMax g1 <=? 0) with false
    by (symmetry; apply Z.leb_gt; cbn; lia).
  unfold allPossible. fold candidates. fold far.
  destruct (sortByKey far candidates) as [|monster rest] eqn:Hsorted.
  - left. split; [|done].
    pose proof (sortByKey_perm far candidates) as Hperm.
    rewrite Hsorted in Hperm. by apply Permutation_nil_l in Hperm.
  - right. apply sortByKey_head in Hsorted
      as (before & after & Hsplit & Hbefore & Hafter).
    by exists before, monster, after.
Qed.
End PlannerMore.

Section Approaching.
Context `{Collaborators}.

(** The distance to the heroes is measured on the dungeons and the
    actors, whatever the legal moves that the state holds. *)
Hypothesis distance_of_positions : forall g moves dungeonId x y,
  distanceToHero (GameState.set_possibleMoves moves g) dungeonId x y
  = distanceToHero g dungeonId x y.

(** X23.  A monster that has legal moves and no hero next to it moves
    only to get nearer: the planner starts an activity towards the legal
    move that is nearest to a hero when that move is strictly nearer than
    the monster stands, and starts none otherwise; the monster then gives
    up its moves and its action, and cannot be chosen again before the
    next turn of the evil faction. *)
Theorem planMonster_approaches (now : Z) (g : GameState) (monster : aref) :
  (monster < length (GameState.store g))%nat ->
  let moves := calcMoves g monster in
  let m := actorOf g monster in
  let far x y := distanceToHero g (Actor.dungeonId m) x y in
  moves <> [] ->
  getAdjacentHero (GameState.set_possibleMoves moves g) (Actor.dungeonId m)
                  monster = None ->
  let g' := planMonster now g monster in
  (exists best,
     best ∈ moves
     /\ Forall (fun mv => far (GameMove.x best) (GameMove.y best)
                          <= far (GameMove.x mv) (GameMove.y mv)) moves
     /\ far (GameMove.x best) (GameMove.y best) < far (Actor.x m) (Actor.y m)
     /\ GameState.currentActivity g'
        = Some (Activity.mk (Actor.dungeonId m) (Actor.id m) now
                            (GameMove.x best) (GameMove.y best))
     /\ GameState.store g' = GameState.store g)
  \/ (Forall (fun mv => far (Actor.x m) (Actor.y m)
                        <= far (GameMove.x mv) (GameMove.y mv)) moves
      /\ GameState.currentActivity g' = GameState.currentActivity g
      /\ Actor.moves (actorOf g' monster) = 0
      /\ Actor.actions (actorOf g' monster) = 0
      /\ eligible g' monster = false).
Proof.
  intros Hmonster moves m far Hmoves Hnone g'. subst g'. unfold planMonster.
  cbv zeta. fold moves.
  change (GameState.possibleMoves (GameState.set_possibleMoves moves g))
    with moves.
  change (actorOf (GameState.set_possibleMoves moves g) monster) with m.
  replace (0 <? Z.of_nat (length moves)) with true
    by (symmetry; apply Z.ltb_lt; destruct moves; [done|cbn; lia]).
  rewrite Hnone.
  set (key := fun mv : GameMove => distanceToHero _ _ _ _).
  assert (Hkey : forall mv, key mv = far (GameMove.x mv) (GameMove.y mv)).
  { intros mv. subst key far. cbn beta. apply distance_of_positions. }
  destruct (sortByKey key moves) as [|best rest] eqn:Hsorted.
  { pose proof (sortByKey_perm key moves) as Hperm.
    rewrite Hsorted in Hperm. by apply Permutation_nil_l in Hperm. }
  pose proof Hsorted as Hhead.
  apply sortByKey_head in Hhead as (before & after & Hsplit & Hbefore & Hafter).
  assert (Hleast : Forall (fun mv => far (GameMove.x best) (GameMove.y best)
                                     <= far (GameMove.x mv) (GameMove.y mv))
                          moves).
  { rewrite Hsplit. apply Forall_app. split.
    - eapply Forall_impl; [exact Hbefore|]. cbn. intros mv. rewrite !Hkey. lia.
    - constructor; [lia|].
      eapply Forall_impl; [exact Hafter|]. cbn. intros mv. by rewrite !Hkey. }
  change (actorOf (GameState.set_possibleMoves (best :: rest)
                     (GameState.set_possibleMoves moves g)) monster) with m.
  rewrite !distance_of_positions. fold (far (GameMove.x best) (GameMove.y best)).
  fold (far (Actor.x m) (Actor.y m)).
  destruct (_ <? _) eqn:Hnearer;
    [apply Z.ltb_lt in Hnearer|apply Z.ltb_ge in Hnearer].
  - left. exists best. split.
    { rewrite Hsplit. apply elem_of_app. right. apply list_elem_of_here. }
    done.
  - right. split.
    { eapply Forall_impl; [exact Hleast|]. cbn. intros; lia. }
    split; [done|].
    assert (Hexhausted : actorOf (updActor monster exhaust
                            (GameState.set_possibleMoves (best :: rest)
                               (GameState.set_possibleMoves moves g))) monster
                         = exhaust m).
    { by rewrite actorOf_updActor_eq. }
    split; [by rewrite Hexhausted|]. split; [by rewrite Hexhausted|].
    unfold eligible. cbv zeta. rewrite Hexhausted. done.
Qed.
End Approaching.

Lemma takeEvilTurn_nearest_witness :
  takeEvilTurn (H := Demo.plain) 500 Demo.ambush
  = Ok (planMonster (H := Demo.plain) 500
          (GameState.set_evilTurnMax 99 Demo.ambush) 1%nat).
Proof.
  destruct (takeEvilTurn_nearest (H := Demo.plain) 500 Demo.ambush)
    as [[Hnone _]|(before & monster & after & Hsplit & _ & _ & Hturn)].
  - vm_compute. discriminate.
  - vm_compute. reflexivity.
  - vm_compute in Hnone. discriminate Hnone.
  - vm_compute. reflexivity.
Defined.

Lemma planMonster_approaches_witness :
  GameState.currentActivity
    (planMonster (H := Demo.closer) 500 (Demo.duel 3) 1%nat)
  = Some (Activity.mk 1 2 500 1 0).
Proof.
  destruct (planMonster_approaches (H := Demo.closer)
              ltac:(intros; reflexivity) 500 (Demo.duel 3) 1%nat
              ltac:(cbn; lia) ltac:(vm_compute; discriminate) eq_refl)
    as [(best & _ & _ & _ & _)|(_ & Hkept & _)].
  - vm_compute. reflexivity.
  - vm_compute in Hkept. discriminate Hkept.
Defined.

(** ** The tick *)

Section Pruning.
Context `{Collaborators}.

Lemma no_hero_no_heroes (g : GameState) (d : Dungeon) :
  existsb (fun a => Actor.good (actorOf g a)) (Dungeon.actors d) <> true ->
  filter (fun r => Actor.good (actorOf g r) = true) (Dungeon.actors d) = [].
Proof.
  induction (Dungeon.actors d) as [|a l IH]; [done|].
  cbn [existsb]. rewrite filter_cons.
  destruct (Actor.good (actorOf g a)); cbn; [done|].
  intros Hnone. rewrite decide_False by done. by apply IH.
Qed.

(** X24.  The clean-up of the dungeons never loses a hero: it removes
    dungeons only when there are more than two, and then exactly those in
    which no actor is good; the dungeons that stay keep their order, and
    the heroes of the game are the same before and after. *)
Theorem pruneDungeons_keeps_heroes (g : GameState) :
  heroes (pruneDungeons g) = heroes g
  /\ sublist (GameState.dungeons (pruneDungeons g)) (GameState.dungeons g)
  /\ (forall d, d ∈ GameState.dungeons g ->
        (exists a, a ∈ Dungeon.actors d /\ Actor.good (actorOf g a) = true) ->
        d ∈ GameState.dungeons (pruneDungeons g))
  /\ ((length (GameState.dungeons g) <= 2)%nat -> pruneDungeons g = g)
  /\ ((2 < length (GameState.dungeons g))%nat ->
      Forall (fun d => exists a, a ∈ Dungeon.actors d
                                 /\ Actor.good (actorOf g a) = true)
             (GameState.dungeons (pruneDungeons g))).
Proof.
  unfold pruneDungeons.
  destruct (2 <? Z.of_nat (length (GameState.dungeons g))) eqn:Hmany;
    [apply Z.ltb_lt in Hmany|apply Z.ltb_ge in Hmany].
  2:{ split; [done|]. split; [done|]. split; [done|]. split; [done|]. lia. }
  set (P := fun d : Dungeon =>
              existsb (fun a => Actor.good (actorOf g a)) (Dungeon.actors d) = true).
  split.
  { unfold heroes.
    change (actorOf (GameState.set_dungeons ?ds g)) with (actorOf g).
    cbn [GameState.dungeons GameState.set_dungeons]. clear Hmany.
    induction (GameState.dungeons g) as [|d ds IH]; [done|].
    rewrite filter_cons. destruct (decide (P d)) as [Hd|Hd].
    - rewrite !bind_cons. by rewrite IH.
    - rewrite bind_cons, IH. by rewrite (no_hero_no_heroes g d Hd). }
  split; [apply sublist_filter|].
  split.
  { intros d Hd (a & Ha & Hgood). apply list_elem_of_filter. split; [|done].
    apply existsb_exists. exists a. split; [|done].
    by apply list_elem_of_In. }
  split; [lia|].
  intros _. apply Forall_forall. intros d Hd.
  apply list_elem_of_filter in Hd as [Hd _].
  apply existsb_exists in Hd as (a & Ha & Hgood).
  exists a. split; [|done]. by apply list_elem_of_In.
Qed.
End Pruning.

Lemma STEP_TIME_passed (now last : Z) :
  Qltb STEP_TIME (ofZ (now - last)) = true <-> 334 <= now - last.
Proof.
  rewrite Qltb_lt. unfold STEP_TIME, ofZ, Qlt. cbn. lia.
Qed.

Section Ticking.
Context `{Collaborators}.

(** X25.  A tick does nothing but empty the events and clean up the
    dungeons when less than 334 units of game time have passed since the
    last update, and also when no activity is under way on the turn of a
    participant that has legal moves left (or when the turn order is
    empty): the turn of a participant ends by itself only when it has no
    legal move. *)
Theorem update_waits (now : Z) (g : GameState) :
  now - GameState.lastUpdate g <= 333
  \/ (GameState.currentActivity g = None
      /\ GameState.whoseTurn g <> Some "evil"
      /\ (GameState.possibleMoves g <> [] \/ GameState.playerOrder g = [])) ->
  update now g = Ok (pruneDungeons (GameState.set_events [] g)).
Proof.
  intros Hwait. unfold update. cbv zeta.
  set (g1 := pruneDungeons (GameState.set_events [] g)).
  assert (Hsame : GameState.lastUpdate g1 = GameState.lastUpdate g
                  /\ GameState.currentActivity g1 = GameState.currentActivity g
                  /\ GameState.whoseTurn g1 = GameState.whoseTurn g
                  /\ GameState.possibleMoves g1 = GameState.possibleMoves g
                  /\ GameState.playerOrder g1 = GameState.playerOrder g).
  { subst g1. unfold pruneDungeons. by destruct (2 <? _). }
  destruct Hsame as (Hlast & Hact & Hturn & Hmoves & Horder).
  destruct (Qltb STEP_TIME (ofZ (now - GameState.lastUpdate g1))) eqn:Hstep;
    [|done].
  apply STEP_TIME_passed in Hstep. rewrite Hlast in Hstep.
  destruct Hwait as [Hearly|(Hnone & Hnotevil & Hmore)]; [lia|].
  unfold applyCurrentActivity. rewrite Hact, Hnone, Hturn.
  rewrite bool_decide_false by done.
  rewrite Hmoves, Horder.
  destruct Hmore as [Hmore| ->].
  - rewrite bool_decide_false; [done|].
    intros Hlen. by apply nil_length_inv in Hlen.
  - by destruct (bool_decide _).
Qed.
End Ticking.

Lemma update_waits_witness :
  update (H := Demo.plain) 100 Demo.scenarioB
  = Ok (pruneDungeons (GameState.set_events [] Demo.scenarioB)).
Proof.
  apply (update_waits (H := Demo.plain) 100 Demo.scenarioB).
  left. cbn. lia.
Defined.

Section Roster.
Context `{Collaborators}.

Lemma startDungeon_roster (g g' : GameState) (actor actor' : aref)
    (next old : nat) :
  startDungeon g actor next old = Ok (g', actor') -> roster g' = roster g.
Proof.
  unfold startDungeon.
  destruct (List.find _ _) as [startRoom|]; [|by intros [= <- <-]].
  cbv zeta. destruct (0 <? _); [|by intros [= <- <-]].
  destruct (pickStart _ _) as [start|]; [|done].
  intros [= <- <-]. unfold roster. cbn. f_equal.
  rewrite map_map. apply map_ext. intros kv. by destruct (_ =? _).
Qed.

Lemma openNext_roster (now : Z) (g : GameState) (dungeon : nat) (actor : aref) :
  roster (openNext now g dungeon actor) = roster g.
Proof.
  unfold openNext. cbv zeta.
  set (g1 := match findDungeonByLevel _ _ with Some _ => _ | None => _ end).
  assert (Hg1 : roster g1 = roster g) by (subst g1; by destruct (findDungeonByLevel _ _)).
  destruct (Actor.playerId _) as [playerId|]; [|done].
  case_bool_decide; [done|].
  by destruct (saveGame_frame now playerId
                 (Dungeon.level (dungeonOf g dungeon) + 1) g1) as [p ->].
Qed.

Lemma complete_roster (now : Z) (g g' : GameState) (dungeon : nat)
    (actor : aref) :
  complete now g dungeon actor = Ok g' -> roster g' = roster g.
Proof.
  unfold complete. cbv zeta.
  set (moved := match _ ≫= _ with Some _ => _ | None => _ end).
  assert (Hmoved : forall g1 actor1, moved = Ok (g1, actor1) ->
                                     roster g1 = roster g).
  { subst moved. intros g1 actor1.
    destruct (_ ≫= _) as [room|]; [|by intros [= <- <-]].
    destruct (_ && _); [|by intros [= <- <-]].
    unfold descend. cbv zeta.
    destruct (findDungeonByLevel _ _) as [nextDungeon|].
    - intros Hstart. apply startDungeon_roster in Hstart.
      by rewrite Hstart, openNext_roster.
    - intros [= <- <-]. apply openNext_roster. }
  destruct moved as [[g1 actor1]|]; [|done].
  cbn [mbind outcome_bind]. intros [= <-].
  by rewrite <- (Hmoved g1 actor1).
Qed.

Lemma applyCurrentActivity_roster (now : Z) (g g' : GameState) (b : bool) :
  applyCurrentActivity now g = Ok (b, g') -> roster g' = roster g.
Proof.
  unfold applyCurrentActivity.
  destruct (GameState.currentActivity g) as [activity|]; [|by intros [= <- <-]].
  cbv zeta.
  destruct (getDungeonById _ _) as [dungeon|]; [|by intros [= <- <-]].
  destruct (findActor _ _ _) as [actor|]; [|by intros [= <- <-]].
  destruct (findNextStep _ _ _ _) as [nextStep|]; [|by intros [= <- <-]].
  pose proof (applyStep_backdrop now (GameState.set_lastUpdate now g)
                dungeon actor nextStep) as Hback.
  assert (Hstep : roster (applyStep now (GameState.set_lastUpdate now g)
                                    dungeon actor nextStep) = roster g).
  { injection Hback as _ Horder Hinfo _. unfold roster. by rewrite Horder, Hinfo. }
  destruct (_ && _); [|by intros [= <- <-]].
  destruct (complete _ _ _ _) as [g1|] eqn:Hcomplete; [|done].
  cbn [mbind outcome_bind]. intros [= <- <-].
  apply complete_roster in Hcomplete. by rewrite Hcomplete.
Qed.

Lemma nextTurn_roster (g g' : GameState) :
  nextTurn g = Ok g' -> roster g' = roster g.
Proof.
  intros Hnext. apply nextTurn_frame in Hnext as (_ & _ & Horder & Hinfo & _).
  unfold roster. by rewrite Horder, Hinfo.
Qed.

Lemma planMonster_roster (now : Z) (g : GameState) (monster : aref) :
  roster (planMonster now g monster) = roster g.
Proof.
  unfold planMonster. cbv zeta. destruct (0 <? _); [|done].
  destruct (getAdjacentHero _ _ _) as [hero|].
  - by destruct (List.find _ _).
  - destruct (sortByKey _ _); [done|]. by destruct (_ <? _).
Qed.

Lemma takeEvilTurn_roster (now : Z) (g g' : GameState) :
  takeEvilTurn now g = Ok g' -> roster g' = roster g.
Proof.
  unfold takeEvilTurn. case_bool_decide; [by intros [= <-]|]. cbv zeta.
  destruct (_ <=? 0);
    [intros Hnext; apply nextTurn_roster in Hnext; exact Hnext|].
  destruct (allPossible _) as [|monster rest];
    [intros Hnext; apply nextTurn_roster in Hnext; exact Hnext|].
  intros [= <-]. by rewrite planMonster_roster.
Qed.

Lemma update_roster (now : Z) (g g' : GameState) :
  update now g = Ok g' -> roster g' = roster g.
Proof.
  unfold update. cbv zeta.
  set (g1 := pruneDungeons (GameState.set_events [] g)).
  assert (Hg1 : roster g1 = roster g)
    by (subst g1; unfold pruneDungeons; by destruct (2 <? _)).
  destruct (Qltb _ _); [|by intros [= <-]].
  destruct (applyCurrentActivity now g1) as [[[] g2]|] eqn:Hstep; [| |done];
    apply applyCurrentActivity_roster in Hstep.
  - intros [= <-]. congruence.
  - case_bool_decide.
    + intros Hevil. apply takeEvilTurn_roster in Hevil. congruence.
    + case_bool_decide; [|intros [= <-]; congruence].
      destruct (0 <? _); [|intros [= <-]; congruence].
      intros Hnext. apply nextTurn_roster in Hnext. congruence.
Qed.

(** X26.  A tick never changes the turn order, and never the set of the
    participants that have their information: whatever the activity that
    it carries on (a way down the stairs included), the move that it plans
    for a monster and the turns that it advances, the entries of the turn
    order and the keys of [playerInfo] are the same after it, in the same
    order. *)
Theorem update_keeps_roster (now : Z) (g g' : GameState) :
  update now g = Ok g' ->
  GameState.playerOrder g' = GameState.playerOrder g
  /\ map fst (GameState.playerInfo g') = map fst (GameState.playerInfo g).
Proof.
  intros Hupdate. apply update_roster in Hupdate.
  by injection Hupdate as ? ?.
Qed.

(** X27.  Lazy generation: when a dungeon of the level looked for exists
    already (another hero went down before), the way down calls the
    generator no more; it saves the game of the hero's participant and
    moves the hero into the dungeon that exists. *)
Theorem descend_existing (now : Z) (g : GameState) (dungeon : nat)
    (actor : aref) (nextDungeon : nat) :
  findDungeonByLevel g (Dungeon.level (dungeonOf g dungeon) + 2)
  = Some nextDungeon ->
  exists persisted,
    openNext now g dungeon actor = GameState.set_persisted persisted g
    /\ descend now g dungeon actor
       = startDungeon (GameState.set_persisted persisted g) actor
                      nextDungeon dungeon.
Proof.
  intros Hfound. unfold descend, openNext. cbv zeta.
  replace (Dungeon.level (dungeonOf g dungeon) + 1 + 1)
    with (Dungeon.level (dungeonOf g dungeon) + 2) by lia.
  rewrite Hfound.
  assert (Hsaved : exists persisted,
            match Actor.playerId (actorOf g actor) with
            | Some playerId =>
                if bool_decide (playerId = "") then g
                else saveGame now playerId
                       (Dungeon.level (dungeonOf g dungeon) + 1) g
            | None => g
            end = GameState.set_persisted persisted g).
  { destruct (Actor.playerId _) as [playerId|].
    - case_bool_decide; [exists (GameState.persisted g); by destruct g|].
      apply saveGame_frame.
    - exists (GameState.persisted g). by destruct g. }
  destruct Hsaved as [persisted ->]. exists persisted. split; [done|].
  change (findDungeonByLevel (GameState.set_persisted persisted g) ?l)
    with (findDungeonByLevel g l).
  by rewrite Hfound.
Qed.
End Roster.

Lemma update_keeps_roster_witness :
  exists g',
    update (H := Demo.plain) 500 Demo.toStairs = Ok g'
    /\ GameState.playerOrder g' = ["p1"; "evil"].
Proof.
  destruct (update (H := Demo.plain) 500 Demo.toStairs) as [g'|] eqn:Hupdate;
    [|vm_compute in Hupdate; discriminate Hupdate].
  exists g'. split; [reflexivity|].
  exact (proj1 (update_keeps_roster (H := Demo.plain) 500 Demo.toStairs g'
                  Hupdate)).
Defined.

Lemma descend_existing_witness :
  exists persisted,
    openNext (H := Demo.plain) 500 Demo.deep 0%nat 0%nat
    = GameState.set_persisted persisted Demo.deep
    /\ descend (H := Demo.plain) 500 Demo.deep 0%nat 0%nat
       = startDungeon (H := Demo.plain)
           (GameState.set_persisted persisted Demo.deep) 0%nat 1%nat 0%nat.
Proof.
  exact (descend_existing (H := Demo.plain) 500 Demo.deep 0%nat 0%nat 1%nat
           eq_refl).
Defined.

(** ** The participants and the turn order *)

Lemma first_occurrence `{EqDecision A} (a : A) (l : list A) :
  a ∈ l -> exists before after, l = before ++ a :: after /\ a ∉ before.
Proof.
  induction l as [|b l IH]; [by intros ?%elem_of_nil|].
  destruct (decide (b = a)) as [->|Hne].
  - intros _. exists [], l. split; [done|]. by intros ?%elem_of_nil.
  - intros [?|Hin]%elem_of_cons; [congruence|].
    destruct (IH Hin) as (before & after & -> & Hfirst).
    exists (b :: before), after. split; [done|].
    intros [?|?]%elem_of_cons; [congruence|done].
Qed.

(** Removing the entry of a member of the array removes its first
    occurrence. *)
Lemma splice_member `{EqDecision A} (a : A) (l : list A) :
  a ∈ l ->
  exists before after,
    l = before ++ a :: after /\ (a ∉ before)
    /\ splice l (indexOf a l) 1 [] = before ++ after.
Proof.
  intros Hin. destruct (first_occurrence a l Hin) as (before & after & -> & Hfirst).
  exists before, after. split; [done|]. split; [done|].
  rewrite indexOf_present by done. apply splice_remove_at.
Qed.

Lemma splice_insert_keeps {A} (l : list A) (start : Z) (a w : A) :
  w ∈ l -> w ∈ splice l start 0 [a].
Proof.
  unfold splice. cbv zeta.
  set (len := Z.of_nat (length l)).
  set (actualStart := if start <? 0 then _ else _).
  assert (Hrange : 0 <= actualStart <= len).
  { subst actualStart len. destruct (start <? 0) eqn:E; lia. }
  replace (Z.min (Z.max 0 0) (len - actualStart)) with 0 by lia.
  rewrite Z.add_0_r. intros Hin.
  rewrite <- (take_drop (Z.to_nat actualStart) l) in Hin.
  apply elem_of_app in Hin as [Hin|Hin].
  - apply elem_of_app. by left.
  - apply elem_of_app. right. apply elem_of_app. by right.
Qed.

Lemma registered_roster (g g' : GameState) :
  roster g' = roster g -> registered g -> registered g'.
Proof.
  intros [= Horder Hinfo] Hreg w Hw.
  rewrite Horder. apply Hreg. apply objGet_keys. rewrite <- Hinfo.
  by apply objGet_keys.
Qed.

Section Registered.
Context `{Collaborators}.

Lemma registered_joinGame (g g' : GameState) (playerId : string)
    (type : PlayerClass) (name : string) :
  registered g -> joinGame g playerId type name = Ok g' -> registered g'.
Proof.
  intros Hreg Hjoin.
  apply joinGame_inv in Hjoin as (lastDungeon & _ & _ & Horder & Hplaced).
  assert (Hkeeps : forall w, w ∈ GameState.playerOrder g ->
                             w ∈ GameState.playerOrder g').
  { intros w Hw. rewrite Horder. destruct (includes _ _); [done|].
    by apply splice_insert_keeps. }
  assert (Hself : playerId ∈ GameState.playerOrder g').
  { rewrite Horder. unfold includes. case_bool_decide; [done|].
    apply elem_of_splice_insert. }
  intros w Hw.
  destruct Hplaced as [(_ & _ & Hinfo & _)
                      |(x & y & room & _ & _ & _ & Hinfo & _)];
    rewrite Hinfo in Hw.
  - by apply Hkeeps, Hreg.
  - rewrite objGet_objSet in Hw. case_bool_decide as E; [by subst w|].
    by apply Hkeeps, Hreg.
Qed.

Lemma registered_rejoin (pids : list string) (g g' : GameState) :
  registered g -> rejoin pids g = Ok g' -> registered g'.
Proof.
  revert g. induction pids as [|pid pids IH]; intros g Hreg.
  - by intros [= <-].
  - cbn [rejoin]. destruct (objGet _ pid) as [info|].
    + destruct (joinGame g pid _ _) as [g1|] eqn:Hjoin; [|done].
      cbn [mbind outcome_bind]. apply IH.
      by eapply registered_joinGame.
    + cbn [mbind outcome_bind]. by apply IH.
Qed.

(** What a call of [playerLeft] for a participant with its information
    has done when it returns. *)
Lemma playerLeft_inv (playerId : string) (g g' : GameState)
    (info : PlayerInfo) :
  objGet (GameState.playerInfo g) playerId = Some info ->
  playerLeft playerId g = Ok g' ->
  exists g1,
    GameState.playerOrder g1 = GameState.playerOrder g
    /\ GameState.playerInfo g1 = GameState.playerInfo g
    /\ GameState.dungeons g1 = GameState.dungeons g
    /\ g' = GameState.set_playerInfo
              (objDelete (GameState.playerInfo g1) playerId)
              match getDungeonById g1 (PlayerInfo.dungeonId info) with
              | Some dungeon =>
                  let g2 := GameState.set_playerOrder
                              (splice (GameState.playerOrder g1)
                                      (indexOf playerId (GameState.playerOrder g1))
                                      1 []) g1 in
                  updDungeon dungeon (fun d =>
                    Dungeon.set_actors
                      (filter (fun a => Actor.id (actorOf g2 a)
                                        <> PlayerInfo.actorId info)
                              (Dungeon.actors d)) d) g2
              | None => g1
              end.
Proof.
  intros Hinfo. unfold playerLeft. rewrite Hinfo.
  case_bool_decide.
  - destruct (nextTurn g) as [g1|] eqn:Hnext; [|done].
    cbn [mbind outcome_bind]. intros [= <-]. exists g1.
    apply nextTurn_frame in Hnext as (_ & Hdungeons & Horder & Hpi & _).
    repeat (split; [done|]). by destruct (getDungeonById _ _).
  - cbn [mbind outcome_bind]. intros [= <-]. exists g.
    repeat (split; [done|]). by destruct (getDungeonById _ _).
Qed.

(** X28.  A participant that leaves while every participant with its
    information is in the turn order: its information is deleted and that
    of the others is kept.  If its dungeon is found, its entry of the turn
    order, the first and only the first, is removed, the other entries
    keep their order, and no actor with the identifier of its actor stays
    in the actor list of the dungeon.  If its dungeon is not found (it has
    been cleaned up), the turn order stays as it is, with the entry of the
    participant that has left. *)
Theorem playerLeft_leaves (playerId : string) (g g' : GameState)
    (info : PlayerInfo) :
  registered g ->
  objGet (GameState.playerInfo g) playerId = Some info ->
  playerLeft playerId g = Ok g' ->
  objGet (GameState.playerInfo g') playerId = None
  /\ (forall other, other <> playerId ->
        objGet (GameState.playerInfo g') other
        = objGet (GameState.playerInfo g) other)
  /\ match getDungeonById g (PlayerInfo.dungeonId info) with
     | Some dungeon =>
         (exists before after,
            GameState.playerOrder g = before ++ playerId :: after
            /\ (playerId ∉ before)
            /\ GameState.playerOrder g' = before ++ after)
         /\ Forall (fun a => Actor.id (actorOf g' a) <> PlayerInfo.actorId info)
                   (Dungeon.actors (dungeonOf g' dungeon))
     | None => GameState.playerOrder g' = GameState.playerOrder g
     end.
Proof.
  intros Hreg Hinfo Hleft.
  destruct (playerLeft_inv playerId g g' info Hinfo Hleft)
    as (g1 & Horder & Hpi & Hdungeons & ->).
  cbn [GameState.playerInfo GameState.set_playerInfo]. rewrite Hpi.
  split; [by rewrite objGet_objDelete, bool_decide_true|].
  split; [intros other Hother; by rewrite objGet_objDelete, bool_decide_false|].
  assert (Hfind : forall id, getDungeonById g1 id = getDungeonById g id)
    by (intros id; unfold getDungeonById; by rewrite Hdungeons).
  rewrite Hfind.
  destruct (getDungeonById g _) as [dungeon|] eqn:Hdungeon; [|done].
  cbv zeta. split.
  - destruct (splice_member playerId (GameState.playerOrder g))
      as (before & after & Hsplit & Hfirst & Hsplice).
    { apply Hreg. by eexists. }
    exists before, after. split; [done|]. split; [done|].
    cbn. by rewrite Horder.
  - unfold getDungeonById in Hdungeon.
    destruct (list_find _ _) as [[i d]|] eqn:Hlook; [|done].
    injection Hdungeon as ->.
    apply list_find_Some in Hlook as (Hlook & _).
    unfold dungeonOf, updDungeon. cbn.
    rewrite list_lookup_total_alter_eq
      by (rewrite Hdungeons; by eapply lookup_lt_Some).
    cbn. apply Forall_forall. intros a Ha.
    by apply list_elem_of_filter in Ha as [Ha _].
Qed.

(** X29.  Every participant that has its information is in the turn
    order, and every operation keeps it so: joining, choosing a character,
    loading a save, making a move, ending the turn, leaving, a tick, and a
    participant of the turn order clearing its selection.  (The selection
    cleared by one that is not in the turn order removes the last entry,
    which may be a participant with its information.) *)
Theorem registered_kept (g : GameState) :
  registered g ->
  (forall playerId type name g',
     joinGame g playerId type name = Ok g' -> registered g')
  /\ (forall now name type playerId g',
        setPlayerType now name type playerId g = Ok g' -> registered g')
  /\ (forall saveIndex playerId g',
        selectSave saveIndex playerId g = Ok g' -> registered g')
  /\ (forall now x y playerId g',
        makeMove now x y playerId g = Ok g' -> registered g')
  /\ (forall g', endTurn g = Ok g' -> registered g')
  /\ (forall playerId,
        playerId ∈ GameState.playerOrder g -> registered (clearType playerId g))
  /\ (forall playerId g', playerLeft playerId g = Ok g' -> registered g')
  /\ (forall now g', update now g = Ok g' -> registered g').
Proof.
  intros Hreg.
  split; [intros playerId type name g'; by apply registered_joinGame|].
  split.
  { intros now name type playerId g'. unfold setPlayerType.
    destruct (includes _ _); [by intros [= <-]|].
    set (saved := if _ : bool then _ else _).
    assert (Hsaved : forall g1, saved = Ok g1 -> roster g1 = roster g).
    { subst saved. intros g1. destruct (match GameState.whoseSave g with
                                        | Some _ => _ | None => _ end);
        [|by intros [= <-]].
      destruct (GameState.persisted g) as [persisted|]; [|done].
      destruct (objGet persisted playerId); [|done]. by intros [= <-]. }
    destruct saved as [g1|]; [|done]. cbn [mbind outcome_bind].
    apply registered_joinGame.
    by apply (registered_roster g g1 (Hsaved g1 eq_refl)). }
  split.
  { intros saveIndex playerId g'. unfold selectSave.
    destruct (GameState.persisted g) as [persisted|]; [|done].
    destruct (_ ≫= _) as [saves|]; [|by intros [= <-]].
    destruct (if saveIndex <? 0 then _ else _) as [save|];
      [|by intros [= <-]].
    cbv zeta. unfold enterDungeonAt. cbv zeta.
    apply registered_rejoin. by apply (registered_roster g). }
  split.
  { intros now x y playerId g'. unfold makeMove.
    case_bool_decide; [|by intros [= <-]].
    destruct (List.find _ _); [|by intros [= <-]].
    destruct (objGet _ _); [|done].
    intros [= <-]. by apply (registered_roster g). }
  split.
  { intros g' Hnext. apply nextTurn_roster in Hnext.
    by apply (registered_roster g). }
  split.
  { intros playerId Hin w Hw. unfold clearType in *.
    cbn [GameState.playerInfo GameState.playerOrder GameState.set_playerInfo
         GameState.set_playerOrder] in *.
    rewrite objGet_objDelete in Hw.
    case_bool_decide as Hne; [by destruct Hw|].
    destruct (splice_member playerId (GameState.playerOrder g) Hin)
      as (before & after & Hsplit & _ & ->).
    pose proof (Hreg w Hw) as Hmember. rewrite Hsplit in Hmember.
    apply elem_of_app in Hmember as [?|[?|?]%elem_of_cons];
      [apply elem_of_app; by left|congruence|apply elem_of_app; by right]. }
  split.
  { intros playerId g' Hleft.
    destruct (objGet (GameState.playerInfo g) playerId) as [info|] eqn:Hinfo.
    2:{ unfold playerLeft in Hleft. rewrite Hinfo in Hleft.
        by injection Hleft as <-. }
    destruct (playerLeft_inv playerId g g' info Hinfo Hleft)
      as (g1 & Horder & Hpi & _ & ->).
    intros w Hw.
    cbn [GameState.playerInfo GameState.set_playerInfo] in Hw.
    rewrite Hpi, objGet_objDelete in Hw.
    case_bool_decide as Hne; [by destruct Hw|].
    pose proof (Hreg w Hw) as Hmember.
    destruct (getDungeonById g1 _); [|cbn; by rewrite Horder].
    cbn. rewrite Horder.
    destruct (splice_member playerId (GameState.playerOrder g))
      as (before & after & Hsplit & _ & ->); [apply Hreg; by eexists|].
    rewrite Hsplit in Hmember.
    apply elem_of_app in Hmember as [?|[?|?]%elem_of_cons];
      [apply elem_of_app; by left|congruence|apply elem_of_app; by right]. }
  intros now g' Hupdate. apply update_roster in Hupdate.
  by apply (registered_roster g).
Qed.
End Registered.

Lemma scenarioB_registered : registered Demo.scenarioB.
Proof.
  intros w [info Hw]. cbn in Hw. case_bool_decide as E; [|done].
  subst w. apply list_elem_of_here.
Qed.

Lemma playerLeft_leaves_witness :
  exists g',
    playerLeft (H := Demo.plain) "p1" Demo.scenarioB = Ok g'
    /\ GameState.playerOrder g' = ["evil"].
Proof.
  destruct (playerLeft (H := Demo.plain) "p1" Demo.scenarioB) as [g'|]
    eqn:Hleft; [|vm_compute in Hleft; discriminate Hleft].
  exists g'. split; [reflexivity|].
  destruct (playerLeft_leaves (H := Demo.plain) "p1" Demo.scenarioB g'
              (PlayerInfo.mk 1 "knight" 1 "Ann") scenarioB_registered eq_refl
              Hleft) as (_ & _ & Horder).
  vm_compute in Hleft. injection Hleft as <-. reflexivity.
Defined.

Lemma registered_kept_witness : registered (clearType "p1" Demo.scenarioB).
Proof.
  destruct (registered_kept (H := Demo.plain) Demo.scenarioB
              scenarioB_registered) as (_ & _ & _ & _ & _ & Hclear & _).
  apply Hclear. apply list_elem_of_here.
Defined.

Lemma pruneDungeons_keeps_heroes_witness :
  pruneDungeons Demo.scenarioB = Demo.scenarioB.
Proof.
  destruct (pruneDungeons_keeps_heroes Demo.scenarioB)
    as (_ & _ & _ & Hfew & _).
  apply Hfew. cbn. lia.
Defined.

(** ** The initial state *)

Section Initial.
Context `{Collaborators}.

(** X30.  The state that [setup] returns is one from which the game can
    run: its turn order, the entry "evil" alone, is as [nextTurn] needs it,
    no participant has its information yet, and it has one dungeon, no
    activity and no event.  The turn is given to the first participant,
    who is not in the turn order: the first advance of the turn returns
    and hands over to the evil faction, with the budget of 100. *)
Theorem setup_ready (allPlayerIds : list string) :
  let g := setup allPlayerIds in
  orderly g
  /\ registered g
  /\ GameState.playerOrder g = ["evil"]
  /\ GameState.whoseTurn g = allPlayerIds !! 0%nat
  /\ length (GameState.dungeons g) = 1%nat
  /\ GameState.currentActivity g = None
  /\ GameState.events g = []
  /\ exists g', nextTurn g = Ok g'
                /\ GameState.whoseTurn g' = Some "evil"
                /\ GameState.evilTurnMax g' = 100.
Proof.
  intros g.
  assert (Horder : GameState.playerOrder g = ["evil"]) by reflexivity.
  assert (Hinfo : GameState.playerInfo g = []) by reflexivity.
  split.
  { split; [|split]; rewrite Horder.
    - apply NoDup_singleton.
    - apply list_elem_of_here.
    - intros w Hw Hne. apply list_elem_of_singleton in Hw. done. }
  split; [intros w [info Hw]; by rewrite Hinfo in Hw|].
  split; [done|]. split; [done|]. split; [done|]. split; [done|].
  split; [done|].
  assert (Hindex : nextIndex g = 0).
  { unfold nextIndex. cbv zeta. rewrite Horder.
    destruct (GameState.whoseTurn g) as [w|]; [|done].
    pose proof (indexOf_range w ["evil"]) as Hrange. cbn [length] in *.
    destruct (indexOf w ["evil"] >=? _) eqn:E; [done|].
    rewrite Z.geb_leb in E. apply Z.leb_gt in E. lia. }
  unfold nextTurn. rewrite Horder. cbn [length nextTurnWithin]. cbv zeta.
  rewrite Hindex, Horder. cbn [Z.to_nat lookup list_lookup].
  cbn [GameState.whoseTurn GameState.set_whoseTurn].
  rewrite bool_decide_false by (intros Hne; by apply Hne).
  eexists. split; [reflexivity|].
  set (g0 := GameState.set_evilTurnMax 100 _).
  destruct (refreshMonsters_store g0) as (s & -> & _). done.
Qed.
End Initial.
